(** * The validation engine of Data Alchemist, embedded in Rocq

    The development follows [src/utils/validationEngine.ts] (the rule
    registry, [validateField], [parseJsonArray], [getAllTaskIds] and
    [validateData]) and the score computation of
    [src/components/ValidationDashboard.tsx].

    The engine is TypeScript running on an ECMAScript host, so the first
    module, [JS], gives the host operations the engine calls: strings as
    sequences of UTF-16 code units, numbers as IEEE 754 binary64 values
    (the [spec_float] of the Standard Library, with its correctly rounded
    operations), regular expressions with their backtracking matcher and
    [lastIndex], [parseFloat], [JSON.parse], and the conversions
    [ToBoolean] and [ToString].  The engine itself is in [Engine], the
    dashboard in [Dashboard] and [Report], the second validation of the
    page ([src/pages/Index.tsx]) in [Pages] and the lookups of the grid
    in [Grid]; the properties follow. *)

From Stdlib Require Import ZArith NArith List String Ascii SpecFloat Lia.
From Stdlib Require Import DecimalPos Sorted.
From stdpp Require Import gmap list.
Import ListNotations.

Set Warnings "-register-all".

(** ** The ECMAScript host *)

Module JS.

(** *** Strings

    A string is its sequence of UTF-16 code units.  [js] turns a literal
    of the development (one code unit per character, all below 256) into
    such a sequence. *)

Abbreviation jsstring := (list N).

Definition js (s : string) : jsstring :=
  map N_of_ascii (list_ascii_of_string s).

(** WhiteSpace and LineTerminator code units: the class [\s] of regular
    expressions, and what [trim] and [parseFloat] strip. *)
Definition isWhiteSpace (c : N) : bool :=
  ((9 <=? c) && (c <=? 13) || (c =? 32) || (c =? 160) || (c =? 5760)
   || (8192 <=? c) && (c <=? 8202) || (c =? 8232) || (c =? 8233)
   || (c =? 8239) || (c =? 8287) || (c =? 12288) || (c =? 65279))%N.

(** LineTerminator code units: what [.] does not match. *)
Definition isLineTerminator (c : N) : bool :=
  ((c =? 10) || (c =? 13) || (c =? 8232) || (c =? 8233))%N.

Definition isDigit (c : N) : bool := ((48 <=? c) && (c <=? 57))%N.

Fixpoint trimStart (s : jsstring) : jsstring :=
  match s with
  | c :: t => if isWhiteSpace c then trimStart t else s
  | [] => []
  end.

(** [String.prototype.trim] *)
Definition trim (s : jsstring) : jsstring :=
  rev (trimStart (rev (trimStart s))).

(** [String.prototype.toLowerCase], code unit by code unit: Basic Latin,
    Latin-1, and the Kelvin sign U+212A, whose lower case is [k].  No
    other cased letter of Unicode has one of the letters t, a, s, k in
    its lower case, which is all that [getAllTaskIds] asks of this
    function. *)
Definition lowerUnit (c : N) : N :=
  (if (65 <=? c) && (c <=? 90) then c + 32
   else if (192 <=? c) && (c <=? 222) && negb (c =? 215) then c + 32
   else if c =? 8490 then 107
   else c)%N.

Definition toLowerCase (s : jsstring) : jsstring := map lowerUnit s.

Fixpoint startsWith (p s : jsstring) : bool :=
  match p, s with
  | [], _ => true
  | a :: p', b :: s' => (a =? b)%N && startsWith p' s'
  | _ :: _, [] => false
  end.

(** [String.prototype.includes] *)
Fixpoint includes (s p : jsstring) : bool :=
  startsWith p s ||
  match s with
  | [] => false
  | _ :: t => includes t p
  end.

Fixpoint strEq (a b : jsstring) : bool :=
  match a, b with
  | [], [] => true
  | x :: a', y :: b' => (x =? y)%N && strEq a' b'
  | _, _ => false
  end.

(** *** Numbers

    A Number is a binary64 value: [prec = 53], [emax = 1024]. *)

Abbreviation number := spec_float.

Definition prec : Z := 53.
Definition emax : Z := 1024.

Definition isNaN (x : number) : bool :=
  match x with
  | S754_nan => true
  | _ => false
  end.

Definition isZero (x : number) : bool :=
  match x with
  | S754_zero _ => true
  | _ => false
  end.

(** [x < y] and [x <= y] on Numbers: false as soon as one side is NaN. *)
Definition lt (x y : number) : bool := SFltb x y.
Definition le (x y : number) : bool := SFleb x y.

Definition add (x y : number) : number := SFadd prec emax x y.
Definition sub (x y : number) : number := SFsub prec emax x y.
Definition mul (x y : number) : number := SFmul prec emax x y.
Definition div (x y : number) : number := SFdiv prec emax x y.

(** The Number of an integer, rounded to nearest even. *)
Definition ofZ (n : Z) : number := binary_normalize prec emax n 0 false.
Definition ofNat (n : nat) : number := ofZ (Z.of_nat n).

(** The same representation of the same value. *)
Definition sameValue (x y : number) : bool :=
  match x, y with
  | S754_zero s, S754_zero s' => Bool.eqb s s'
  | S754_infinity s, S754_infinity s' => Bool.eqb s s'
  | S754_nan, S754_nan => true
  | S754_finite s m e, S754_finite s' m' e' =>
      Bool.eqb s s' && Pos.eqb m m' && Z.eqb e e'
  | _, _ => false
  end.

(** SameValueZero on Numbers: NaN equals NaN, and the two zeros are
    equal. *)
Definition sameValueZero (x y : number) : bool :=
  match x, y with
  | S754_zero _, S754_zero _ => true
  | _, _ => sameValue x y
  end.

Local Open Scope Z_scope.

(** The Number nearest to [m * 10 ^ e] (ties to even), with the sign
    [neg]: the value of a decimal literal. *)
Definition decimalToNumber (neg : bool) (m e : Z) : number :=
  match m with
  | Zpos p =>
      if 0 <=? e
      then binary_normalize prec emax
             (if neg then - (m * 10 ^ e) else m * 10 ^ e) 0 neg
      else SFdiv prec emax (S754_finite neg p 0)
             (S754_finite false (Z.to_pos (10 ^ (- e))) 0)
  | _ => S754_zero neg
  end.

Fixpoint uintDigits (u : Decimal.uint) : jsstring :=
  match u with
  | Decimal.Nil => []
  | Decimal.D0 u => 48%N :: uintDigits u
  | Decimal.D1 u => 49%N :: uintDigits u
  | Decimal.D2 u => 50%N :: uintDigits u
  | Decimal.D3 u => 51%N :: uintDigits u
  | Decimal.D4 u => 52%N :: uintDigits u
  | Decimal.D5 u => 53%N :: uintDigits u
  | Decimal.D6 u => 54%N :: uintDigits u
  | Decimal.D7 u => 55%N :: uintDigits u
  | Decimal.D8 u => 56%N :: uintDigits u
  | Decimal.D9 u => 57%N :: uintDigits u
  end.

(** The decimal digits of a natural number. *)
Definition digitsOfN (n : N) : jsstring := uintDigits (N.to_uint n).
Definition digitsOfZ (n : Z) : jsstring := digitsOfN (Z.to_N n).

(** [Number::toString] of an array index or a length (an integer below
    [2 ^ 32], printed in plain decimal). *)
Definition indexToString (n : nat) : jsstring := digitsOfN (N.of_nat n).

(** [num / den < 10 ^ n], for positive [num] and [den]. *)
Definition ltPow10 (num den n : Z) : bool :=
  if 0 <=? n then num <? 10 ^ n * den else num * 10 ^ (- n) <? den.

(** The least [n] from the start value on with [num / den < 10 ^ n]. *)
Fixpoint findExp10 (fuel : nat) (num den n : Z) : Z :=
  match fuel with
  | O => n
  | S f => if ltPow10 num den n then n else findExp10 f num den (n + 1)
  end.

(** [num / den / 10 ^ p] as a fraction. *)
Definition scaled (num den p : Z) : Z * Z :=
  if 0 <=? p then (num, den * 10 ^ p) else (num * 10 ^ (- p), den).

(** The shortest decimal [c * 10 ^ (n0 - k)] that reads back as [x]:
    for [k = 1, 2, ...] digits the two decimals around [num / den] are
    tried, and of two that read back as [x] the closer one is taken
    (the even one on a tie). *)
Fixpoint shortest (fuel : nat) (x : number) (num den n0 k : Z) : Z * Z :=
  let p := n0 - k in
  let '(a, b) := scaled num den p in
  let lo := a / b in
  let hi := lo + 1 in
  let r := a mod b in
  let pick :=
    match sameValue (decimalToNumber false lo p) x,
          sameValue (decimalToNumber false hi p) x with
    | true, true =>
        match 2 * r ?= b with
        | Lt => Some lo
        | Gt => Some hi
        | Eq => Some (if Z.even lo then lo else hi)
        end
    | true, false => Some lo
    | false, true => Some hi
    | false, false => None
    end in
  match pick, fuel with
  | Some c, _ => (c, k)
  | None, S f => shortest f x num den n0 (k + 1)
  | None, O => (lo, k)
  end.

Definition zeros (n : Z) : jsstring := repeat 48%N (Z.to_nat n).

(** The digits [d1 ... dk] of a Number with [10 ^ (n - 1) <= x < 10 ^ n],
    laid out as [Number::toString] does. *)
Definition formatDecimal (digits : jsstring) (n : Z) : jsstring :=
  let k := Z.of_nat (length digits) in
  if (k <=? n) && (n <=? 21) then digits ++ zeros (n - k)
  else if (0 <? n) && (n <=? 21) then
    take (Z.to_nat n) digits ++ js "." ++ drop (Z.to_nat n) digits
  else if (-6 <? n) && (n <=? 0) then js "0." ++ zeros (- n) ++ digits
  else
    let e := n - 1 in
    let ex := (if e <? 0 then js "-" else js "+") ++ digitsOfZ (Z.abs e) in
    match digits with
    | [] => js "0"
    | [d] => d :: js "e" ++ ex
    | d :: ds => d :: js "." ++ ds ++ js "e" ++ ex
    end.

Definition positiveToString (m : positive) (e : Z) : jsstring :=
  let x := binary_normalize prec emax (Zpos m) e false in
  let num := if 0 <=? e then Zpos m * 2 ^ e else Zpos m in
  let den := if 0 <=? e then 1 else 2 ^ (- e) in
  let n0 := findExp10 700 num den (-330) in
  let '(c, k) := shortest 20 x num den n0 1 in
  if c =? 10 ^ k then formatDecimal (js "1") (n0 + 1)
  else formatDecimal (digitsOfZ c) n0.

(** [Number::toString] (radix 10) *)
Definition numberToString (x : number) : jsstring :=
  match x with
  | S754_nan => js "NaN"
  | S754_zero _ => js "0"
  | S754_infinity s => if s then js "-Infinity" else js "Infinity"
  | S754_finite s m e => (if s then js "-" else []) ++ positiveToString m e
  end.

(** The longest run of decimal digits at the head of a string, and the
    rest. *)
Fixpoint spanDigits (s : jsstring) : jsstring * jsstring :=
  match s with
  | c :: t =>
      if isDigit c then let '(d, r) := spanDigits t in (c :: d, r)
      else ([], s)
  | [] => ([], [])
  end.

(** The value of a run of decimal digits. *)
Definition digitsValue (d : jsstring) : Z :=
  fold_left (fun acc c => 10 * acc + (Z.of_N c - 48)) d 0.

(** An ExponentPart at the head of a string: [e] or [E], an optional
    sign and at least one digit.  Returns the exponent and the rest;
    the exponent is 0 and nothing is consumed when there is none. *)
Definition exponentPart (s : jsstring) : Z * jsstring :=
  match s with
  | c :: t =>
      if (c =? 101)%N || (c =? 69)%N then
        let '(neg, t') :=
          match t with
          | sg :: u =>
              if (sg =? 45)%N then (true, u)
              else if (sg =? 43)%N then (false, u)
              else (false, t)
          | [] => (false, t)
          end in
        match spanDigits t' with
        | ([], _) => (0, s)
        | (d, r) => ((if neg then - digitsValue d else digitsValue d), r)
        end
      else (0, s)
  | [] => (0, s)
  end.

(** [parseFloat] on a string: leading white space is dropped, the
    longest prefix that is a StrDecimalLiteral is read, and NaN is the
    result when there is none. *)
Definition parseFloatString (s : jsstring) : number :=
  let t := trimStart s in
  let '(neg, u) :=
    match t with
    | c :: r =>
        if (c =? 45)%N then (true, r)
        else if (c =? 43)%N then (false, r)
        else (false, t)
    | [] => (false, t)
    end in
  if startsWith (js "Infinity") u then S754_infinity neg
  else
    let '(ip, r1) := spanDigits u in
    let '(fp, r2, dot) :=
      match r1 with
      | c :: r => if (c =? 46)%N
                  then let '(f, r') := spanDigits r in (f, r', true)
                  else ([], r1, false)
      | [] => ([], r1, false)
      end in
    match ip, fp with
    | [], [] => S754_nan
    | _, _ =>
        let '(ex, _) := exponentPart r2 in
        decimalToNumber neg (digitsValue (ip ++ fp))
                        (ex - Z.of_nat (length fp))
    end.

(** [Math.max] of two Numbers *)
Definition mathMax (x y : number) : number :=
  if isNaN x || isNaN y then S754_nan
  else if lt x y then y
  else if lt y x then x
  else match x, y with
       | S754_zero true, S754_zero s => S754_zero s
       | _, _ => x
       end.

(** [Math.round]: the integer nearest to [x], the larger one on a tie;
    [-0] for [-0.5 <= x < 0]. *)
Definition mathRound (x : number) : number :=
  match x with
  | S754_finite s m e =>
      if 0 <=? e then x
      else
        let v := if s then - Zpos m else Zpos m in
        let q := (2 * v + 2 ^ (- e)) / 2 ^ (- e + 1) in
        binary_normalize prec emax q 0 s
  | _ => x
  end.

Local Close Scope Z_scope.

(** *** Regular expressions

    The patterns of the engine use character classes, sequence,
    alternation, greedy repetition and the two anchors (no flag [i], [m],
    [s] or [u], no group that is referred to).  [matchAt] is the
    backtracking matcher of the language: it tries the alternatives in
    their order of priority and returns the end index of the first match
    found. *)

Inductive regex : Type :=
  | Eps : regex
  | Cls : (N -> bool) -> regex
  | Seq : regex -> regex -> regex
  | Alt : regex -> regex -> regex
  | Star : regex -> regex
  | Bol : regex
  | Eol : regex.

Definition Plus (r : regex) : regex := Seq r (Star r).
Definition Opt (r : regex) : regex := Alt r Eps.

(** [r{0,n}] *)
Fixpoint UpTo (n : nat) (r : regex) : regex :=
  match n with
  | O => Eps
  | S n' => Opt (Seq r (UpTo n' r))
  end.

Definition Chr (c : N) : regex := Cls (N.eqb c).

(** The iterations of a greedy star whose body is matched by [body]:
    one more iteration is tried first, the continuation [k] after it.
    An iteration that matches the empty string is rejected, as
    RepeatMatcher does, so there are at most as many iterations as code
    units left, which is the fuel. *)
Definition starLoop
    (body : nat -> jsstring -> (nat -> jsstring -> option nat) -> option nat)
    (k : nat -> jsstring -> option nat)
  : nat -> nat -> jsstring -> option nat :=
  fix loop (n : nat) (i : nat) (s : jsstring) {struct n} : option nat :=
    match n with
    | O => k i s
    | S n' =>
        match body i s (fun j t => if (i <? j)%nat then loop n' j t else None)
        with
        | Some e => Some e
        | None => k i s
        end
    end.

(** [matchAt r i s k]: match [r] at index [i], where [s] is the input
    from index [i] on, and continue with [k]. *)
Fixpoint matchAt (r : regex) (i : nat) (s : jsstring)
    (k : nat -> jsstring -> option nat) {struct r} : option nat :=
  match r with
  | Eps => k i s
  | Cls p =>
      match s with
      | c :: t => if p c then k (S i) t else None
      | [] => None
      end
  | Seq a b => matchAt a i s (fun j t => matchAt b j t k)
  | Alt a b =>
      match matchAt a i s k with
      | Some e => Some e
      | None => matchAt b i s k
      end
  | Star a => starLoop (matchAt a) k (length s) i s
  | Bol => if (i =? 0)%nat then k i s else None
  | Eol =>
      match s with
      | [] => k i s
      | _ :: _ => None
      end
  end.

(** A RegExp object: its pattern, the flags [g] and [y], and the
    mutable [lastIndex]. *)
Record RegExp : Type := mkRegExp {
  source : regex;
  global : bool;
  sticky : bool;
  lastIndex : nat
}.

(** The search loop of RegExpBuiltinExec from index [i]: [Some e] is a
    match ending at [e]. *)
Fixpoint searchFrom (fuel : nat) (r : regex) (stick : bool)
    (S0 : jsstring) (i : nat) : option nat :=
  if (length S0 <? i)%nat then None
  else
    match matchAt r i (drop i S0) (fun j _ => Some j) with
    | Some e => Some e
    | None =>
        if stick then None
        else
          match fuel with
          | O => None
          | S f => searchFrom f r stick S0 (S i)
          end
    end.

(** [RegExp.prototype.test]: the answer and the object afterwards.  The
    search starts at [lastIndex] for a global or sticky pattern, which
    moves to the end of the match (to 0 when there is none); any other
    pattern is searched from 0 and left as it is. *)
Definition test (R : RegExp) (S0 : jsstring) : bool * RegExp :=
  let gy := global R || sticky R in
  let start := if gy then lastIndex R else 0 in
  match searchFrom (length S0) (source R) (sticky R) S0 start with
  | Some e =>
      (true, if gy then mkRegExp (source R) (global R) (sticky R) e else R)
  | None =>
      (false, if gy then mkRegExp (source R) (global R) (sticky R) 0 else R)
  end.

(** A pattern written as a literal in a function body is a fresh object
    at every evaluation: only the answer of [test] remains. *)
Definition testLiteral (r : regex) (S0 : jsstring) : bool :=
  fst (test (mkRegExp r false false 0) S0).

(** *** Values

    The cells of a row are primitive values: what the CSV and spreadsheet
    readers produce (strings, numbers, booleans), or nothing. *)

Inductive prim : Type :=
  | PUndefined : prim
  | PNull : prim
  | PBool : bool -> prim
  | PNum : number -> prim
  | PStr : jsstring -> prim.

(** ToBoolean *)
Definition truthy (v : prim) : bool :=
  match v with
  | PUndefined | PNull => false
  | PBool b => b
  | PNum x => negb (isZero x || isNaN x)
  | PStr s => negb (strEq s [])
  end.

(** ToString *)
Definition toString (v : prim) : jsstring :=
  match v with
  | PUndefined => js "undefined"
  | PNull => js "null"
  | PBool b => if b then js "true" else js "false"
  | PNum x => numberToString x
  | PStr s => s
  end.

(** SameValueZero on primitive values: the equality of [Map] keys. *)
Definition primSame (a b : prim) : bool :=
  match a, b with
  | PUndefined, PUndefined => true
  | PNull, PNull => true
  | PBool x, PBool y => Bool.eqb x y
  | PNum x, PNum y => sameValueZero x y
  | PStr x, PStr y => strEq x y
  | _, _ => false
  end.

(** [parseFloat(value)]: the argument is first converted to a string. *)
Definition parseFloat (v : prim) : number := parseFloatString (toString v).

(** The values [JSON.parse] returns.  An object keeps its members in the
    order of the text. *)
Inductive json : Type :=
  | JNull : json
  | JBool : bool -> json
  | JNum : number -> json
  | JStr : jsstring -> json
  | JArr : list json -> json
  | JObj : list (jsstring * json) -> json.

Definition jsonTruthy (v : json) : bool :=
  match v with
  | JNull => false
  | JBool b => b
  | JNum x => negb (isZero x || isNaN x)
  | JStr s => negb (strEq s [])
  | JArr _ | JObj _ => true
  end.

(** [Array.prototype.join]: the elements are converted by [f] and
    separated by [sep]. *)
Definition joinWith {A : Type} (f : A -> jsstring) (sep : jsstring)
  : list A -> jsstring :=
  fix go (l : list A) : jsstring :=
    match l with
    | [] => []
    | x :: t =>
        match t with
        | [] => f x
        | _ :: _ => f x ++ sep ++ go t
        end
    end.

(** [Array.prototype.join] when the conversion of an element can throw:
    the elements are converted in their order, and [None] stands for the
    exception of the first conversion that throws. *)
Definition joinMay {A : Type} (f : A -> option jsstring) (sep : jsstring)
  : list A -> option jsstring :=
  fix go (l : list A) : option jsstring :=
    match l with
    | [] => Some []
    | x :: t =>
        match f x with
        | None => None
        | Some s =>
            match t with
            | [] => Some s
            | _ :: _ =>
                match go t with
                | Some rest => Some (s ++ sep ++ rest)
                | None => None
                end
            end
        end
    end.

(** The names that every plain object inherits from [Object.prototype]. *)
Definition protoMembers : list jsstring :=
  [ js "constructor"; js "__defineGetter__"; js "__defineSetter__";
    js "hasOwnProperty"; js "__lookupGetter__"; js "__lookupSetter__";
    js "isPrototypeOf"; js "propertyIsEnumerable"; js "toString";
    js "valueOf"; js "__proto__"; js "toLocaleString" ].

(** An own key of a parsed object *)
Definition hasOwn (members : list (jsstring * json)) (key : jsstring) : bool :=
  existsb (fun m => strEq (fst m) key) members.

(** ToString on the values of [JSON.parse]; [None] stands for a
    TypeError.  An array is the join of its elements with a comma, where
    [null] gives the empty string.  An object goes through
    OrdinaryToPrimitive, which calls its [toString] and then its
    [valueOf].  Without an own key [toString] the object inherits the
    method of [Object.prototype], which gives [[object Object]].  An own
    key [toString] holds a parsed value, which is no function; [valueOf]
    is then an own key too, no function either, or the inherited method,
    which returns the object itself: no primitive value is found and the
    conversion throws. *)
Fixpoint jsonToString (v : json) : option jsstring :=
  match v with
  | JNull => Some (js "null")
  | JBool b => Some (if b then js "true" else js "false")
  | JNum x => Some (numberToString x)
  | JStr s => Some s
  | JArr l =>
      joinMay (fun x => match x with
                        | JNull => Some []
                        | _ => jsonToString x
                        end) (js ",") l
  | JObj members =>
      if hasOwn members (js "toString") then None
      else Some (js "[object Object]")
  end.

(** The conversion [join] applies to an element. *)
Definition elementToString (x : json) : option jsstring :=
  match x with
  | JNull => Some []
  | _ => jsonToString x
  end.

(** SameValueZero between a cell and a parsed value.  A parsed array or
    object is a fresh object, equal to nothing else. *)
Definition sameAsJson (a : prim) (b : json) : bool :=
  match a, b with
  | PNull, JNull => true
  | PBool x, JBool y => Bool.eqb x y
  | PNum x, JNum y => sameValueZero x y
  | PStr x, JStr y => strEq x y
  | _, _ => false
  end.

(** [Array.prototype.includes] of a list of cells, for a parsed value *)
Definition arrayIncludes (l : list prim) (x : json) : bool :=
  existsb (fun a => sameAsJson a x) l.

(** *** JSON.parse

    The grammar of JSON texts: white space is tab, line feed, carriage
    return and space; a number has no leading zero, no leading [+] and a
    digit on both sides of its point; a string is between double quotes,
    with the escapes of the grammar and no raw control character.  The
    parsers return the value read and the rest of the input; [None] is a
    SyntaxError. *)

Fixpoint skipWs (s : jsstring) : jsstring :=
  match s with
  | c :: t =>
      if ((c =? 9) || (c =? 10) || (c =? 13) || (c =? 32))%N
      then skipWs t else s
  | [] => []
  end.

Definition hexValue (c : N) : option N :=
  (if (48 <=? c) && (c <=? 57) then Some (c - 48)
   else if (97 <=? c) && (c <=? 102) then Some (c - 87)
   else if (65 <=? c) && (c <=? 70) then Some (c - 55)
   else None)%N.

Definition hex4 (a b c d : N) : option N :=
  match hexValue a, hexValue b, hexValue c, hexValue d with
  | Some x, Some y, Some z, Some w => Some (((x * 16 + y) * 16 + z) * 16 + w)%N
  | _, _, _, _ => None
  end.

Definition simpleEscape (c : N) : option N :=
  (if (c =? 34) || (c =? 92) || (c =? 47) then Some c
   else if c =? 98 then Some 8
   else if c =? 102 then Some 12
   else if c =? 110 then Some 10
   else if c =? 114 then Some 13
   else if c =? 116 then Some 9
   else None)%N.

(** The characters of a string literal after its opening quote. *)
Fixpoint parseChars (s acc : jsstring) : option (jsstring * jsstring) :=
  match s with
  | [] => None
  | c :: t =>
      if (c =? 34)%N then Some (rev acc, t)
      else if (c <? 32)%N then None
      else if (c =? 92)%N then
        match t with
        | [] => None
        | e :: t' =>
            if (e =? 117)%N then
              match t' with
              | h1 :: h2 :: h3 :: h4 :: t'' =>
                  match hex4 h1 h2 h3 h4 with
                  | Some u => parseChars t'' (u :: acc)
                  | None => None
                  end
              | _ => None
              end
            else
              match simpleEscape e with
              | Some u => parseChars t' (u :: acc)
              | None => None
              end
        end
      else parseChars t (c :: acc)
  end.

(** A number at the head of the input. *)
Definition parseNumber (s : jsstring) : option (number * jsstring) :=
  let '(neg, u) :=
    match s with
    | c :: r => if (c =? 45)%N then (true, r) else (false, s)
    | [] => (false, s)
    end in
  let intPart :=
    match u with
    | c :: r =>
        if (c =? 48)%N then Some ([c], r)
        else if isDigit c then Some (spanDigits u)
        else None
    | [] => None
    end in
  match intPart with
  | None => None
  | Some (ip, r1) =>
      let fracPart :=
        match r1 with
        | c :: r =>
            if (c =? 46)%N then
              match spanDigits r with
              | ([], _) => None
              | (f, r') => Some (f, r')
              end
            else Some ([], r1)
        | [] => Some ([], r1)
        end in
      match fracPart with
      | None => None
      | Some (fp, r2) =>
          let expPart :=
            match r2 with
            | c :: r =>
                if (c =? 101)%N || (c =? 69)%N then
                  match exponentPart r2 with
                  | (ex, r') =>
                      if (length r' <? length r2)%nat then Some (ex, r')
                      else None
                  end
                else Some (0%Z, r2)
            | [] => Some (0%Z, r2)
            end in
          match expPart with
          | None => None
          | Some (ex, r3) =>
              Some (decimalToNumber neg (digitsValue (ip ++ fp))
                      (ex - Z.of_nat (length fp))%Z, r3)
          end
      end
  end.

(** A value, the elements of an array after its opening bracket, and the
    members of an object after its opening brace.  Each call takes one
    unit of fuel. *)
Fixpoint parseValue (fuel : nat) (s : jsstring) {struct fuel}
  : option (json * jsstring) :=
  match fuel with
  | O => None
  | S f =>
      match skipWs s with
      | [] => None
      | c :: t =>
          if (c =? 91)%N then
            match skipWs t with
            | d :: r => if (d =? 93)%N then Some (JArr [], r)
                        else parseElements f t []
            | [] => None
            end
          else if (c =? 123)%N then
            match skipWs t with
            | d :: r => if (d =? 125)%N then Some (JObj [], r)
                        else parseMembers f t []
            | [] => None
            end
          else if (c =? 34)%N then
            match parseChars t [] with
            | Some (str, r) => Some (JStr str, r)
            | None => None
            end
          else if (c =? 45)%N || isDigit c then
            match parseNumber (c :: t) with
            | Some (x, r) => Some (JNum x, r)
            | None => None
            end
          else if startsWith (js "null") (c :: t) then
            Some (JNull, drop 4 (c :: t))
          else if startsWith (js "true") (c :: t) then
            Some (JBool true, drop 4 (c :: t))
          else if startsWith (js "false") (c :: t) then
            Some (JBool false, drop 5 (c :: t))
          else None
      end
  end
with parseElements (fuel : nat) (s : jsstring) (acc : list json)
    {struct fuel} : option (json * jsstring) :=
  match fuel with
  | O => None
  | S f =>
      match parseValue f s with
      | None => None
      | Some (v, r) =>
          match skipWs r with
          | d :: r' =>
              if (d =? 44)%N then parseElements f r' (v :: acc)
              else if (d =? 93)%N then Some (JArr (rev (v :: acc)), r')
              else None
          | [] => None
          end
      end
  end
with parseMembers (fuel : nat) (s : jsstring) (acc : list (jsstring * json))
    {struct fuel} : option (json * jsstring) :=
  match fuel with
  | O => None
  | S f =>
      match skipWs s with
      | q :: t =>
          if (q =? 34)%N then
            match parseChars t [] with
            | None => None
            | Some (key, r) =>
                match skipWs r with
                | col :: r' =>
                    if (col =? 58)%N then
                      match parseValue f r' with
                      | None => None
                      | Some (v, r'') =>
                          match skipWs r'' with
                          | d :: r3 =>
                              if (d =? 44)%N
                              then parseMembers f r3 ((key, v) :: acc)
                              else if (d =? 125)%N
                              then Some (JObj (rev ((key, v) :: acc)), r3)
                              else None
                          | [] => None
                          end
                      end
                    else None
                | [] => None
                end
            end
          else None
      | [] => None
      end
  end.

(** [JSON.parse(text)] on a string: one value, with white space around
    it.  Two units of fuel for each code unit are enough for every
    text. *)
Definition parseJSONString (s : jsstring) : option json :=
  match parseValue (2 * length s + 2) s with
  | Some (v, r) =>
      match skipWs r with
      | [] => Some v
      | _ :: _ => None
      end
  | None => None
  end.

(** [JSON.parse(value)]: the argument is first converted to a string. *)
Definition JSONparse (v : prim) : option json := parseJSONString (toString v).

(** The continuation of a match from [(i, s)] is called at [(j, t)]
    when the code units between the two have been consumed. *)
Definition advances (i : nat) (s : jsstring) (j : nat) (t : jsstring) : Prop :=
  exists pre : jsstring, s = pre ++ t /\ j = i + length pre.

(** A parser that returns leaves less input than it was given. *)
Definition shorter (res : option (json * jsstring)) (s : jsstring) : Prop :=
  match res with
  | Some (_, r) => length r < length s
  | None => True
  end.

End JS.

(** ** The validation engine ([src/utils/validationEngine.ts]) *)

Module Engine.
Import JS.

(** The [type] of a rule *)
Inductive RuleKind : Type :=
  | Required | Email | Phone | Reference | Duplicate | Range | Regex | Custom.

Inductive Severity : Type := Error | Warning.

(** [config?: any].  The built-in rules use [{ min, max }] and
    [{ pattern }]; a key that is absent reads as [undefined], here
    [None]. *)
Record Config : Type := mkConfig {
  min : option number;
  max : option number;
  pattern : option RegExp
}.

Module Rule.
Record t : Type := mk {
  id : jsstring;
  name : jsstring;
  type : RuleKind;
  field : jsstring;
  message : jsstring;
  severity : Severity;
  config : option Config
}.
End Rule.

Abbreviation ValidationRule := Rule.t.

Record ValidationError : Type := mkError {
  row : nat;
  column : jsstring;
  message : jsstring;
  severity : Severity;
  ruleId : jsstring
}.

(** A row object, as the readers build it: a plain object with one own
    key per column.  [getField r key] is [r[key]] for every key that is
    no member of [Object.prototype]: the value of the own key, and
    [undefined] without one.  (For a key of [protoMembers] without a
    column, the code reads the inherited member.  The fields of the
    built-in rules are outside [protoMembers]; [Spec.plainFields] says
    it of a registry.) *)
Abbreviation Row := (gmap (list N) prim).

Definition getField (r : Row) (key : jsstring) : prim :=
  default PUndefined (r !! key).

(** An entry of [allFiles] (the [FileData] of [src/pages/Index.tsx]) *)
Record FileData : Type := mkFileData {
  name : jsstring;
  data : list Row;
  headers : list jsstring;
  validationErrors : list ValidationError
}.

(** How a call ends: with a value, or with an exception thrown. *)
Inductive exn : Type := TypeError.

Inductive outcome (A : Type) : Type :=
  | Ok : A -> outcome A
  | Throw : exn -> outcome A.

Arguments Ok {A} _.
Arguments Throw {A} _.

(** [a, b, c, ...] in sequence *)
Definition seqs (l : list regex) : regex := fold_right Seq Eps l.

(** [[^\s@]] *)
Definition notSpaceAt (c : N) : bool := negb (isWhiteSpace c || (c =? 64)%N).

(** [/^[^\s@]+@[^\s@]+\.[^\s@]+$/] *)
Definition emailPattern : regex :=
  seqs [Bol; Plus (Cls notSpaceAt); Chr 64; Plus (Cls notSpaceAt); Chr 46;
        Plus (Cls notSpaceAt); Eol].

(** [/^[\+]?[1-9][\d]{0,15}$/] *)
Definition phonePattern : regex :=
  seqs [Bol; Opt (Chr 43); Cls (fun c => (49 <=? c) && (c <=? 57))%N;
        UpTo 15 (Cls isDigit); Eol].

(** [[-\s\(\)]] *)
Definition phoneSeparator (c : N) : bool :=
  ((c =? 45) || isWhiteSpace c || (c =? 40) || (c =? 41))%N.

(** [s.replace(/[...]/g, '')] for a class of single code units: every
    code unit of the class is removed. *)
Definition removeAll (p : N -> bool) (s : jsstring) : jsstring :=
  List.filter (fun c => negb (p c)) s.

(** [/^\[.*\]$/] *)
Definition skillPattern : regex :=
  seqs [Bol; Chr 91; Star (Cls (fun c => negb (isLineTerminator c)));
        Chr 93; Eol].

(** The initial value of the field [rules]: the built-in registry. *)
Definition initialRules : list ValidationRule :=
  [ Rule.mk (js "req-client-name") (js "Required Client Name") Required
      (js "Name") (js "Client name is required") Error None;
    Rule.mk (js "email-format") (js "Email Format") Email
      (js "Email") (js "Invalid email format") Error None;
    Rule.mk (js "phone-format") (js "Phone Format") Phone
      (js "PhoneNumber") (js "Invalid phone number format") Warning None;
    Rule.mk (js "duplicate-ids") (js "Duplicate IDs") Duplicate
      (js "ClientID") (js "Duplicate ID found") Error None;
    Rule.mk (js "worker-load-range") (js "Worker Load Range") Range
      (js "CurrentLoad") (js "Current load exceeds maximum capacity") Warning
      (Some (mkConfig (Some (ofZ 0)) (Some (ofZ 100)) None));
    Rule.mk (js "task-reference") (js "Task References") Reference
      (js "TaskIDs") (js "Referenced task ID not found") Error None;
    Rule.mk (js "hourly-rate-range") (js "Hourly Rate Range") Range
      (js "HourlyRate") (js "Hourly rate seems unusually high/low") Warning
      (Some (mkConfig (Some (ofZ 15)) (Some (ofZ 200)) None));
    Rule.mk (js "skill-format") (js "Skills Format") Regex
      (js "Skills") (js "Skills must be in JSON array format") Error
      (Some (mkConfig None None
               (Some (mkRegExp skillPattern false false 0)))) ].

(** [getRules] and [addCustomRule], on the field [rules] *)
Definition getRules (rules : list ValidationRule) : list ValidationRule :=
  rules.

Definition addCustomRule (rule : ValidationRule)
    (rules : list ValidationRule) : list ValidationRule :=
  rules ++ [rule].

(** [try { return JSON.parse(value) || [] } catch { return [] }] *)
Definition parseJsonArray (value : prim) : json :=
  match JSONparse value with
  | Some v => if jsonTruthy v then v else JArr []
  | None => JArr []
  end.

(** [allFiles] is given by its values, in the order of [Object.values]. *)
Definition getAllTaskIds (allFiles : list FileData) : list prim :=
  match List.find (fun file => includes (toLowerCase (name file)) (js "task"))
          allFiles with
  | Some taskFile =>
      List.filter truthy
        (map (fun r : Row => getField r (js "TaskID")) (data taskFile))
  | None => []
  end.

(** The error objects of [validateField] all take [row], [column],
    [severity] and [ruleId] from the call. *)
Definition errorOf (rule : ValidationRule) (rowIndex : nat)
    (msg : jsstring) : ValidationError :=
  {| row := rowIndex;
     column := Rule.field rule;
     message := msg;
     severity := Rule.severity rule;
     ruleId := Rule.id rule |}.

(** The template literal [${x}] of a bound of a range rule *)
Definition boundToString (b : option number) : jsstring :=
  match b with
  | Some x => numberToString x
  | None => js "undefined"
  end.

(** [numValue < bound], which is false when the bound is [undefined] *)
Definition ltBound (x : number) (b : option number) : bool :=
  match b with
  | Some y => lt x y
  | None => false
  end.

Definition gtBound (x : number) (b : option number) : bool :=
  match b with
  | Some y => lt y x
  | None => false
  end.

(** The rule with the pattern object of its config replaced: the effect
    of [test] on [rule.config.pattern].  Every rule of a registry holds
    a pattern object of its own: two rules that hold one and the same
    object with the flag [g] or [y], and so share its [lastIndex], are
    outside this embedding ([Spec.statelessRule] is the condition under
    which no pattern object is ever written). *)
Definition withPattern (rule : ValidationRule) (c : Config) (R : RegExp)
  : ValidationRule :=
  Rule.mk (Rule.id rule) (Rule.name rule) (Rule.type rule) (Rule.field rule)
    (Rule.message rule) (Rule.severity rule)
    (Some (mkConfig (min c) (max c) (Some R))).

(** [validateField]: the error found, if any, and the rule object after
    the call.  The arguments are those of the source; [allFiles] is
    [None] when the argument is not given. *)
Definition validateField (value : prim) (rule : ValidationRule)
    (rowIndex : nat) (r : Row) (allFiles : option (list FileData))
  : outcome (option ValidationError) * ValidationRule :=
  match Rule.type rule with
  | Required =>
      if negb (truthy value) || strEq (trim (toString value)) []
      then (Ok (Some (errorOf rule rowIndex (Rule.message rule))), rule)
      else (Ok None, rule)
  | Email =>
      if truthy value && negb (testLiteral emailPattern (toString value))
      then (Ok (Some (errorOf rule rowIndex (Rule.message rule))), rule)
      else (Ok None, rule)
  | Phone =>
      if truthy value then
        match value with
        | PStr s =>
            if negb (testLiteral phonePattern (removeAll phoneSeparator s))
            then (Ok (Some (errorOf rule rowIndex (Rule.message rule))), rule)
            else (Ok None, rule)
        | _ => (Throw TypeError, rule)
        end
      else (Ok None, rule)
  | Range =>
      let numValue := parseFloat value in
      if negb (isNaN numValue) then
        match Rule.config rule with
        | None => (Throw TypeError, rule)
        | Some c =>
            if ltBound numValue (min c) || gtBound numValue (max c)
            then (Ok (Some (errorOf rule rowIndex
                    (Rule.message rule ++ js " (" ++ boundToString (min c)
                       ++ js "-" ++ boundToString (max c) ++ js ")"))), rule)
            else (Ok None, rule)
        end
      else (Ok None, rule)
  | Regex =>
      if truthy value then
        match Rule.config rule with
        | None => (Throw TypeError, rule)
        | Some c =>
            match pattern c with
            | None => (Throw TypeError, rule)
            | Some R =>
                let '(matched, R') := test R (toString value) in
                (Ok (if negb matched
                     then Some (errorOf rule rowIndex (Rule.message rule))
                     else None),
                 withPattern rule c R')
            end
        end
      else (Ok None, rule)
  | Reference =>
      match allFiles with
      | Some files =>
          if truthy value then
            let taskIds := parseJsonArray value in
            let allTaskIds := getAllTaskIds files in
            match taskIds with
            | JArr ids =>
                let invalidRefs :=
                  List.filter (fun id => negb (arrayIncludes allTaskIds id))
                    ids in
                if (0 <? length invalidRefs)%nat
                then
                  match joinMay elementToString (js ", ") invalidRefs with
                  | Some refs =>
                      (Ok (Some (errorOf rule rowIndex
                             (Rule.message rule ++ js ": " ++ refs))), rule)
                  | None => (Throw TypeError, rule)
                  end
                else (Ok None, rule)
            | _ => (Throw TypeError, rule)
            end
          else (Ok None, rule)
      | None => (Ok None, rule)
      end
  | Duplicate | Custom => (Ok None, rule)
  end.

(** [duplicateTracker]: a [Map], which keeps its keys in the order of
    their insertion and compares them by SameValueZero. *)
Abbreviation Tracker := (list (prim * list nat)).

(** [if (!has(key)) set(key, []); get(key).push(rowIndex)] *)
Fixpoint track (tr : Tracker) (key : prim) (rowIndex : nat) : Tracker :=
  match tr with
  | [] => [(key, [rowIndex])]
  | (k, rows) :: tr' =>
      if primSame k key then (k, rows ++ [rowIndex]) :: tr'
      else (k, rows) :: track tr' key rowIndex
  end.

(** The body of [this.rules.forEach(rule => ...)] for one rule. *)
Definition ruleStep (r : Row) (rowIndex : nat)
    (allFiles : option (list FileData))
    (st : list ValidationError * Tracker) (rule : ValidationRule)
  : outcome (list ValidationError * Tracker) * ValidationRule :=
  let '(errors, duplicateTracker) := st in
  let fieldValue := getField r (Rule.field rule) in
  match validateField fieldValue rule rowIndex r allFiles with
  | (Throw e, rule') => (Throw e, rule')
  | (Ok error, rule') =>
      let errors' :=
        match error with
        | Some e => errors ++ [e]
        | None => errors
        end in
      let tracker' :=
        match Rule.type rule with
        | Duplicate =>
            if truthy fieldValue then track duplicateTracker fieldValue rowIndex
            else duplicateTracker
        | _ => duplicateTracker
        end in
      (Ok (errors', tracker'), rule')
  end.

(** [this.rules.forEach] for one row: the rules in the order of the
    registry, each rule object updated in place, until a call throws. *)
Fixpoint forEachRule (r : Row) (rowIndex : nat)
    (allFiles : option (list FileData))
    (rules : list ValidationRule) (st : list ValidationError * Tracker)
  : outcome (list ValidationError * Tracker) * list ValidationRule :=
  match rules with
  | [] => (Ok st, [])
  | rule :: rest =>
      match ruleStep r rowIndex allFiles st rule with
      | (Throw e, rule') => (Throw e, rule' :: rest)
      | (Ok st', rule') =>
          let '(o, rest') := forEachRule r rowIndex allFiles rest st' in
          (o, rule' :: rest')
      end
  end.

(** [data.forEach((row, rowIndex) => ...)], from index [rowIndex] on *)
Fixpoint forEachRow (rows : list Row) (rowIndex : nat)
    (allFiles : option (list FileData))
    (rules : list ValidationRule) (st : list ValidationError * Tracker)
  : outcome (list ValidationError * Tracker) * list ValidationRule :=
  match rows with
  | [] => (Ok st, rules)
  | r :: rest =>
      match forEachRule r rowIndex allFiles rules st with
      | (Throw e, rules') => (Throw e, rules')
      | (Ok st', rules') => forEachRow rest (S rowIndex) allFiles rules' st'
      end
  end.

(** The errors pushed for one entry of the tracker *)
Definition duplicateErrors (entry : prim * list nat) : list ValidationError :=
  let '(value, rows) := entry in
  if (1 <? length rows)%nat then
    map (fun rowIndex =>
           {| row := rowIndex;
              column := js "ClientID";
              message := js "Duplicate ID " ++ [34%N] ++ toString value
                           ++ [34%N] ++ js " found in rows "
                           ++ joinWith indexToString (js ", ") (map S rows);
              severity := Error;
              ruleId := js "duplicate-ids" |}) rows
  else [].

(** [validateData]: the list returned, or the exception, and the
    registry after the call. *)
Definition validateData (rules : list ValidationRule) (data : list Row)
    (headers : list jsstring) (fileName : jsstring)
    (allFiles : option (list FileData))
  : outcome (list ValidationError) * list ValidationRule :=
  match forEachRow data 0 allFiles rules ([], []) with
  | (Throw e, rules') => (Throw e, rules')
  | (Ok (errors, duplicateTracker), rules') =>
      (Ok (errors ++ flat_map duplicateErrors duplicateTracker), rules')
  end.

End Engine.

(** ** The score of the dashboard ([src/components/ValidationDashboard.tsx])

    [files] is given by its values, in the order of [Object.values]. *)

Module Dashboard.
Import JS Engine.

(** [flatMap(file => file.validationErrors.map(error =>
    ({ ...error, fileName: file.name })))] *)
Definition allErrors (files : list FileData)
  : list (ValidationError * jsstring) :=
  flat_map (fun file => map (fun error => (error, name file))
                          (validationErrors file)) files.

Definition isError (e : ValidationError * jsstring) : bool :=
  match severity (fst e) with
  | Error => true
  | Warning => false
  end.

Definition isWarning (e : ValidationError * jsstring) : bool :=
  match severity (fst e) with
  | Error => false
  | Warning => true
  end.

Definition errorCount (files : list FileData) : number :=
  ofNat (length (List.filter isError (allErrors files))).

Definition warningCount (files : list FileData) : number :=
  ofNat (length (List.filter isWarning (allErrors files))).

(** [reduce((sum, file) => sum + file.data.length, 0)] *)
Definition totalRows (files : list FileData) : number :=
  fold_left (fun sum file => add sum (ofNat (length (data file))))
    files (ofZ 0).

(** [totalRows > 0
      ? Math.max(0, 100 - ((errorCount * 10 + warningCount * 2)
                           / totalRows * 100))
      : 100] *)
Definition validationScore (files : list FileData) : number :=
  if lt (ofZ 0) (totalRows files)
  then mathMax (ofZ 0)
         (sub (ofZ 100)
            (mul (div (add (mul (errorCount files) (ofZ 10))
                           (mul (warningCount files) (ofZ 2)))
                      (totalRows files))
                 (ofZ 100)))
  else ofZ 100.

(** The [summary] of the report that [exportDetailedReport] builds. *)
Module Summary.
Record t : Type := mk {
  totalFiles : nat;
  totalRows : number;
  totalErrors : number;
  totalWarnings : number;
  validationScore : number;
  timestamp : jsstring
}.
End Summary.

(** [exportDetailedReport], up to the summary of the report; [now] is
    [new Date().toISOString()]. *)
Definition exportDetailedReport (files : list FileData) (now : jsstring)
  : Summary.t :=
  {| Summary.totalFiles := length files;
     Summary.totalRows := totalRows files;
     Summary.totalErrors := errorCount files;
     Summary.totalWarnings := warningCount files;
     Summary.validationScore := mathRound (validationScore files);
     Summary.timestamp := now |}.

End Dashboard.

(** ** What the specification says, as definitions

    The definitions of this module follow the words of the
    specification; the theorems compare them with the engine. *)

Module Spec.
Import JS Engine.

(** A rule whose [test] leaves no trace: every rule but a [regex] rule
    with a global or sticky pattern. *)
Definition statelessRule (rule : ValidationRule) : bool :=
  match Rule.type rule with
  | Regex =>
      match Rule.config rule with
      | Some c =>
          match pattern c with
          | Some R => negb (global R || sticky R)
          | None => true
          end
      | None => true
      end
  | _ => true
  end.

Definition stateless (rules : list ValidationRule) : bool :=
  forallb statelessRule rules.

(** The calls of [validateField] for one row: one per rule, in the order
    of the registry. *)
Definition rowCalls (r : Row) (rowIndex : nat)
    (allFiles : option (list FileData)) (rules : list ValidationRule)
  : list (outcome (option ValidationError) * ValidationRule) :=
  map (fun rule =>
         validateField (getField r (Rule.field rule)) rule rowIndex r allFiles)
      rules.

(** The results of all calls: outer loop over the rows, inner loop over
    the rules.  The rule objects of a row are those the row before has
    left. *)
Fixpoint calls (rows : list Row) (rowIndex : nat)
    (allFiles : option (list FileData)) (rules : list ValidationRule)
  : list (outcome (option ValidationError)) :=
  match rows with
  | [] => []
  | r :: rest =>
      let cs := rowCalls r rowIndex allFiles rules in
      map fst cs ++ calls rest (S rowIndex) allFiles (map snd cs)
  end.

(** The errors of a sequence of results, in their order, up to the
    first exception. *)
Fixpoint collect (l : list (outcome (option ValidationError)))
  : outcome (list ValidationError) :=
  match l with
  | [] => Ok []
  | Throw e :: _ => Throw e
  | Ok o :: t =>
      match collect t with
      | Throw e => Throw e
      | Ok errs =>
          Ok (match o with
              | Some e => e :: errs
              | None => errs
              end)
      end
  end.

(** The values tracked for one row: for every rule of type
    [duplicate], the value of its field when it is not empty. *)
Definition trackedInRow (rules : list ValidationRule) (r : Row)
    (rowIndex : nat) : list (prim * nat) :=
  flat_map (fun rule =>
              match Rule.type rule with
              | Duplicate =>
                  if truthy (getField r (Rule.field rule))
                  then [(getField r (Rule.field rule), rowIndex)]
                  else []
              | _ => []
              end) rules.

Fixpoint tracked (rules : list ValidationRule) (rows : list Row)
    (rowIndex : nat) : list (prim * nat) :=
  match rows with
  | [] => []
  | r :: rest =>
      trackedInRow rules r rowIndex ++ tracked rules rest (S rowIndex)
  end.

(** The distinct values of a list, each at its first occurrence. *)
Fixpoint distinct (l : list prim) : list prim :=
  match l with
  | [] => []
  | k :: t => k :: List.filter (fun k' => negb (primSame k k')) (distinct t)
  end.

(** The row indices recorded with a value, in the order recorded. *)
Definition rowsOf (seq : list (prim * nat)) (v : prim) : list nat :=
  map snd (List.filter (fun p => primSame v (fst p)) seq).

(** The groups of a sequence of tracked values: one per distinct value,
    in the order of first occurrence. *)
Definition groupsOf (seq : list (prim * nat)) : list (prim * list nat) :=
  map (fun v => (v, rowsOf seq v)) (distinct (map fst seq)).

(** The non-empty values of the column [ClientID], with their row
    indices. *)
Fixpoint clientIds (rows : list Row) (rowIndex : nat) : list (prim * nat) :=
  match rows with
  | [] => []
  | r :: rest =>
      (if truthy (getField r (js "ClientID"))
       then [(getField r (js "ClientID"), rowIndex)] else [])
      ++ clientIds rest (S rowIndex)
  end.

(** The rows of a table in which the [ClientID] is a given value,
    ascending. *)
Definition affectedRows (data : list Row) (v : prim) : list nat :=
  rowsOf (clientIds data 0) v.

(** The distinct non-empty values of the column [ClientID]. *)
Definition distinctValues (data : list Row) : list prim :=
  distinct (map fst (clientIds data 0)).

(** The error of the duplicate rule for one row of a group: the message
    lists the row numbers of the whole group, counted from 1. *)
Definition duplicateError (v : prim) (group : list nat) (rowIndex : nat)
  : ValidationError :=
  {| row := rowIndex;
     column := js "ClientID";
     message := js "Duplicate ID " ++ [34%N] ++ toString v ++ [34%N]
                  ++ js " found in rows "
                  ++ joinWith indexToString (js ", ") (map S group);
     severity := Error;
     ruleId := js "duplicate-ids" |}.

(** One error per affected row, for a value seen in two rows or more. *)
Definition duplicateGroup (v : prim) (group : list nat)
  : list ValidationError :=
  if (2 <=? length group)%nat then map (duplicateError v group) group else [].

(** "absent, null, or an empty string after trimming" *)
Definition requiredMissing (v : prim) : bool :=
  match v with
  | PUndefined | PNull => true
  | PStr s => strEq (trim s) []
  | _ => false
  end.

(** [max(0, 100 - (errorCount*10 + warningCount*2) / totalRows * 100)] *)
Definition scoreFormula (errorCount warningCount totalRows : number)
  : number :=
  mathMax (ofZ 0)
    (sub (ofZ 100)
       (mul (div (add (mul errorCount (ofZ 10)) (mul warningCount (ofZ 2)))
                 totalRows)
            (ofZ 100))).

(** "absent, null, false, the number 0 or NaN, or a string that is
    empty after trimming": the values a required rule rejects. *)
Definition requiredFails (v : prim) : bool :=
  match v with
  | PUndefined | PNull => true
  | PBool b => negb b
  | PNum x => isZero x || isNaN x
  | PStr s => strEq (trim s) []
  end.

(** "the TaskID column (falsy values skipped) of the first table whose
    name contains the case-insensitive substring task; empty if none
    matches" *)
Fixpoint validReferences (files : list FileData) : list prim :=
  match files with
  | [] => []
  | file :: rest =>
      if includes (toLowerCase (name file)) (js "task")
      then List.filter truthy
             (map (fun r : Row => getField r (js "TaskID")) (data file))
      else validReferences rest
  end.

(** "contains the case-insensitive substring task": four code units in
    a row that are [t], [a], [s], [k] in either case (the Kelvin sign
    U+212A is an upper case of [k]). *)
Definition mentionsTask (fileName : jsstring) : Prop :=
  exists (before after : jsstring) (t a s k : N),
    fileName = before ++ [t; a; s; k] ++ after
    /\ (t = 84 \/ t = 116)%N /\ (a = 65 \/ a = 97)%N
    /\ (s = 83 \/ s = 115)%N /\ (k = 75 \/ k = 107 \/ k = 8490)%N.

(** A parsed value that has no string form: an object with an own key
    [toString], or an array that holds such a value. *)
Inductive Unprintable : json -> Prop :=
  | Unprintable_object : forall members v,
      In (js "toString", v) members -> Unprintable (JObj members)
  | Unprintable_array : forall l x,
      In x l -> Unprintable x -> Unprintable (JArr l).

(** A rule whose field is no member of [Object.prototype], and a
    registry of such rules: what a row gives for the field is its own
    column, or [undefined]. *)
Definition plainField (rule : ValidationRule) : bool :=
  negb (existsb (strEq (Rule.field rule)) protoMembers).

Definition plainFields (rules : list ValidationRule) : bool :=
  forallb plainField rules.

(** A cell that its rule can take without a fault: a phone rule meets
    nothing or a string; a reference rule, when the dataset is given,
    meets nothing or a text that [parseJsonArray] turns into an array
    whose ids outside the reference set can all be joined; a range rule
    that reads a number has a config; a regex rule that meets a value
    has a pattern. *)
Definition ruleSafe (files : option (list FileData)) (r : Row)
    (rule : ValidationRule) : bool :=
  let value := getField r (Rule.field rule) in
  match Rule.type rule with
  | Phone =>
      negb (truthy value)
      || match value with
         | PStr _ => true
         | _ => false
         end
  | Reference =>
      match files with
      | None => true
      | Some fs =>
          negb (truthy value)
          || match parseJsonArray value with
             | JArr ids =>
                 match joinMay elementToString (js ", ")
                         (List.filter
                            (fun id => negb (arrayIncludes (getAllTaskIds fs) id))
                            ids) with
                 | Some _ => true
                 | None => false
                 end
             | _ => false
             end
      end
  | Range =>
      isNaN (parseFloat value)
      || match Rule.config rule with
         | Some _ => true
         | None => false
         end
  | Regex =>
      negb (truthy value)
      || match Rule.config rule with
         | Some c =>
             match pattern c with
             | Some _ => true
             | None => false
             end
         | None => false
         end
  | _ => true
  end.

Definition safeTable (files : option (list FileData))
    (rules : list ValidationRule) (data : list Row) : bool :=
  forallb (fun r => forallb (ruleSafe files r) rules) data.

(** The key of a value in a [Map]: the two zeros are one key. *)
Definition canonKey (v : prim) : prim :=
  match v with
  | PNum (S754_zero _) => PNum (S754_zero false)
  | _ => v
  end.

(** The tracker after a sequence of [track] calls. *)
Definition trackAll (tr : Tracker) (seq : list (prim * nat)) : Tracker :=
  fold_left (fun t p => track t (fst p) (snd p)) seq tr.

Fixpoint pairwiseDistinct (l : list prim) : bool :=
  match l with
  | [] => true
  | a :: t => forallb (fun k => negb (primSame a k)) t && pairwiseDistinct t
  end.

(** What [validateField] never changes in a rule. *)
Definition ruleMeta (rule : ValidationRule) : jsstring * RuleKind :=
  (Rule.id rule, Rule.type rule).

End Spec.

(** ** Tables, rules and datasets used as examples *)

Module Examples.
Import JS Engine.
Local Open Scope string_scope.

Definition rowOf (cells : list (string * prim)) : Row :=
  list_to_map (map (fun c => (js (fst c), snd c)) cells).

Definition str (s : string) : prim := PStr (js s).

Definition client (clientId : string) : Row :=
  rowOf [("Name", str "Ann"); ("ClientID", str clientId)].

(** Six clients; the rows 2 and 5 share the id C1. *)
Definition sixClients : list Row :=
  [client "A"; client "B"; client "C1"; client "D"; client "E"; client "C1"].

(** A row of a spreadsheet whose phone column holds numbers. *)
Definition numericPhone : Row :=
  rowOf [("Name", str "Ann"); ("PhoneNumber", PNum (ofZ 5551234567))].

(** A row whose [TaskIDs] cell is the text [5]. *)
Definition bareTaskIds : Row :=
  rowOf [("Name", str "Ann"); ("TaskIDs", str "5")].

(** The first built-in rule. *)
Definition requiredName : ValidationRule :=
  Rule.mk (js "req-client-name") (js "Required Client Name") Required
    (js "Name") (js "Client name is required") Error None.

(** A row whose [Name] is the number 0. *)
Definition zeroName : Row := rowOf [("Name", PNum (ofZ 0))].

(** A second rule of type [duplicate], on another field. *)
Definition duplicateEmails : ValidationRule :=
  Rule.mk (js "duplicate-emails") (js "Duplicate Emails") Duplicate
    (js "Email") (js "Duplicate email found") Warning None.

Definition sharedEmail : list Row :=
  [ rowOf [("Name", str "Ann"); ("ClientID", str "C1");
           ("Email", str "a@b.co")];
    rowOf [("Name", str "Bob"); ("ClientID", str "C2");
           ("Email", str "a@b.co")] ].

(** A client id in one row that is the email of another row. *)
Definition crossField : list Row :=
  [ rowOf [("Name", str "Ann"); ("ClientID", str "a@b.co")];
    rowOf [("Name", str "Bob"); ("ClientID", str "C2");
           ("Email", str "a@b.co")] ].

(** The built-in rule [worker-load-range]. *)
Definition workerLoad : ValidationRule :=
  Rule.mk (js "worker-load-range") (js "Worker Load Range") Range
    (js "CurrentLoad") (js "Current load exceeds maximum capacity") Warning
    (Some (mkConfig (Some (ofZ 0)) (Some (ofZ 100)) None)).

(** The built-in rule [task-reference]. *)
Definition taskReference : ValidationRule :=
  Rule.mk (js "task-reference") (js "Task References") Reference
    (js "TaskIDs") (js "Referenced task ID not found") Error None.

Definition tasksFile : FileData :=
  mkFileData (js "tasks.csv")
    [rowOf [("TaskID", str "T1")]; rowOf [("TaskID", str "T2")]]
    [js "TaskID"] [].

(** The text of a cell that lists T1 and T9 as a JSON array: a bracket,
    the two ids between double quotes with a comma, a bracket. *)
Definition t1t9 : prim :=
  PStr ([91; 34]%N ++ js "T1" ++ [34; 44; 34]%N ++ js "T9" ++ [34; 93]%N).

Definition referring : list Row :=
  [rowOf [("Name", str "Ann"); ("TaskIDs", t1t9)]].

(** The text of a cell that lists one object with the key [toString]:
    a bracket, a brace, the key between double quotes, a colon, 1, a
    brace, a bracket. *)
Definition ownToString : prim :=
  PStr ([91; 123; 34]%N ++ js "toString" ++ [34; 58]%N ++ js "1"
          ++ [125; 93]%N).

(** A dataset of three files: the clients, then two files of tasks.
    The first of these has its name in upper case and an empty cell; the
    second one, which knows T9, comes too late to be read. *)
Definition clientsFile : FileData :=
  mkFileData (js "clients.csv") referring [js "Name"; js "TaskIDs"] [].

Definition sprintTasks : FileData :=
  mkFileData (js "Sprint_TASKS.xlsx")
    [ rowOf [("TaskID", str "T1")]; rowOf [("TaskID", str "")];
      rowOf [("TaskID", str "T2")] ]
    [js "TaskID"] [].

Definition archive : FileData :=
  mkFileData (js "old-tasks.csv") [rowOf [("TaskID", str "T9")]]
    [js "TaskID"] [].

Definition threeFiles : list FileData := [clientsFile; sprintTasks; archive].

(** A custom rule with the global pattern [/\[/g]. *)
Definition bracketGlobal : ValidationRule :=
  Rule.mk (js "has-bracket") (js "Has Bracket") Regex
    (js "Skills") (js "Skills must contain a bracket") Error
    (Some (mkConfig None None (Some (mkRegExp (Chr 91) true false 0)))).

Definition skilled : list Row :=
  [rowOf [("Name", str "Ann"); ("Skills", str "[a]")]].

(** Three rows with errors: no name; a bad email; an empty name and
    skills that are no list. *)
Definition messy : list Row :=
  [ rowOf [("ClientID", str "C1")];
    rowOf [("Name", str "Bob"); ("Email", str "bob")];
    rowOf [("Name", str ""); ("Skills", str "cooking")] ].

Definition messyErrors : list ValidationError :=
  [ mkError 0 (js "Name") (js "Client name is required") Error
      (js "req-client-name");
    mkError 1 (js "Email") (js "Invalid email format") Error
      (js "email-format");
    mkError 2 (js "Name") (js "Client name is required") Error
      (js "req-client-name");
    mkError 2 (js "Skills") (js "Skills must be in JSON array format") Error
      (js "skill-format") ].

(** A file of sixteen rows with one error recorded. *)
Definition sixteen : FileData :=
  mkFileData (js "clients.csv") (repeat (client "A") 16) [js "Name"]
    [ mkError 0 (js "Name") (js "Client name is required") Error
        (js "req-client-name") ].

End Examples.

(** ** What the patterns of the rules accept, as shapes of strings *)

Module Shapes.
Import JS Engine.

(** The iterations of a star: each one matches a piece that is not
    empty. *)
Inductive StarL (P : nat -> jsstring -> jsstring -> Prop)
  : nat -> jsstring -> jsstring -> Prop :=
  | StarL_nil : forall i v, StarL P i [] v
  | StarL_cons : forall i u1 u2 v,
      u1 <> [] -> P i u1 (u2 ++ v) -> StarL P (i + length u1) u2 v ->
      StarL P i (u1 ++ u2) v.

(** [denotes r i u v]: the pattern [r] matches the piece [u] that
    starts at index [i] and is followed by [v]. *)
Fixpoint denotes (r : regex) (i : nat) (u v : jsstring) : Prop :=
  match r with
  | Eps => u = []
  | Cls p => exists c, u = [c] /\ p c = true
  | Seq a b =>
      exists u1 u2, u = u1 ++ u2 /\ denotes a i u1 (u2 ++ v)
                    /\ denotes b (i + length u1) u2 v
  | Alt a b => denotes a i u v \/ denotes b i u v
  | Star a => StarL (denotes a) i u v
  | Bol => u = [] /\ i = 0
  | Eol => u = [] /\ v = []
  end.

(** [local@domain.tld]: three pieces that are not empty and hold neither
    white space nor [@], with [@] after the first and [.] after the
    second. *)
Definition emailShape (s : jsstring) : Prop :=
  exists a b c : jsstring,
    s = a ++ 64%N :: b ++ 46%N :: c
    /\ a <> [] /\ b <> [] /\ c <> []
    /\ forallb notSpaceAt a = true /\ forallb notSpaceAt b = true
    /\ forallb notSpaceAt c = true.

(** An optional [+], a digit from 1 to 9, then at most 15 digits. *)
Definition phoneShape (s : jsstring) : Prop :=
  exists (plus : bool) (d : N) (ds : jsstring),
    s = (if plus then [43%N] else []) ++ d :: ds
    /\ (49 <= d <= 57)%N
    /\ forallb isDigit ds = true /\ length ds <= 15.

(** [[ ... ]] on one line. *)
Definition skillShape (s : jsstring) : Prop :=
  exists m : jsstring,
    s = 91%N :: m ++ [93%N]
    /\ forallb (fun c => negb (isLineTerminator c)) m = true.

(** An error moved to the row [i] *)
Definition atRow (i : nat) (e : ValidationError) : ValidationError :=
  {| row := i; column := column e; message := message e;
     severity := severity e; ruleId := ruleId e |}.

End Shapes.

(** ** Further rules and tables used as examples *)

Module Cases.
Import JS Engine Examples.
Local Open Scope string_scope.

(** The built-in rules [email-format], [phone-format] and
    [skill-format]. *)
Definition emailFormat : ValidationRule :=
  Rule.mk (js "email-format") (js "Email Format") Email
    (js "Email") (js "Invalid email format") Error None.

Definition phoneFormat : ValidationRule :=
  Rule.mk (js "phone-format") (js "Phone Format") Phone
    (js "PhoneNumber") (js "Invalid phone number format") Warning None.

Definition skillFormat : ValidationRule :=
  Rule.mk (js "skill-format") (js "Skills Format") Regex
    (js "Skills") (js "Skills must be in JSON array format") Error
    (Some (mkConfig None None (Some (mkRegExp skillPattern false false 0)))).

(** A rule added to the registry: the column [Email] is required. *)
Definition requiredEmail : ValidationRule :=
  Rule.mk (js "req-email") (js "Required Email") Required
    (js "Email") (js "Email is required") Warning None.

(** The table [messy] as a file of the dataset, with its errors. *)
Definition messyFile : FileData :=
  mkFileData (js "clients.csv") messy [js "Name"; js "Email"] messyErrors.

(** The state of the page after two uploads: a clients file whose row
    refers to the tasks T1 and T9, stored without errors, and the tasks
    file. *)
Definition twoFiles : list (jsstring * FileData) :=
  [ (js "clients.csv",
     mkFileData (js "clients.csv") referring [js "Name"; js "TaskIDs"] []);
    (js "tasks.csv", tasksFile) ].

End Cases.

(** ** The rest of the dashboard ([src/components/ValidationDashboard.tsx])

    [files] is given by its values, in the order of [Object.values];
    [rules] is the registry that [validationEngine.getRules()] returns
    when the component renders. *)

Module Report.
Import JS Engine Dashboard.

(** [generateRecommendations]: three tests, each pushing its sentence. *)
Definition generateRecommendations
    (errorCount warningCount validationScore : number) : list jsstring :=
  let r0 := [] in
  let r1 :=
    if lt (ofZ 0) errorCount
    then r0 ++ [js "Fix all errors before proceeding with data processing"]
    else r0 in
  let r2 :=
    if lt (ofZ 10) warningCount
    then r1 ++ [js "Review warnings to improve data quality"]
    else r1 in
  if lt validationScore (ofZ 80)
  then r2 ++ [js "Consider data cleanup before using this dataset"]
  else r2.

(** The [recommendations] of the report of [exportDetailedReport] *)
Definition recommendations (files : list FileData) : list jsstring :=
  generateRecommendations (errorCount files) (warningCount files)
    (validationScore files).

(** [selectedFilter] *)
Inductive Filter : Type := All | Errors | Warnings.

Definition sameSeverity (a b : Severity) : bool :=
  match a, b with
  | Error, Error | Warning, Warning => true
  | _, _ => false
  end.

(** [selectedFilter === 'all' ? allErrors
      : allErrors.filter(e => e.severity ===
          (selectedFilter === 'errors' ? 'error' : 'warning'))] *)
Definition filteredErrors (selectedFilter : Filter) (files : list FileData)
  : list (ValidationError * jsstring) :=
  match selectedFilter with
  | All => allErrors files
  | _ =>
      List.filter
        (fun e => sameSeverity (severity (fst e))
                    (match selectedFilter with
                     | Errors => Error
                     | _ => Warning
                     end))
        (allErrors files)
  end.

(** [useState('all')], and the [onClick] of the only button that sets
    the filter: [setSelectedFilter(selectedFilter === 'all' ? 'errors'
    : 'all')].  [afterClicks n] is the filter after [n] clicks. *)
Definition toggleFilter (selectedFilter : Filter) : Filter :=
  match selectedFilter with
  | All => Errors
  | _ => All
  end.

Fixpoint afterClicks (n : nat) : Filter :=
  match n with
  | O => All
  | S k => toggleFilter (afterClicks k)
  end.

(** The entries of the detailed list: [filteredErrors.slice(0, 50)] *)
Definition shownErrors (selectedFilter : Filter) (files : list FileData)
  : list (ValidationError * jsstring) :=
  take 50 (filteredErrors selectedFilter files).

(** [filteredErrors.length > 50 && ...]: the line "Showing 50 of n
    issues" under the list, with its [n]. *)
Definition hiddenNote (selectedFilter : Filter) (files : list FileData)
  : option nat :=
  if (50 <? length (filteredErrors selectedFilter files))%nat
  then Some (length (filteredErrors selectedFilter files))
  else None.

(** An entry of [errorsByRule]: [{ count, errors, rule }].  [count]
    starts at 0 and grows by one with every error pushed; an array holds
    fewer than [2 ^ 32] elements, so the Number is the exact integer. *)
Module Group.
Record t : Type := mk {
  count : nat;
  errors : list (ValidationError * jsstring);
  rule : option ValidationRule
}.
End Group.

(** [error.ruleId || 'unknown'] *)
Definition ruleKey (error : ValidationError * jsstring) : jsstring :=
  match ruleId (fst error) with
  | [] => js "unknown"
  | id => id
  end.

(** [validationEngine.getRules().find(r => r.id === ruleId)] *)
Definition findRule (rules : list ValidationRule) (ruleId : jsstring)
  : option ValidationRule :=
  List.find (fun r => strEq (Rule.id r) ruleId) rules.

(** The three updates of [acc[ruleId]] when [ruleId] is an own key of
    [acc]; [None] when it is none. *)
Fixpoint addTo (acc : list (jsstring * Group.t)) (ruleId : jsstring)
    (error : ValidationError * jsstring) (found : option ValidationRule)
  : option (list (jsstring * Group.t)) :=
  match acc with
  | [] => None
  | (k, g) :: rest =>
      if strEq k ruleId
      then Some ((k, Group.mk (S (Group.count g)) (Group.errors g ++ [error])
                       found) :: rest)
      else
        match addTo rest ruleId error found with
        | Some rest' => Some ((k, g) :: rest')
        | None => None
        end
  end.

(** The callback of [allErrors.reduce]: the own keys of [acc] are kept in
    the order of their creation.  [acc] starts as [{}], an object that
    inherits the members of [Object.prototype]: for a key of
    [protoMembers], [acc[ruleId]] is the inherited member, which is
    truthy, [acc[ruleId].errors] is [undefined] and [push] throws. *)
Definition groupStep (rules : list ValidationRule)
    (acc : list (jsstring * Group.t)) (error : ValidationError * jsstring)
  : outcome (list (jsstring * Group.t)) :=
  let ruleId := ruleKey error in
  let found := findRule rules ruleId in
  match addTo acc ruleId error found with
  | Some acc' => Ok acc'
  | None =>
      if existsb (strEq ruleId) protoMembers then Throw TypeError
      else Ok (acc ++ [(ruleId, Group.mk 1 [error] found)])
  end.

Fixpoint reduceErrors (rules : list ValidationRule)
    (errors : list (ValidationError * jsstring))
    (acc : list (jsstring * Group.t))
  : outcome (list (jsstring * Group.t)) :=
  match errors with
  | [] => Ok acc
  | error :: rest =>
      match groupStep rules acc error with
      | Ok acc' => reduceErrors rules rest acc'
      | Throw e => Throw e
      end
  end.

Definition errorsByRule (rules : list ValidationRule) (files : list FileData)
  : outcome (list (jsstring * Group.t)) :=
  reduceErrors rules (allErrors files) [].

(** A key that is an array index: the canonical decimal form of an
    integer below [2 ^ 32 - 1]. *)
Definition arrayIndex (key : jsstring) : option N :=
  match key with
  | [] => None
  | _ :: _ =>
      if forallb isDigit key then
        let n := Z.to_N (digitsValue key) in
        if strEq (digitsOfN n) key && (n <? 4294967295)%N then Some n
        else None
      else None
  end.

Fixpoint insertIndex {A : Type} (n : N) (x : A) (l : list (N * A))
  : list (N * A) :=
  match l with
  | [] => [(n, x)]
  | (m, y) :: t =>
      if (n <? m)%N then (n, x) :: l else (m, y) :: insertIndex n x t
  end.

(** The own keys that are array indices, ascending. *)
Fixpoint indexEntries {A : Type} (obj : list (jsstring * A))
  : list (N * (jsstring * A)) :=
  match obj with
  | [] => []
  | (k, v) :: t =>
      match arrayIndex k with
      | Some n => insertIndex n (k, v) (indexEntries t)
      | None => indexEntries t
      end
  end.

(** [Object.entries]: the array indices in ascending order, then the
    other keys in the order of their creation. *)
Definition entries {A : Type} (obj : list (jsstring * A))
  : list (jsstring * A) :=
  map snd (indexEntries obj)
  ++ List.filter (fun kv => match arrayIndex (fst kv) with
                            | Some _ => false
                            | None => true
                            end) obj.

(** An entry of [ruleBreakdown] *)
Module Breakdown.
Record t : Type := mk {
  ruleId : jsstring;
  ruleName : jsstring;
  ruleType : jsstring;
  count : nat;
  severity : Severity
}.
End Breakdown.

Definition typeName (k : RuleKind) : jsstring :=
  match k with
  | Required => js "required"
  | Email => js "email"
  | Phone => js "phone"
  | Reference => js "reference"
  | Duplicate => js "duplicate"
  | Range => js "range"
  | Regex => js "regex"
  | Custom => js "custom"
  end.

(** [{ ruleId, ruleName: data.rule?.name || 'Unknown Rule',
       ruleType: data.rule?.type || 'unknown', count: data.count,
       severity: data.rule?.severity || 'error' }] *)
Definition breakdownOf (entry : jsstring * Group.t) : Breakdown.t :=
  let '(ruleId, data) := entry in
  {| Breakdown.ruleId := ruleId;
     Breakdown.ruleName :=
       match Group.rule data with
       | Some r =>
           match Rule.name r with
           | [] => js "Unknown Rule"
           | n => n
           end
       | None => js "Unknown Rule"
       end;
     Breakdown.ruleType :=
       match Group.rule data with
       | Some r => typeName (Rule.type r)
       | None => js "unknown"
       end;
     Breakdown.count := Group.count data;
     Breakdown.severity :=
       match Group.rule data with
       | Some r => Rule.severity r
       | None => Error
       end |}.

(** The [ruleBreakdown] of the report of [exportDetailedReport] *)
Definition ruleBreakdown (rules : list ValidationRule) (files : list FileData)
  : outcome (list Breakdown.t) :=
  match errorsByRule rules files with
  | Ok acc => Ok (map breakdownOf (entries acc))
  | Throw e => Throw e
  end.

(** What [errorsByRule] holds after the errors [seen]: one own key for
    every key of an error, none of them a member of [Object.prototype],
    each with the errors of its key in their order and their number. *)
Definition grouped (acc : list (jsstring * Group.t))
    (seen : list (ValidationError * jsstring)) : Prop :=
  List.NoDup (map fst acc)
  /\ (forall k g, In (k, g) acc ->
        Group.errors g = List.filter (fun e => strEq (ruleKey e) k) seen
        /\ Group.count g = length (Group.errors g)
        /\ Group.errors g <> []
        /\ existsb (strEq k) protoMembers = false)
  /\ (forall e, In e seen -> In (ruleKey e) (map fst acc))
  /\ list_sum (map (fun kg => Group.count (snd kg)) acc) = length seen.

End Report.

(** ** The page ([src/pages/Index.tsx])

    The state [files] is an object keyed by file name: here the list of
    its entries, in the order of [Object.entries]. *)

Module Pages.
Import JS Engine.

Abbreviation Files := (list (jsstring * FileData)).

(** [JSON.stringify] of a string: between double quotes, with the
    escapes of QuoteJSONString; a surrogate that is not part of a pair
    is written as an escape. *)
Definition hexDigit (n : N) : N :=
  (if n <? 10 then 48 + n else 87 + n)%N.

Definition unicodeEscape (c : N) : jsstring :=
  [92; 117; hexDigit (c / 4096); hexDigit ((c / 256) mod 16);
   hexDigit ((c / 16) mod 16); hexDigit (c mod 16)]%N.

Definition isLeadSurrogate (c : N) : bool := ((55296 <=? c) && (c <=? 56319))%N.
Definition isTrailSurrogate (c : N) : bool := ((56320 <=? c) && (c <=? 57343))%N.

Fixpoint quoteUnits (s : jsstring) : jsstring :=
  match s with
  | [] => []
  | c :: t =>
      if (c =? 8)%N then [92; 98]%N ++ quoteUnits t
      else if (c =? 9)%N then [92; 116]%N ++ quoteUnits t
      else if (c =? 10)%N then [92; 110]%N ++ quoteUnits t
      else if (c =? 12)%N then [92; 102]%N ++ quoteUnits t
      else if (c =? 13)%N then [92; 114]%N ++ quoteUnits t
      else if (c =? 34)%N then [92; 34]%N ++ quoteUnits t
      else if (c =? 92)%N then [92; 92]%N ++ quoteUnits t
      else if (c <? 32)%N then unicodeEscape c ++ quoteUnits t
      else if isLeadSurrogate c then
        match t with
        | d :: t' =>
            if isTrailSurrogate d then c :: d :: quoteUnits t'
            else unicodeEscape c ++ quoteUnits t
        | [] => unicodeEscape c
        end
      else if isTrailSurrogate c then unicodeEscape c ++ quoteUnits t
      else c :: quoteUnits t
  end.

Definition quoteJSON (s : jsstring) : jsstring :=
  [34%N] ++ quoteUnits s ++ [34%N].

(** The member [key: value] of an object, the key between quotes *)
Definition member (key : string) (value : jsstring) : jsstring :=
  quoteJSON (js key) ++ [58%N] ++ value.

(** [JSON.stringify] of an error of the engine, whose keys were created
    in the order [row], [column], [message], [severity], [ruleId]. *)
Definition stringifyError (e : ValidationError) : jsstring :=
  [123%N]
  ++ joinWith (fun x => x) [44%N]
       [ member "row" (indexToString (row e));
         member "column" (quoteJSON (column e));
         member "message" (quoteJSON (message e));
         member "severity"
           (quoteJSON (match severity e with
                       | Error => js "error"
                       | Warning => js "warning"
                       end));
         member "ruleId" (quoteJSON (ruleId e)) ]
  ++ [125%N].

(** [JSON.stringify] of a list of errors *)
Definition stringifyErrors (errs : list ValidationError) : jsstring :=
  [91%N] ++ joinWith stringifyError [44%N] errs ++ [93%N].

(** [updatedFiles[fileName] = value] for a key that the object has: the
    value of the key is replaced, the order of the keys stays. *)
Fixpoint replaceFile (fileName : jsstring) (value : FileData) (files : Files)
  : Files :=
  match files with
  | [] => []
  | (k, f) :: rest =>
      if strEq k fileName then (k, value) :: rest
      else (k, f) :: replaceFile fileName value rest
  end.

(** The body of [Object.entries(files).forEach] in [revalidateFiles],
    over the entries that are left: every file is validated against the
    dataset [files], with the registry as the calls before have left it;
    [updatedFiles] and [hasChanges] are the two variables of the
    function. *)
Fixpoint revalidateEach (files : Files) (entries : Files)
    (rules : list ValidationRule) (updatedFiles : Files) (hasChanges : bool)
  : outcome (Files * bool) * list ValidationRule :=
  match entries with
  | [] => (Ok (updatedFiles, hasChanges), rules)
  | (fileName, fileData) :: rest =>
      match validateData rules (data fileData) (headers fileData) fileName
              (Some (map snd files)) with
      | (Throw e, rules') => (Throw e, rules')
      | (Ok newErrors, rules') =>
          if negb (strEq (stringifyErrors newErrors)
                     (stringifyErrors (validationErrors fileData)))
          then
            revalidateEach files rest rules'
              (replaceFile fileName
                 (mkFileData (name fileData) (data fileData)
                    (headers fileData) newErrors)
                 updatedFiles)
              true
          else revalidateEach files rest rules' updatedFiles hasChanges
      end
  end.

(** [revalidateFiles]: [Some] is the argument of [setFiles], [None] is
    no call of [setFiles]. *)
Definition revalidateFiles (files : Files) (rules : list ValidationRule)
  : outcome (option Files) * list ValidationRule :=
  match revalidateEach files files rules files false with
  | (Ok (updatedFiles, true), rules') => (Ok (Some updatedFiles), rules')
  | (Ok (_, false), rules') => (Ok None, rules')
  | (Throw e, rules') => (Throw e, rules')
  end.

(** Two files with the same name, rows and headers *)
Definition sameTable (f u : FileData) : Prop :=
  name u = name f /\ data u = data f /\ headers u = headers f.

(** An entry of [files] is settled for a registry and a dataset when
    the errors it stores have the JSON text of the errors that
    [validateData] returns for its table and the dataset. *)
Definition settled (rules : list ValidationRule) (dataset : Files)
    (entry : jsstring * FileData) : Prop :=
  exists errs : list ValidationError,
    fst (validateData rules (data (snd entry)) (headers (snd entry))
           (fst entry) (Some (map snd dataset))) = Ok errs
    /\ stringifyErrors errs = stringifyErrors (validationErrors (snd entry)).

(** [totalErrors] and [totalWarnings] of the header: a sum over the
    files. *)
Definition totalErrors (files : Files) : number :=
  fold_left
    (fun sum file =>
       add sum (ofNat (length (List.filter
                                 (fun e => match severity e with
                                           | Error => true
                                           | Warning => false
                                           end)
                                 (validationErrors file)))))
    (map snd files) (ofZ 0).

Definition totalWarnings (files : Files) : number :=
  fold_left
    (fun sum file =>
       add sum (ofNat (length (List.filter
                                 (fun e => match severity e with
                                           | Error => false
                                           | Warning => true
                                           end)
                                 (validationErrors file)))))
    (map snd files) (ofZ 0).

End Pages.

(** ** The grid ([DataGrid]) *)

Module Grid.
Import JS Engine.

Definition rowsPerPage : nat := 10.

(** [validationErrors.find(error => error.row === rowIndex
                                    && error.column === column)] *)
Definition getCellError (validationErrors : list ValidationError)
    (rowIndex : nat) (column : jsstring) : option ValidationError :=
  List.find (fun error => (row error =? rowIndex)%nat
                          && strEq (Engine.column error) column)
    validationErrors.

(** [Array.prototype.slice(start, end)] for [0 <= start <= end] *)
Definition slice {A : Type} (l : list A) (start stop : nat) : list A :=
  take (stop - start) (drop start l).

(** [data.slice(currentPage * rowsPerPage, (currentPage + 1) * rowsPerPage)] *)
Definition paginatedData (data : list Row) (currentPage : nat) : list Row :=
  slice data (currentPage * rowsPerPage) ((currentPage + 1) * rowsPerPage).

(** [currentPage * rowsPerPage + rowIndex] *)
Definition actualRowIndex (currentPage rowIndex : nat) : nat :=
  currentPage * rowsPerPage + rowIndex.

(** A cell of the body of the table: the index of its row in the table,
    its header, and the error that marks it ([cellError]). *)
Record Cell : Type := mkCell {
  cellRow : nat;
  cellHeader : jsstring;
  cellError : option ValidationError
}.

(** [headers.map((header) => { const cellError =
      getCellError(actualRowIndex, header); ... })]: the cells of one
    row, one per header. *)
Definition rowCells (validationErrors : list ValidationError)
    (headers : list jsstring) (actual : nat) : list Cell :=
  map (fun header =>
         mkCell actual header (getCellError validationErrors actual header))
    headers.

(** [paginatedData.map((row, rowIndex) => ...)]: the rows of cells of
    the current page. *)
Definition pageCells (data : list Row) (headers : list jsstring)
    (validationErrors : list ValidationError) (currentPage : nat)
  : list (list Cell) :=
  imap (fun rowIndex _ =>
          rowCells validationErrors headers
            (actualRowIndex currentPage rowIndex))
    (paginatedData data currentPage).

(** An error that marks a cell of a page. *)
Definition marks (data : list Row) (headers : list jsstring)
    (validationErrors : list ValidationError) (currentPage : nat)
    (error : ValidationError) : Prop :=
  exists (cells : list Cell) (cell : Cell),
    In cells (pageCells data headers validationErrors currentPage)
    /\ In cell cells /\ cellError cell = Some error.

End Grid.

(** ** Properties *)

Import JS Engine Dashboard Spec Examples.

(** *** Equality of strings and of Map keys *)

Lemma strEq_eq (a b : jsstring) : strEq a b = true <-> a = b.
Proof.
  revert b; induction a as [|x a IH]; intros [|y b]; simpl; split;
    try congruence; try discriminate.
  - intros H. apply andb_true_iff in H as [Hxy Hab].
    apply N.eqb_eq in Hxy. apply IH in Hab. congruence.
  - intros [= -> ->]. rewrite N.eqb_refl. simpl. now apply IH.
Qed.

Lemma strEq_refl (a : jsstring) : strEq a a = true.
Proof. now apply strEq_eq. Qed.

(** [sameValue] decides the equality of Numbers as represented. *)
Lemma sameValue_eq (x y : number) : sameValue x y = true <-> x = y.
Proof.
  destruct x as [s|s| |s m e], y as [s'|s'| |s' m' e']; simpl; split;
    try congruence; try discriminate.
  - intros H. apply Bool.eqb_prop in H. congruence.
  - intros [= ->]. apply Bool.eqb_reflx.
  - intros H. apply Bool.eqb_prop in H. congruence.
  - intros [= ->]. apply Bool.eqb_reflx.
  - intros H. apply andb_true_iff in H as [H He].
    apply andb_true_iff in H as [Hs Hm].
    apply Bool.eqb_prop in Hs. apply Pos.eqb_eq in Hm. apply Z.eqb_eq in He.
    congruence.
  - intros [= -> -> ->].
    now rewrite Bool.eqb_reflx, Pos.eqb_refl, Z.eqb_refl.
Qed.

(** Two values are the same key of a [Map] exactly when their canonical
    keys are equal, so [primSame] is an equivalence. *)
Lemma primSame_canon (a b : prim) :
  primSame a b = true <-> canonKey a = canonKey b.
Proof.
  destruct a as [| |x|x|x], b as [| |y|y|y];
    try (destruct x as [s|s| |s m e]); try (destruct y as [s'|s'| |s' m' e']);
    simpl; split; intros H; try discriminate H; try reflexivity.
  - apply Bool.eqb_prop in H. congruence.
  - injection H as ->. apply Bool.eqb_reflx.
  - apply Bool.eqb_prop in H. congruence.
  - injection H as ->. apply Bool.eqb_reflx.
  - change (sameValue (S754_finite s m e) (S754_finite s' m' e') = true) in H.
    apply sameValue_eq in H. congruence.
  - injection H as -> -> ->.
    now rewrite Bool.eqb_reflx, Pos.eqb_refl, Z.eqb_refl.
  - apply strEq_eq in H. congruence.
  - injection H as ->. apply strEq_refl.
Qed.

Lemma primSame_refl a : primSame a a = true.
Proof. now apply primSame_canon. Qed.

Lemma primSame_sym a b : primSame a b = primSame b a.
Proof.
  destruct (primSame a b) eqn:H1, (primSame b a) eqn:H2; try reflexivity.
  - apply primSame_canon in H1. symmetry in H1. apply primSame_canon in H1. congruence.
  - apply primSame_canon in H2. symmetry in H2. apply primSame_canon in H2. congruence.
Qed.

Lemma primSame_trans a b c :
  primSame a b = true -> primSame b c = true -> primSame a c = true.
Proof. rewrite !primSame_canon. congruence. Qed.

Lemma primSame_true_l a b c :
  primSame a b = true -> primSame a c = primSame b c.
Proof.
  intros H. destruct (primSame b c) eqn:Hbc.
  - eapply primSame_trans; eauto.
  - destruct (primSame a c) eqn:Hac; [|reflexivity].
    rewrite primSame_sym in H. rewrite <- Hbc. symmetry.
    eapply primSame_trans; eauto.
Qed.

(** Only a string is the same key as a string. *)
Lemma primSame_str (v : prim) (s : jsstring) :
  primSame v (PStr s) = true -> v = PStr s.
Proof.
  intros H. apply primSame_canon in H.
  destruct v as [| |b|[]|]; simpl in H; congruence.
Qed.

(** *** The tracker holds the groups of the values tracked *)

Lemma forallb_filter_weaken {A} (p q : A -> bool) (l : list A) :
  forallb p l = true -> forallb p (List.filter q l) = true.
Proof.
  induction l as [|x l IH]; simpl; [easy|].
  intros [Hx Hl]%andb_true_iff. destruct (q x); simpl; [rewrite Hx|]; auto.
Qed.

Lemma pairwiseDistinct_filter (q : prim -> bool) (l : list prim) :
  pairwiseDistinct l = true -> pairwiseDistinct (List.filter q l) = true.
Proof.
  induction l as [|x l IH]; simpl; [easy|].
  intros [Hx Hl]%andb_true_iff. destruct (q x); simpl; auto.
  rewrite forallb_filter_weaken by assumption. auto.
Qed.

(** The values that [distinct] keeps are different keys. *)
Lemma distinct_pairwise (l : list prim) : pairwiseDistinct (distinct l) = true.
Proof.
  induction l as [|x l IH]; simpl; [easy|].
  apply andb_true_iff; split.
  - apply forallb_forall. intros k Hk. apply List.filter_In in Hk. tauto.
  - now apply pairwiseDistinct_filter.
Qed.

Lemma existsb_same_filter (a k : prim) (l : list prim) :
  primSame a k = false ->
  existsb (fun k' => primSame k' k)
    (List.filter (fun k' => negb (primSame a k')) l)
  = existsb (fun k' => primSame k' k) l.
Proof.
  intros Hak. induction l as [|x l IH]; simpl; [easy|].
  destruct (primSame a x) eqn:Hax; simpl.
  - rewrite IH. rewrite <- (primSame_true_l a x k Hax), Hak. reflexivity.
  - now rewrite IH.
Qed.

(** [distinct] keeps a representative of every key. *)
Lemma existsb_distinct (k : prim) (l : list prim) :
  existsb (fun k' => primSame k' k) (distinct l)
  = existsb (fun k' => primSame k' k) l.
Proof.
  induction l as [|x l IH]; simpl; [easy|].
  destruct (primSame x k) eqn:Hxk; simpl; [easy|].
  now rewrite existsb_same_filter.
Qed.

(** [distinct] of a list with one more value at its end. *)
Lemma distinct_snoc (l : list prim) (k : prim) :
  distinct (l ++ [k])
  = if existsb (fun k' => primSame k' k) l then distinct l
    else distinct l ++ [k].
Proof.
  induction l as [|x l IH]; simpl; [easy|].
  rewrite IH. destruct (primSame x k) eqn:Hxk; simpl.
  - destruct (existsb _ l); [reflexivity|].
    rewrite List.filter_app. simpl. rewrite Hxk. simpl. now rewrite app_nil_r.
  - destruct (existsb _ l); [reflexivity|].
    rewrite List.filter_app. simpl. now rewrite Hxk.
Qed.

Lemma rowsOf_snoc (seq : list (prim * nat)) (k v : prim) (i : nat) :
  rowsOf (seq ++ [(k, i)]) v
  = rowsOf seq v ++ (if primSame v k then [i] else []).
Proof.
  unfold rowsOf. rewrite List.filter_app, map_app. simpl.
  now destruct (primSame v k).
Qed.

Lemma rowsOf_none (seq : list (prim * nat)) (k : prim) :
  existsb (fun k' => primSame k' k) (map fst seq) = false ->
  rowsOf seq k = [].
Proof.
  unfold rowsOf. induction seq as [|[x j] seq IH]; simpl; [easy|].
  intros [Hx Hs]%orb_false_iff. rewrite primSame_sym, Hx. auto.
Qed.

(** One call of [track] on a tracker that holds the rows of a sequence for
    pairwise different keys. *)
Lemma track_groups (seq : list (prim * nat)) (ks : list prim)
    (k : prim) (i : nat) :
  pairwiseDistinct ks = true ->
  track (map (fun v => (v, rowsOf seq v)) ks) k i
  = map (fun v => (v, rowsOf (seq ++ [(k, i)]) v)) ks
    ++ (if existsb (fun k' => primSame k' k) ks then [] else [(k, [i])]).
Proof.
  induction ks as [|a ks IH]; simpl; [easy|].
  intros [Ha Hks]%andb_true_iff.
  rewrite rowsOf_snoc. destruct (primSame a k) eqn:Hak; simpl.
  - rewrite app_nil_r. f_equal. apply map_ext_in. intros v Hv.
    rewrite rowsOf_snoc. rewrite forallb_forall in Ha.
    specialize (Ha v Hv). apply negb_true_iff in Ha.
    rewrite (primSame_sym v k), <- (primSame_true_l a k v Hak), Ha.
    now rewrite app_nil_r.
  - rewrite app_nil_r. f_equal. now apply IH.
Qed.

(** One call of [track] on the groups of a sequence gives the groups of
    the sequence with the pair tracked at its end. *)
Lemma track_groupsOf (seq : list (prim * nat)) (k : prim) (i : nat) :
  track (groupsOf seq) k i = groupsOf (seq ++ [(k, i)]).
Proof.
  unfold groupsOf. rewrite track_groups by apply distinct_pairwise.
  rewrite map_app. simpl. rewrite distinct_snoc, existsb_distinct.
  destruct (existsb _ (map fst seq)) eqn:Hex.
  - now rewrite app_nil_r.
  - rewrite map_app. simpl. rewrite rowsOf_snoc, primSame_refl.
    now rewrite (rowsOf_none seq k Hex).
Qed.

(** The tracker after a sequence of calls holds the groups of the
    sequence. *)
Lemma trackAll_groupsOf (seq0 seq : list (prim * nat)) :
  trackAll (groupsOf seq0) seq = groupsOf (seq0 ++ seq).
Proof.
  revert seq0. induction seq as [|[k i] seq IH]; intros seq0; simpl.
  - now rewrite app_nil_r.
  - rewrite track_groupsOf, IH, <- app_assoc. reflexivity.
Qed.

Lemma trackAll_app (tr : Tracker) (a b : list (prim * nat)) :
  trackAll tr (a ++ b) = trackAll (trackAll tr a) b.
Proof. apply fold_left_app. Qed.

(** *** The two loops of [validateData]

    Throughout a pass the dataset is fixed. *)

Section Pass.

Variable files : option (list FileData).

(** [collect] on two sequences of results, one after the other. *)
Lemma collect_app (a b : list (outcome (option ValidationError))) :
  collect (a ++ b)
  = match collect a with
    | Throw e => Throw e
    | Ok x =>
        match collect b with
        | Throw e => Throw e
        | Ok y => Ok (x ++ y)
        end
    end.
Proof.
  induction a as [|[o|e] a IH]; simpl.
  - now destruct (collect b).
  - rewrite IH. destruct (collect a); [|reflexivity].
    destruct (collect b); [|reflexivity]. now destruct o.
  - reflexivity.
Qed.

(** [validateField] changes neither the type nor the field of the rule. *)
Lemma validateField_shape (value : prim) (rule : ValidationRule) (i : nat)
    (r : Row) :
  Rule.type (snd (validateField value rule i r files)) = Rule.type rule
  /\ Rule.field (snd (validateField value rule i r files)) = Rule.field rule.
Proof.
  unfold validateField.
  destruct (Rule.type rule) eqn:Ht; simpl;
    repeat match goal with
           | |- context [if ?b then _ else _] => destruct b
           | |- context [match ?x with _ => _ end] => destruct x eqn:?
           end; simpl; auto.
Qed.

Lemma trackedInRow_shape (rules rules' : list ValidationRule) (r : Row) (i : nat) :
  map Rule.type rules' = map Rule.type rules ->
  map Rule.field rules' = map Rule.field rules ->
  trackedInRow rules' r i = trackedInRow rules r i.
Proof.
  revert rules'. induction rules as [|a rules IH]; intros [|b rules']; simpl;
    try discriminate; [easy|].
  intros [= Ht Hts] [= Hf Hfs]. unfold trackedInRow in *. simpl.
  rewrite Ht, Hf. f_equal. now apply IH.
Qed.

Lemma tracked_shape (rules rules' : list ValidationRule) (rows : list Row) (i : nat) :
  map Rule.type rules' = map Rule.type rules ->
  map Rule.field rules' = map Rule.field rules ->
  tracked rules' rows i = tracked rules rows i.
Proof.
  intros Ht Hf. revert i. induction rows as [|r rows IH]; intros i; simpl; [easy|].
  rewrite IH. f_equal. now apply trackedInRow_shape.
Qed.

Lemma rowCalls_shape (r : Row) (i : nat)
    (rules : list ValidationRule) :
  map Rule.type (map snd (rowCalls r i files rules)) = map Rule.type rules
  /\ map Rule.field (map snd (rowCalls r i files rules)) = map Rule.field rules.
Proof.
  unfold rowCalls. induction rules as [|a rules [IH1 IH2]]; simpl; [easy|].
  destruct (validateField_shape (getField r (Rule.field a)) a i r) as [H1 H2].
  rewrite H1, H2, IH1, IH2. easy.
Qed.

(** The loop over the rules for one row: the errors of the calls are
    appended in the order of the registry, the tracker takes the values
    of the row, and every rule object is the one its call has left. *)
Lemma forEachRule_spec (r : Row) (i : nat)
    (rules : list ValidationRule) (errs : list ValidationError) (tr : Tracker) :
  match collect (map fst (rowCalls r i files rules)) with
  | Ok new =>
      forEachRule r i files rules (errs, tr)
      = (Ok (errs ++ new, trackAll tr (trackedInRow rules r i)),
         map snd (rowCalls r i files rules))
  | Throw e => fst (forEachRule r i files rules (errs, tr)) = Throw e
  end.
Proof.
  revert errs tr. induction rules as [|rule rules IH]; intros errs tr; simpl.
  - now rewrite app_nil_r.
  - unfold ruleStep.
    destruct (validateField (getField r (Rule.field rule)) rule i r files)
      as [[o|e] rule'] eqn:Hv; simpl; [|reflexivity].
    set (errs' := match o with Some e => errs ++ [e] | None => errs end).
    set (tr' := match Rule.type rule with
                | Duplicate => if truthy (getField r (Rule.field rule))
                               then track tr (getField r (Rule.field rule)) i
                               else tr
                | _ => tr end).
    specialize (IH errs' tr').
    destruct (collect (map fst (rowCalls r i files rules))) as [new|e] eqn:Hc.
    + unfold rowCalls in IH. rewrite IH.
      assert (He : errs' ++ new
                   = errs ++ match o with Some e => e :: new | None => new end).
      { subst errs'. destruct o; [rewrite <- app_assoc|]; reflexivity. }
      assert (Ht : trackAll tr' (trackedInRow rules r i)
                   = trackAll tr (trackedInRow (rule :: rules) r i)).
      { subst tr'. unfold trackedInRow. simpl. rewrite trackAll_app.
        destruct (Rule.type rule); try reflexivity.
        destruct (truthy _); reflexivity. }
      now rewrite He, Ht.
    + unfold rowCalls in IH.
      destruct (forEachRule r i files rules (errs', tr')) as [o' rs']. simpl in *.
      assumption.
Qed.

(** The loop over the rows: the errors of all calls in row-major order, and
    the tracker of all values tracked. *)
Lemma forEachRow_spec (rows : list Row) (i : nat)
    (rules : list ValidationRule)
    (errs : list ValidationError) (tr : Tracker) :
  fst (forEachRow rows i files rules (errs, tr))
  = match collect (calls rows i files rules) with
    | Ok new => Ok (errs ++ new, trackAll tr (tracked rules rows i))
    | Throw e => Throw e
    end.
Proof.
  revert i rules errs tr. induction rows as [|r rows IH]; intros i rules errs tr; simpl.
  - now rewrite app_nil_r.
  - rewrite collect_app.
    pose proof (forEachRule_spec r i rules errs tr) as Hr.
    destruct (collect (map fst (rowCalls r i files rules))) as [new|e].
    + rewrite Hr, IH.
      destruct (rowCalls_shape r i rules) as [Ht Hf].
      rewrite (tracked_shape rules _ rows (S i) Ht Hf).
      destruct (collect (calls rows (S i) files _)); [|reflexivity].
      now rewrite trackAll_app, <- app_assoc.
    + destruct (forEachRule r i files rules (errs, tr)) as [o rs]. simpl in Hr.
      now subst o.
Qed.

Lemma duplicateErrors_group (v : prim) (rows : list nat) :
  duplicateErrors (v, rows) = duplicateGroup v rows.
Proof.
  unfold duplicateErrors, duplicateGroup.
  destruct rows as [|a [|b rows]]; reflexivity.
Qed.

(** The list returned by [validateData]: the errors of the calls, then
    the groups of the values tracked; an exception of a call is the
    exception of [validateData]. *)
Lemma validateData_structure (rules : list ValidationRule) (data : list Row)
    (headers : list jsstring) (fileName : jsstring)
    :
  fst (validateData rules data headers fileName files)
  = match collect (calls data 0 files rules) with
    | Ok errs =>
        Ok (errs ++
            flat_map (fun v => duplicateGroup v (rowsOf (tracked rules data 0) v))
              (distinct (map fst (tracked rules data 0))))
    | Throw e => Throw e
    end.
Proof.
  unfold validateData.
  pose proof (forEachRow_spec data 0 rules [] []) as H.
  destruct (forEachRow data 0 files rules ([], [])) as [[[errs tr]|e] rules'];
    simpl in H; destruct (collect (calls data 0 files rules)); try discriminate.
  2:{ simpl. congruence. }
  injection H as -> ->. simpl.
  change (@nil (prim * list nat)) with (groupsOf []).
  rewrite trackAll_groupsOf. simpl. unfold groupsOf.
  rewrite flat_map_concat_map, map_map, <- flat_map_concat_map.
  rewrite (flat_map_ext _ _ (fun v => duplicateErrors_group v _)).
  reflexivity.
Qed.

(** [validateField] changes neither the id nor the type of the rule. *)
Lemma validateField_meta (value : prim) (rule : ValidationRule) (i : nat)
    (r : Row) :
  ruleMeta (snd (validateField value rule i r files)) = ruleMeta rule.
Proof.
  unfold validateField, ruleMeta.
  destruct (Rule.type rule) eqn:Ht; simpl;
    repeat match goal with
           | |- context [if ?b then _ else _] => destruct b
           | |- context [match ?x with _ => _ end] => destruct x eqn:?
           end; simpl; rewrite ?Ht; auto.
Qed.

Lemma rowCalls_meta (r : Row) (i : nat)
    (rules : list ValidationRule) :
  map ruleMeta (map snd (rowCalls r i files rules)) = map ruleMeta rules.
Proof.
  unfold rowCalls. induction rules as [|a rules IH]; simpl; [easy|].
  now rewrite validateField_meta, IH.
Qed.

(** What an error of [validateField] carries. *)
Lemma validateField_error (value : prim) (rule rule' : ValidationRule) (i : nat)
    (r : Row) (e : ValidationError) :
  validateField value rule i r files = (Ok (Some e), rule') ->
  row e = i /\ column e = Rule.field rule /\ severity e = Rule.severity rule
  /\ ruleId e = Rule.id rule /\ Rule.type rule <> Duplicate.
Proof.
  unfold validateField.
  destruct (Rule.type rule) eqn:Ht; simpl;
    repeat match goal with
           | |- context [if ?b then _ else _] => destruct b
           | |- context [match ?x with _ => _ end] => destruct x eqn:?
           end; simpl; intros [= <-]; try discriminate; repeat split; auto; congruence.
Qed.

Lemma collect_app_Ok (a b : list (outcome (option ValidationError)))
    (errs : list ValidationError) :
  collect (a ++ b) = Ok errs ->
  exists x y, collect a = Ok x /\ collect b = Ok y /\ errs = x ++ y.
Proof.
  rewrite collect_app. destruct (collect a) as [x|]; [|discriminate].
  destruct (collect b) as [y|]; [|discriminate]. intros [= <-]. eauto.
Qed.

(** The errors of one row carry the index of the row and the id of a rule
    that is no duplicate rule. *)
Lemma rowCalls_errors (r : Row) (i : nat)
    (rules : list ValidationRule) (errs : list ValidationError) :
  collect (map fst (rowCalls r i files rules)) = Ok errs ->
  Forall (fun e => row e = i
                   /\ exists t, In (ruleId e, t) (map ruleMeta rules)
                                /\ t <> Duplicate) errs.
Proof.
  unfold rowCalls. revert errs. induction rules as [|a rules IH]; simpl; intros errs.
  - intros [= <-]. constructor.
  - destruct (validateField (getField r (Rule.field a)) a i r files)
      as [[o|ex] a'] eqn:Hv; simpl; [|discriminate].
    destruct (collect _) as [rest|] eqn:Hc; [|discriminate].
    intros [= <-]. specialize (IH rest eq_refl).
    assert (Hrest : Forall (fun e => row e = i
              /\ exists t, In (ruleId e, t) (ruleMeta a :: map ruleMeta rules)
                           /\ t <> Duplicate) rest).
    { eapply List.Forall_impl; [|exact IH]. intros e (He & t & Hin & Ht).
      split; [assumption|]. exists t. split; [now right|assumption]. }
    destruct o as [e|]; [|assumption].
    constructor; [|assumption].
    apply validateField_error in Hv as (H1 & _ & _ & H4 & H5).
    split; [assumption|]. exists (Rule.type a). split; [|assumption].
    left. unfold ruleMeta. now rewrite H4.
Qed.

(** The errors of the calls are in the order of the rows, and each carries
    the id of a rule of the registry that is no duplicate rule. *)
Lemma calls_errors (rows : list Row) (i : nat)
    (rules : list ValidationRule) (errs : list ValidationError) :
  collect (calls rows i files rules) = Ok errs ->
  StronglySorted Nat.le (map row errs)
  /\ Forall (fun e => i <= row e
                      /\ exists t, In (ruleId e, t) (map ruleMeta rules)
                                   /\ t <> Duplicate) errs.
Proof.
  revert i rules errs. induction rows as [|r rows IH]; intros i rules errs; simpl.
  - intros [= <-]. split; constructor.
  - intros (x & y & Hx & Hy & ->)%collect_app_Ok.
    apply rowCalls_errors in Hx. apply IH in Hy as [Hs Hy].
    rewrite rowCalls_meta in Hy.
    assert (Hy' : Forall (fun e => i <= row e
                   /\ exists t, In (ruleId e, t) (map ruleMeta rules)
                                /\ t <> Duplicate) y).
    { eapply List.Forall_impl; [|exact Hy]. intros e [He Ht]. split; [lia|assumption]. }
    assert (Hx' : Forall (fun e => i <= row e
                   /\ exists t, In (ruleId e, t) (map ruleMeta rules)
                                /\ t <> Duplicate) x).
    { eapply List.Forall_impl; [|exact Hx]. intros e [He Ht]. split; [lia|assumption]. }
    split; [|apply Forall_app; split; assumption].
    rewrite map_app. clear Hx' Hy'. induction x as [|e x IHx]; simpl; [assumption|].
    apply Forall_cons_iff in Hx as [[He _] Hx].
    constructor; [now apply IHx|].
    apply Forall_app; split.
    + apply Forall_map. eapply List.Forall_impl; [|exact Hx]. intros e' [He' _]. simpl. lia.
    + apply Forall_map. eapply List.Forall_impl; [|exact Hy]. intros e' [He' _]. simpl. lia.
Qed.

(** *** Rules without state leave the registry as it is *)

Lemma test_stateless (R : RegExp) (s : jsstring) :
  global R || sticky R = false -> snd (test R s) = R.
Proof.
  intros H. unfold test. rewrite H. now destruct (searchFrom _ _ _ _ _).
Qed.

Lemma validateField_stateless (value : prim) (rule : ValidationRule) (i : nat)
    (r : Row) :
  statelessRule rule = true ->
  snd (validateField value rule i r files) = rule.
Proof.
  unfold statelessRule, validateField. destruct rule as [id nm ty fd msg sev cfg].
  simpl. destruct ty; simpl; intros H;
    repeat match goal with
           | |- context [if ?b then _ else _] => destruct b
           | |- context [match ?x with _ => _ end] =>
               lazymatch x with
               | test _ _ => fail
               | _ => destruct x eqn:?
               end
           end; simpl; auto.
  apply negb_true_iff in H.
  match goal with
  | |- context [test ?R ?s] =>
      pose proof (test_stateless R s H) as Ht; destruct (test R s) as [b R']
  end.
  simpl in *. subst. unfold withPattern. simpl.
  match goal with c : Config |- _ => destruct c end. simpl in *. congruence.
Qed.

Lemma rowCalls_stateless (r : Row) (i : nat)
    (rules : list ValidationRule) :
  stateless rules = true -> map snd (rowCalls r i files rules) = rules.
Proof.
  unfold stateless, rowCalls. induction rules as [|a rules IH]; simpl; [easy|].
  intros [Ha Hr]%andb_true_iff. rewrite validateField_stateless, IH; auto.
Qed.

Lemma forEachRule_stateless (r : Row) (i : nat)
    (rules : list ValidationRule) (st : list ValidationError * Tracker) :
  stateless rules = true -> snd (forEachRule r i files rules st) = rules.
Proof.
  unfold stateless. revert st. induction rules as [|a rules IH]; intros st; simpl; [easy|].
  intros [Ha Hr]%andb_true_iff. unfold ruleStep. destruct st as [errs tr].
  pose proof (validateField_stateless (getField r (Rule.field a)) a i r Ha) as Hv.
  destruct (validateField _ a i r files) as [[o|e] a']; simpl in *; subst a'; [|reflexivity].
  match goal with
  | |- context [forEachRule r i files rules ?st'] =>
      specialize (IH st' Hr); destruct (forEachRule r i files rules st') as [o' rs]
  end.
  simpl in *. now subst.
Qed.

Lemma forEachRow_stateless (rows : list Row) (i : nat)
    (rules : list ValidationRule)
    (st : list ValidationError * Tracker) :
  stateless rules = true -> snd (forEachRow rows i files rules st) = rules.
Proof.
  intros H. revert i st. induction rows as [|r rows IH]; intros i st; simpl; [easy|].
  pose proof (forEachRule_stateless r i rules st H) as Hr.
  destruct (forEachRule r i files rules st) as [[st'|e] rules']; simpl in *; subst; auto.
Qed.

(** [validateData] returns a registry without global or sticky pattern
    as it was. *)
Lemma validateData_stateless (rules : list ValidationRule) (data : list Row)
    (headers : list jsstring) (fileName : jsstring)
    :
  stateless rules = true ->
  snd (validateData rules data headers fileName files) = rules.
Proof.
  intros H. unfold validateData.
  pose proof (forEachRow_stateless data 0 rules ([], []) H) as Hr.
  now destruct (forEachRow data 0 files rules ([], [])) as [[[errs tr]|e] rules'].
Qed.

(** *** No fault on a safe table *)

Lemma validateField_safe (r : Row)
    (rule : ValidationRule) (i : nat) :
  ruleSafe files r rule = true ->
  exists o, fst (validateField (getField r (Rule.field rule)) rule i r files) = Ok o.
Proof.
  unfold ruleSafe, validateField.
  destruct (Rule.type rule); intros H;
    repeat match goal with
           | |- context [if ?b then _ else _] => destruct b eqn:?
           | |- context [match ?x with _ => _ end] => destruct x eqn:?
           end; simpl in *; eauto; try discriminate.
  rewrite orb_false_r in H. rewrite H in *. discriminate.
Qed.

(** A rule object stays safe for a cell after any call. *)
Lemma validateField_keeps_safe (files' : option (list FileData))
    (r r' : Row) (rule : ValidationRule) (value : prim) (i : nat) :
  ruleSafe files' r' (snd (validateField value rule i r files))
  = ruleSafe files' r' rule.
Proof.
  unfold validateField.
  destruct (Rule.type rule) eqn:Ht;
    repeat match goal with
           | |- context [if ?b then _ else _] => destruct b eqn:?
           | |- context [match ?x with _ => _ end] =>
               lazymatch x with
               | Rule.type _ => fail
               | _ => destruct x eqn:?
               end
           end; simpl; try reflexivity.
  all: unfold ruleSafe, withPattern; simpl;
    match goal with
    | H0 : Rule.type _ = Regex, H1 : Rule.config _ = Some _,
      H2 : pattern _ = Some _ |- _ => rewrite H0, H1, H2
    end; reflexivity.
Qed.

Lemma rowCalls_keep_safe (files' : option (list FileData)) (r r' : Row)
    (i : nat) (rules : list ValidationRule) :
  forallb (ruleSafe files' r') (map snd (rowCalls r i files rules))
  = forallb (ruleSafe files' r') rules.
Proof.
  unfold rowCalls. induction rules as [|a rules IH]; simpl; [easy|].
  now rewrite validateField_keeps_safe, IH.
Qed.

Lemma rowCalls_total (r : Row) (i : nat)
    (rules : list ValidationRule) :
  forallb (ruleSafe files r) rules = true ->
  exists errs, collect (map fst (rowCalls r i files rules)) = Ok errs.
Proof.
  unfold rowCalls. induction rules as [|a rules IH]; simpl; [eauto|].
  intros [Ha Hr]%andb_true_iff.
  destruct (validateField_safe r a i Ha) as [o ->].
  destruct (IH Hr) as [errs ->]. eauto.
Qed.

(** On a safe table no call throws. *)
Lemma calls_total (rows : list Row) (i : nat)
    (rules : list ValidationRule) :
  safeTable files rules rows = true ->
  exists errs, collect (calls rows i files rules) = Ok errs.
Proof.
  unfold safeTable. revert i rules.
  induction rows as [|r rows IH]; intros i rules; simpl; [eauto|].
  intros [Hr Hrows]%andb_true_iff. rewrite collect_app.
  destruct (rowCalls_total r i rules Hr) as [x ->].
  destruct (IH (S i) (map snd (rowCalls r i files rules))) as [y ->]; [|eauto].
  rewrite <- Hrows. clear. induction rows as [|r' rows IHr]; simpl; [easy|].
  now rewrite rowCalls_keep_safe, IHr.
Qed.

(** On a safe table [validateData] returns a list. *)
Lemma validateData_total (rules : list ValidationRule) (data : list Row)
    (headers : list jsstring) (fileName : jsstring)
    :
  safeTable files rules data = true ->
  exists errs, fst (validateData rules data headers fileName files) = Ok errs.
Proof.
  intros H. rewrite validateData_structure.
  destruct (calls_total data 0 rules H) as [errs ->]. eauto.
Qed.

End Pass.

(** *** The row indices of a group ascend *)

Lemma tracked_rows_from (rules : list ValidationRule) (rows : list Row) (i : nat) :
  StronglySorted Nat.le (map snd (tracked rules rows i))
  /\ Forall (fun p => i <= snd p) (tracked rules rows i).
Proof.
  revert i. induction rows as [|r rows IH]; intros i; simpl.
  - split; constructor.
  - destruct (IH (S i)) as [Hs Hf].
    assert (Hrow : Forall (fun p => snd p = i) (trackedInRow rules r i)).
    { clear. unfold trackedInRow. induction rules as [|a rules IHr]; simpl; [constructor|].
      apply Forall_app; split; [|exact IHr].
      destruct (Rule.type a); try constructor.
      destruct (truthy _); repeat constructor. }
    split.
    + rewrite map_app. induction (trackedInRow rules r i) as [|p l IHl]; simpl; [assumption|].
      apply Forall_cons_iff in Hrow as [Hp Hl].
      constructor; [now apply IHl|].
      apply Forall_app; split; apply Forall_map.
      * eapply List.Forall_impl; [|exact Hl]. simpl. intros; lia.
      * eapply List.Forall_impl; [|exact Hf]. simpl. intros; lia.
    + apply Forall_app; split.
      * eapply List.Forall_impl; [|exact Hrow]. simpl. intros; lia.
      * eapply List.Forall_impl; [|exact Hf]. simpl. intros; lia.
Qed.

Lemma StronglySorted_map_filter {A} (R : nat -> nat -> Prop) (f : A -> nat)
    (p : A -> bool) (l : list A) :
  StronglySorted R (map f l) -> StronglySorted R (map f (List.filter p l)).
Proof.
  induction l as [|a l IH]; simpl; [easy|].
  intros H. apply StronglySorted_inv in H as [Hs Hf].
  destruct (p a); simpl; [|now apply IH].
  constructor; [now apply IH|].
  rewrite Forall_map in *. clear -Hf.
  induction l as [|b l IHl]; simpl; [constructor|].
  apply Forall_cons_iff in Hf as [Hb Hl].
  destruct (p b); [constructor|]; auto.
Qed.

Lemma clientIds_rows_from (rows : list Row) (i : nat) :
  StronglySorted Nat.lt (map snd (clientIds rows i))
  /\ Forall (fun p => i <= snd p) (clientIds rows i).
Proof.
  revert i. induction rows as [|r rows IH]; intros i; simpl.
  - split; constructor.
  - destruct (IH (S i)) as [Hs Hf].
    assert (Hf' : Forall (fun p => i < snd p) (clientIds rows (S i))).
    { eapply List.Forall_impl; [|exact Hf]. simpl. intros; lia. }
    destruct (truthy _); simpl.
    + split.
      * constructor; [assumption|]. now apply Forall_map.
      * constructor; [simpl; lia|].
        eapply List.Forall_impl; [|exact Hf]. simpl. intros; lia.
    + split; [assumption|].
      eapply List.Forall_impl; [|exact Hf]. simpl. intros; lia.
Qed.

(** The pairs of [clientIds]: the rows with a truthy [ClientID]. *)
Lemma clientIds_In (rows : list Row) (i0 : nat) (k : prim) (i : nat) :
  In (k, i) (clientIds rows i0)
  <-> i0 <= i
      /\ exists r : Row, rows !! (i - i0) = Some r
                         /\ truthy (getField r (js "ClientID")) = true
                         /\ k = getField r (js "ClientID").
Proof.
  revert i0. induction rows as [|r rows IH]; intros i0; simpl.
  - split; [tauto|]. intros (_ & r & H & _). discriminate.
  - rewrite in_app_iff, IH. split.
    + intros [H|(Hle & r' & Hl & Ht & Hk)].
      * destruct (truthy (getField r (js "ClientID"))) eqn:Ht; [|destruct H].
        destruct H as [[= <- <-]|[]]. split; [lia|].
        exists r. rewrite Nat.sub_diag. auto.
      * split; [lia|]. exists r'.
        replace (i - i0) with (S (i - S i0)) by lia. auto.
    + intros (Hle & r' & Hl & Ht & Hk).
      destruct (decide (i = i0)) as [->|Hne].
      * left. rewrite Nat.sub_diag in Hl. injection Hl as <-.
        rewrite Ht. left. now subst.
      * right. split; [lia|]. exists r'.
        replace (i - i0) with (S (i - S i0)) in Hl by lia. auto.
Qed.

(** The rows of a value: those whose [ClientID] is truthy and the same
    key as the value. *)
Lemma affectedRows_In (data : list Row) (v : prim) (i : nat) :
  In i (affectedRows data v)
  <-> exists r : Row, data !! i = Some r
                      /\ truthy (getField r (js "ClientID")) = true
                      /\ primSame v (getField r (js "ClientID")) = true.
Proof.
  unfold affectedRows, rowsOf. rewrite in_map_iff. split.
  - intros ([k j] & <- & [Hin Hs]%List.filter_In). simpl in *.
    apply clientIds_In in Hin as (_ & r & Hl & Ht & ->).
    rewrite Nat.sub_0_r in Hl. eauto.
  - intros (r & Hl & Ht & Hs). exists (getField r (js "ClientID"), i).
    split; [reflexivity|]. apply List.filter_In. split; [|exact Hs].
    apply clientIds_In. split; [lia|]. exists r. rewrite Nat.sub_0_r. auto.
Qed.

Lemma affectedRows_ascending (data : list Row) (v : prim) :
  StronglySorted Nat.lt (affectedRows data v).
Proof.
  unfold affectedRows, rowsOf. apply StronglySorted_map_filter.
  apply clientIds_rows_from.
Qed.

Lemma rowsOf_sorted (rules : list ValidationRule) (data : list Row) (v : prim) :
  StronglySorted Nat.le (rowsOf (tracked rules data 0) v).
Proof.
  unfold rowsOf. apply StronglySorted_map_filter. apply tracked_rows_from.
Qed.

(** Under the built-in registry the values tracked are the client ids. *)
Lemma tracked_initialRules (rows : list Row) (i : nat) :
  tracked initialRules rows i = clientIds rows i.
Proof.
  revert i. induction rows as [|r rows IH]; intros i; simpl; [easy|].
  rewrite IH. f_equal. unfold trackedInRow. cbn [flat_map initialRules Rule.type Rule.field app].
  now destruct (truthy _).
Qed.

(** *** The reference set *)

Lemma getAllTaskIds_spec (files : list FileData) :
  getAllTaskIds files = validReferences files.
Proof.
  unfold getAllTaskIds. induction files as [|f files IH]; simpl; [easy|].
  now destruct (includes _ _).
Qed.

Lemma validReferences_none (files : list FileData) :
  forallb (fun file => negb (includes (toLowerCase (name file)) (js "task")))
    files = true ->
  validReferences files = [].
Proof.
  induction files as [|f files IH]; simpl; [easy|].
  intros [Hf Hr]%andb_true_iff. apply negb_true_iff in Hf. rewrite Hf. auto.
Qed.

(** *** Trimming *)

Lemma trimStart_cases (s : jsstring) :
  (trimStart s = [] /\ forallb isWhiteSpace s = true)
  \/ (exists c t, trimStart s = c :: t /\ isWhiteSpace c = false
                  /\ forallb isWhiteSpace s = false).
Proof.
  induction s as [|c s IH]; simpl; [now left|].
  destruct (isWhiteSpace c) eqn:Hc; simpl; [exact IH|].
  right. exists c, s. auto.
Qed.

Lemma forallb_rev {A} (p : A -> bool) (l : list A) :
  forallb p (rev l) = forallb p l.
Proof.
  induction l as [|x l IH]; simpl; [easy|].
  rewrite forallb_app, IH. simpl. rewrite andb_true_r. apply andb_comm.
Qed.

(** A string trims to the empty string exactly when it is white space
    only. *)
Lemma trim_nil (s : jsstring) :
  strEq (trim s) [] = forallb isWhiteSpace s.
Proof.
  unfold trim.
  destruct (trimStart_cases s) as [[H1 H2]|(c & t & H1 & H2 & H3)].
  - rewrite H1, H2. reflexivity.
  - rewrite H3, H1.
    destruct (trimStart_cases (rev (c :: t))) as [[H4 H5]|(c' & t' & H4 & _)].
    + rewrite forallb_rev in H5. simpl in H5. rewrite H2 in H5. discriminate.
    + rewrite H4. simpl. destruct (rev t' ++ [c']) eqn:E; [|reflexivity].
      now apply app_eq_nil in E as [_ E].
Qed.

Lemma trim_head (c : N) (t : jsstring) :
  isWhiteSpace c = false -> strEq (trim (c :: t)) [] = false.
Proof. intros H. rewrite trim_nil. simpl. now rewrite H. Qed.

(** *** The head of a Number printed *)

Ltac head_found :=
  cbn; do 2 eexists; split; [reflexivity | first [assumption | reflexivity]].

Lemma uintDigits_head (u : Decimal.uint) :
  u <> Decimal.Nil ->
  exists c t, uintDigits u = c :: t /\ isWhiteSpace c = false.
Proof. destruct u; intros H; try congruence; head_found. Qed.

Lemma digitsOfZ_head (z : Z) :
  exists c t, digitsOfZ z = c :: t /\ isWhiteSpace c = false.
Proof.
  unfold digitsOfZ, digitsOfN. apply uintDigits_head.
  destruct (Z.to_N z); simpl; [discriminate|apply Unsigned.to_uint_nonnil].
Qed.

Lemma formatDecimal_head (d : N) (ds : jsstring) (n : Z) :
  isWhiteSpace d = false ->
  exists c t, formatDecimal (d :: ds) n = c :: t /\ isWhiteSpace c = false.
Proof.
  intros Hd. unfold formatDecimal.
  destruct ((Z.of_nat (length (d :: ds)) <=? n)%Z && (n <=? 21)%Z);
    [head_found|].
  destruct ((0 <? n)%Z && (n <=? 21)%Z) eqn:Hn.
  - apply andb_true_iff in Hn as [Hn _]. apply Z.ltb_lt in Hn.
    destruct (Z.to_nat n) eqn:E; [lia|]. head_found.
  - destruct ((-6 <? n)%Z && (n <=? 0)%Z).
    + exists 48%N. eexists. split; reflexivity.
    + destruct ds; do 2 eexists; (split; [reflexivity|assumption]).
Qed.

Lemma positiveToString_head (m : positive) (e : Z) :
  exists c t, positiveToString m e = c :: t /\ isWhiteSpace c = false.
Proof.
  unfold positiveToString.
  destruct (shortest _ _ _ _ _ _) as [c k].
  destruct (c =? 10 ^ k)%Z.
  - now apply formatDecimal_head.
  - destruct (digitsOfZ_head c) as (d & ds & -> & Hd). now apply formatDecimal_head.
Qed.

(** A Number printed starts with a code unit that is no white space. *)
Lemma numberToString_head (x : number) :
  exists c t, numberToString x = c :: t /\ isWhiteSpace c = false.
Proof.
  destruct x as [s|s| |s m e]; simpl; try head_found.
  - destruct s; head_found.
  - destruct s; [head_found|]. apply positiveToString_head.
Qed.

(** The test of the required case, value by value. *)
Lemma required_fails (v : prim) :
  negb (truthy v) || strEq (trim (toString v)) []
  = match v with
    | PUndefined | PNull => true
    | PBool b => negb b
    | PNum x => isZero x || isNaN x
    | PStr s => forallb isWhiteSpace s
    end.
Proof.
  destruct v as [| |b|x|s]; simpl; try reflexivity.
  - now destruct b.
  - destruct (numberToString_head x) as (c & t & -> & Hc).
    rewrite trim_head by assumption. rewrite negb_involutive. apply orb_false_r.
  - rewrite trim_nil. destruct s; simpl; [reflexivity|].
    reflexivity.
Qed.

(** *** Comparison of Numbers *)

Lemma SFcompare_antisym (x y : number) :
  SFcompare y x = option_map CompOpp (SFcompare x y).
Proof.
  destruct x as [s|s| |s m e], y as [s'|s'| |s' m' e']; simpl;
    try reflexivity;
    try (destruct s; reflexivity); try (destruct s'; reflexivity);
    try (destruct s, s'; reflexivity).
  destruct s, s'; simpl; try reflexivity;
    rewrite (Z.compare_antisym e e'); destruct (e ?= e')%Z; simpl; try reflexivity;
    rewrite !Pos.compare_cont_spec; simpl;
    rewrite (Pos.compare_antisym m m'); destruct (m ?= m')%positive; reflexivity.
Qed.

(** On Numbers that are not NaN, [y <= x] is the negation of [x < y]. *)
Lemma le_not_lt (x y : number) :
  isNaN x = false -> isNaN y = false -> le y x = negb (lt x y).
Proof.
  intros Hx Hy. unfold le, lt, SFleb, SFltb. rewrite (SFcompare_antisym x y).
  destruct (SFcompare x y) as [[]|] eqn:E; simpl; try reflexivity.
  destruct x, y; simpl in *; try discriminate;
    repeat match goal with s : bool |- _ => destruct s end; discriminate.
Qed.

Lemma le_true_not_lt (x y : number) : le y x = true -> lt x y = false.
Proof.
  unfold le, lt, SFleb, SFltb. rewrite (SFcompare_antisym x y).
  destruct (SFcompare x y) as [[]|]; simpl; congruence.
Qed.

Lemma le_true_not_nan (x y : number) : le y x = true -> isNaN x = false.
Proof.
  unfold le, SFleb. destruct y, x; simpl; try reflexivity; discriminate.
Qed.

(** *** One value shared, under the built-in registry *)

Lemma flat_map_nil {A B} (f : A -> list B) (l : list A) :
  (forall v, In v l -> f v = []) -> flat_map f l = [].
Proof.
  induction l as [|a l IH]; simpl; [easy|].
  intros H. rewrite (H a), IH; auto.
Qed.

(** When one key of pairwise different keys is the only one with
    something to report, the report is the one of that key. *)
Lemma flat_map_single {B} (f : prim -> list B) (k : prim) (l : list prim) :
  pairwiseDistinct l = true -> In k l ->
  (forall v, In v l -> primSame v k = false -> f v = []) ->
  flat_map f l = f k.
Proof.
  induction l as [|a l IH]; simpl; [easy|].
  intros [Ha Hl]%andb_true_iff Hin Hf. rewrite forallb_forall in Ha.
  destruct (primSame a k) eqn:Hak.
  - assert (Hrest : flat_map f l = []).
    { apply flat_map_nil. intros v Hv. apply Hf; [now right|].
      specialize (Ha v Hv). apply negb_true_iff in Ha.
      rewrite primSame_sym, <- (primSame_true_l a k v Hak). exact Ha. }
    rewrite Hrest, app_nil_r.
    destruct Hin as [->|Hin]; [reflexivity|].
    specialize (Ha k Hin). apply negb_true_iff in Ha.
    rewrite Ha in Hak. discriminate.
  - rewrite (Hf a) by (simpl; tauto). simpl.
    destruct Hin as [->|Hin]; [rewrite primSame_refl in Hak; discriminate|].
    apply IH; auto.
Qed.

Lemma existsb_In_same (k : prim) (l : list prim) :
  existsb (fun k' => primSame k' k) l = true ->
  exists v, In v l /\ primSame v k = true.
Proof. intros H. apply existsb_exists in H. exact H. Qed.

(** In the built-in registry only the duplicate rule has the id
    [duplicate-ids]. *)
Lemma initialRules_duplicate_id (e : ValidationError) (t : RuleKind) :
  In (ruleId e, t) (map ruleMeta initialRules) -> t <> Duplicate ->
  strEq (ruleId e) (js "duplicate-ids") = false.
Proof.
  simpl. unfold ruleMeta. simpl.
  intros H Ht.
  repeat (destruct H as [H|H]; [injection H as <- <-; first [reflexivity | congruence]|]).
  destruct H.
Qed.

(** When one client id is shared and no other is, the errors appended
    are the group of that id. *)
Lemma duplicates_of_one_value (data : list Row) (s : jsstring) (group : list nat) :
  group <> [] ->
  affectedRows data (PStr s) = group ->
  forallb (fun v => primSame v (PStr s) || (length (affectedRows data v) <? 2)%nat)
    (distinctValues data) = true ->
  flat_map (fun v => duplicateGroup v (affectedRows data v)) (distinctValues data)
  = duplicateGroup (PStr s) group.
Proof.
  intros Hne H1 H2. rewrite <- H1.
  apply (flat_map_single (fun v => duplicateGroup v (affectedRows data v)) (PStr s)).
  - apply distinct_pairwise.
  - unfold distinctValues.
    destruct (existsb (fun k' => primSame k' (PStr s)) (map fst (clientIds data 0))) eqn:Hex.
    + rewrite <- existsb_distinct in Hex.
      apply existsb_In_same in Hex as (v & Hv & Hs).
      apply primSame_str in Hs. now subst.
    + apply rowsOf_none in Hex. unfold affectedRows in H1. congruence.
  - intros v Hv Hs. rewrite forallb_forall in H2. specialize (H2 v Hv).
    rewrite Hs in H2. simpl in H2. apply Nat.ltb_lt in H2.
    unfold duplicateGroup. destruct (2 <=? _)%nat eqn:E; [|reflexivity].
    apply Nat.leb_le in E. lia.
Qed.

Lemma filter_none {A} (p : A -> bool) (l : list A) :
  Forall (fun x => p x = false) l -> List.filter p l = [].
Proof.
  induction 1 as [|x l Hx Hl IH]; simpl; [easy|]. now rewrite Hx.
Qed.


(** *** The host: the fuel is enough, and examples *)

Lemma skipWs_length (s : jsstring) : length (skipWs s) <= length s.
Proof.
  induction s as [|c s IH]; simpl; [lia|].
  destruct (_ || _)%bool; simpl; lia.
Qed.

(** The parsers of [JSON.parse] consume input. *)
Lemma parseChars_length (s acc str r : jsstring) :
  parseChars s acc = Some (str, r) -> length r < length s.
Proof.
  remember (length s) as n eqn:Hn.
  assert (Hle : length s <= n) by lia. clear Hn.
  revert s acc Hle. induction n as [|n IH]; intros s acc Hle.
  - destruct s; simpl in *; [discriminate|lia].
  - destruct s as [|c s]; simpl in *; [discriminate|].
    destruct (c =? 34)%N; [intros [= _ <-]; lia|].
    destruct (c <? 32)%N; [discriminate|].
    destruct (c =? 92)%N.
    + destruct s as [|e s]; [discriminate|].
      destruct (e =? 117)%N.
      * destruct s as [|h1 [|h2 [|h3 [|h4 s]]]]; try discriminate.
        destruct (hex4 h1 h2 h3 h4); [|discriminate].
        intros H. apply IH in H; simpl in *; lia.
      * destruct (simpleEscape e); [|discriminate].
        intros H. apply IH in H; simpl in *; lia.
    + intros H. apply IH in H; simpl in *; lia.
Qed.

Lemma spanDigits_length (s d r : jsstring) :
  spanDigits s = (d, r) -> length s = length d + length r.
Proof.
  revert d r. induction s as [|c s IH]; simpl; intros d r.
  - intros [= <- <-]. reflexivity.
  - destruct (isDigit c).
    + destruct (spanDigits s) as [d' r'] eqn:E. intros [= <- <-].
      simpl. rewrite (IH d' r' eq_refl). reflexivity.
    + intros [= <- <-]. reflexivity.
Qed.

Lemma exponentPart_length (s r : jsstring) (ex : Z) :
  exponentPart s = (ex, r) -> length r <= length s.
Proof.
  unfold exponentPart. destruct s as [|c t]; [intros [= _ <-]; lia|].
  destruct (_ || _)%bool; [|intros [= _ <-]; lia].
  destruct (match t with [] => _ | _ => _ end) as [neg t'] eqn:Et.
  assert (Ht : length t' <= length t).
  { destruct t as [|sg u]; [injection Et as _ <-; lia|].
    destruct (sg =? 45)%N; [injection Et as _ <-; simpl; lia|].
    destruct (sg =? 43)%N; injection Et as _ <-; simpl; lia. }
  destruct (spanDigits t') as [d r'] eqn:Ed.
  apply spanDigits_length in Ed.
  destruct d; intros [= _ <-]; simpl in *; lia.
Qed.

Lemma parseNumber_length (s r : jsstring) (x : number) :
  parseNumber s = Some (x, r) -> length r < length s.
Proof.
  unfold parseNumber.
  destruct (match s with [] => _ | _ => _ end) as [neg u] eqn:Eu.
  assert (Hu : length u <= length s).
  { destruct s as [|c t]; [injection Eu as _ <-; lia|].
    destruct (c =? 45)%N; injection Eu as _ <-; simpl; lia. }
  destruct (match u with [] => None | _ => _ end) as [[ip r1]|] eqn:Ei;
    [|discriminate].
  assert (H1 : length r1 < length u).
  { destruct u as [|c t]; [discriminate|].
    destruct (c =? 48)%N; [injection Ei as _ <-; simpl; lia|].
    destruct (isDigit c) eqn:Hc; [|discriminate].
    injection Ei as Ei. simpl in Ei. rewrite Hc in Ei.
    destruct (spanDigits t) as [d' r'] eqn:E. injection Ei as _ <-.
    apply spanDigits_length in E. simpl. lia. }
  destruct (match r1 with [] => _ | _ => _ end) as [[fp r2]|] eqn:Ef;
    [|discriminate].
  assert (H2 : length r2 <= length r1).
  { destruct r1 as [|c t]; [injection Ef as _ <-; lia|].
    destruct (c =? 46)%N; [|injection Ef as _ <-; lia].
    destruct (spanDigits t) as [f r'] eqn:E. apply spanDigits_length in E.
    destruct f; [discriminate|]. injection Ef as _ <-. simpl in *. lia. }
  destruct (match r2 with [] => _ | _ => _ end) as [[ex r3]|] eqn:Ee;
    [|discriminate].
  assert (H3 : length r3 <= length r2).
  { destruct r2 as [|c t]; [injection Ee as _ <-; lia|].
    destruct (_ || _)%bool; [|injection Ee as _ <-; lia].
    destruct (exponentPart (c :: t)) as [ex' r'] eqn:E.
    apply exponentPart_length in E.
    destruct (length r' <? length (c :: t)); [|discriminate].
    injection Ee as _ <-. lia. }
  intros [= _ <-]. lia.
Qed.

Lemma startsWith_length (p s : jsstring) :
  startsWith p s = true -> length p <= length s.
Proof.
  revert s. induction p as [|a p IH]; intros [|b s]; simpl; try lia; try discriminate.
  intros [_ H]%andb_true_iff. apply IH in H. lia.
Qed.

Lemma skipWs_cons_length (s t : jsstring) (c : N) :
  skipWs s = c :: t -> length t < length s.
Proof. intros H. pose proof (skipWs_length s) as L. rewrite H in L. simpl in L. lia. Qed.

(** A value, the elements of an array and the members of an object all
    consume input. *)
Lemma parse_shorter (n : nat) :
  (forall s, shorter (parseValue n s) s)
  /\ (forall s acc, shorter (parseElements n s acc) s)
  /\ (forall s acc, shorter (parseMembers n s acc) s).
Proof.
  induction n as [|n (IHv & IHe & IHm)]; [repeat split; intros; exact I|].
  split; [|split].
  - intros s. cbn -[drop startsWith js skipWs parseNumber parseChars].
    destruct (skipWs s) as [|c t] eqn:Es; [exact I|].
    apply skipWs_cons_length in Es.
    destruct (c =? 91)%N.
    { destruct (skipWs t) as [|d r] eqn:Et; [exact I|].
      apply skipWs_cons_length in Et.
      destruct (d =? 93)%N; [simpl; lia|].
      specialize (IHe t []). destruct (parseElements n t []) as [[v r']|]; simpl in *; lia. }
    destruct (c =? 123)%N.
    { destruct (skipWs t) as [|d r] eqn:Et; [exact I|].
      apply skipWs_cons_length in Et.
      destruct (d =? 125)%N; [simpl; lia|].
      specialize (IHm t []). destruct (parseMembers n t []) as [[v r']|]; simpl in *; lia. }
    destruct (c =? 34)%N.
    { destruct (parseChars t []) as [[str r]|] eqn:Ec; [|exact I].
      apply parseChars_length in Ec. simpl. lia. }
    destruct ((c =? 45)%N || isDigit c)%bool.
    { destruct (parseNumber (c :: t)) as [[x r]|] eqn:Ep; [|exact I].
      apply parseNumber_length in Ep. simpl in *. lia. }
    destruct (startsWith (js "null") (c :: t)) eqn:E1.
    { apply startsWith_length in E1. unfold shorter. rewrite length_drop. simpl in *. lia. }
    destruct (startsWith (js "true") (c :: t)) eqn:E2.
    { apply startsWith_length in E2. unfold shorter. rewrite length_drop. simpl in *. lia. }
    destruct (startsWith (js "false") (c :: t)) eqn:E3; [|exact I].
    apply startsWith_length in E3. unfold shorter. rewrite length_drop. simpl in *. lia.
  - intros s acc. simpl.
    specialize (IHv s). destruct (parseValue n s) as [[v r]|]; [|exact I].
    simpl in IHv.
    destruct (skipWs r) as [|d r'] eqn:Er; [exact I|].
    apply skipWs_cons_length in Er.
    destruct (d =? 44)%N.
    { specialize (IHe r' (v :: acc)).
      destruct (parseElements n r' (v :: acc)) as [[v' r'']|]; simpl in *; lia. }
    destruct (d =? 93)%N; simpl; [lia|exact I].
  - intros s acc. simpl.
    destruct (skipWs s) as [|q t] eqn:Es; [exact I|].
    apply skipWs_cons_length in Es.
    destruct (q =? 34)%N; [|exact I].
    destruct (parseChars t []) as [[key r]|] eqn:Ec; [|exact I].
    apply parseChars_length in Ec.
    destruct (skipWs r) as [|col r'] eqn:Er; [exact I|].
    apply skipWs_cons_length in Er.
    destruct (col =? 58)%N; [|exact I].
    specialize (IHv r'). destruct (parseValue n r') as [[v r'']|]; [|exact I].
    simpl in IHv.
    destruct (skipWs r'') as [|d r3] eqn:Er3; [exact I|].
    apply skipWs_cons_length in Er3.
    destruct (d =? 44)%N.
    { specialize (IHm r3 ((key, v) :: acc)).
      destruct (parseMembers n r3 ((key, v) :: acc)) as [[v' r4]|]; simpl in *; lia. }
    destruct (d =? 125)%N; simpl; [lia|exact I].
Qed.

(** From two units of fuel per code unit on, one more unit changes
    nothing. *)
Lemma parse_stable (n : nat) :
  (forall s, 2 * length s + 2 <= n -> parseValue (S n) s = parseValue n s)
  /\ (forall s acc, 2 * length s + 3 <= n ->
        parseElements (S n) s acc = parseElements n s acc)
  /\ (forall s acc, 2 * length s + 3 <= n ->
        parseMembers (S n) s acc = parseMembers n s acc).
Proof.
  induction n as [|n (IHv & IHe & IHm)]; [repeat split; intros; lia|].
  split; [|split].
  - intros s Hn.
    change (parseValue (S (S n)) s) with
      (match skipWs s with
       | [] => None
       | c :: t =>
           if (c =? 91)%N then
             match skipWs t with
             | d :: r => if (d =? 93)%N then Some (JArr [], r)
                         else parseElements (S n) t []
             | [] => None
             end
           else if (c =? 123)%N then
             match skipWs t with
             | d :: r => if (d =? 125)%N then Some (JObj [], r)
                         else parseMembers (S n) t []
             | [] => None
             end
           else if (c =? 34)%N then
             match parseChars t [] with
             | Some (str, r) => Some (JStr str, r)
             | None => None
             end
           else if ((c =? 45)%N || isDigit c)%bool then
             match parseNumber (c :: t) with
             | Some (x, r) => Some (JNum x, r)
             | None => None
             end
           else if startsWith (js "null") (c :: t) then
             Some (JNull, drop 4 (c :: t))
           else if startsWith (js "true") (c :: t) then
             Some (JBool true, drop 4 (c :: t))
           else if startsWith (js "false") (c :: t) then
             Some (JBool false, drop 5 (c :: t))
           else None
       end).
    change (parseValue (S n) s) with
      (match skipWs s with
       | [] => None
       | c :: t =>
           if (c =? 91)%N then
             match skipWs t with
             | d :: r => if (d =? 93)%N then Some (JArr [], r)
                         else parseElements n t []
             | [] => None
             end
           else if (c =? 123)%N then
             match skipWs t with
             | d :: r => if (d =? 125)%N then Some (JObj [], r)
                         else parseMembers n t []
             | [] => None
             end
           else if (c =? 34)%N then
             match parseChars t [] with
             | Some (str, r) => Some (JStr str, r)
             | None => None
             end
           else if ((c =? 45)%N || isDigit c)%bool then
             match parseNumber (c :: t) with
             | Some (x, r) => Some (JNum x, r)
             | None => None
             end
           else if startsWith (js "null") (c :: t) then
             Some (JNull, drop 4 (c :: t))
           else if startsWith (js "true") (c :: t) then
             Some (JBool true, drop 4 (c :: t))
           else if startsWith (js "false") (c :: t) then
             Some (JBool false, drop 5 (c :: t))
           else None
       end).
    destruct (skipWs s) as [|c t] eqn:Es; [reflexivity|].
    apply skipWs_cons_length in Es.
    rewrite (IHe t []) by lia. rewrite (IHm t []) by lia. reflexivity.
  - intros s acc Hn.
    change (parseElements (S (S n)) s acc) with
      (match parseValue (S n) s with
       | None => None
       | Some (v, r) =>
           match skipWs r with
           | d :: r' =>
               if (d =? 44)%N then parseElements (S n) r' (v :: acc)
               else if (d =? 93)%N then Some (JArr (rev (v :: acc)), r')
               else None
           | [] => None
           end
       end).
    change (parseElements (S n) s acc) with
      (match parseValue n s with
       | None => None
       | Some (v, r) =>
           match skipWs r with
           | d :: r' =>
               if (d =? 44)%N then parseElements n r' (v :: acc)
               else if (d =? 93)%N then Some (JArr (rev (v :: acc)), r')
               else None
           | [] => None
           end
       end).
    rewrite (IHv s) by lia.
    pose proof (proj1 (parse_shorter n) s) as Hs.
    destruct (parseValue n s) as [[v r]|]; [|reflexivity]. simpl in Hs.
    destruct (skipWs r) as [|d r'] eqn:Er; [reflexivity|].
    apply skipWs_cons_length in Er.
    rewrite (IHe r' (v :: acc)) by lia. reflexivity.
  - intros s acc Hn.
    change (parseMembers (S (S n)) s acc) with
      (match skipWs s with
       | q :: t =>
           if (q =? 34)%N then
             match parseChars t [] with
             | None => None
             | Some (key, r) =>
                 match skipWs r with
                 | col :: r' =>
                     if (col =? 58)%N then
                       match parseValue (S n) r' with
                       | None => None
                       | Some (v, r'') =>
                           match skipWs r'' with
                           | d :: r3 =>
                               if (d =? 44)%N
                               then parseMembers (S n) r3 ((key, v) :: acc)
                               else if (d =? 125)%N
                               then Some (JObj (rev ((key, v) :: acc)), r3)
                               else None
                           | [] => None
                           end
                       end
                     else None
                 | [] => None
                 end
             end
           else None
       | [] => None
       end).
    change (parseMembers (S n) s acc) with
      (match skipWs s with
       | q :: t =>
           if (q =? 34)%N then
             match parseChars t [] with
             | None => None
             | Some (key, r) =>
                 match skipWs r with
                 | col :: r' =>
                     if (col =? 58)%N then
                       match parseValue n r' with
                       | None => None
                       | Some (v, r'') =>
                           match skipWs r'' with
                           | d :: r3 =>
                               if (d =? 44)%N
                               then parseMembers n r3 ((key, v) :: acc)
                               else if (d =? 125)%N
                               then Some (JObj (rev ((key, v) :: acc)), r3)
                               else None
                           | [] => None
                           end
                       end
                     else None
                 | [] => None
                 end
             end
           else None
       | [] => None
       end).
    destruct (skipWs s) as [|q t] eqn:Es; [reflexivity|].
    apply skipWs_cons_length in Es.
    destruct (q =? 34)%N; [|reflexivity].
    destruct (parseChars t []) as [[key r]|] eqn:Ec; [|reflexivity].
    apply parseChars_length in Ec.
    destruct (skipWs r) as [|col r'] eqn:Er; [reflexivity|].
    apply skipWs_cons_length in Er.
    destruct (col =? 58)%N; [|reflexivity].
    rewrite (IHv r') by lia.
    pose proof (proj1 (parse_shorter n) r') as Hs.
    destruct (parseValue n r') as [[v r'']|]; [|reflexivity]. simpl in Hs.
    destruct (skipWs r'') as [|d r3] eqn:Er3; [reflexivity|].
    apply skipWs_cons_length in Er3.
    rewrite (IHm r3 ((key, v) :: acc)) by lia. reflexivity.
Qed.

(** More fuel than [parseJSONString] gives changes nothing. *)
Lemma parseValue_enough_fuel (s : jsstring) (k : nat) :
  parseValue (2 * length s + 2 + k) s = parseValue (2 * length s + 2) s.
Proof.
  induction k as [|k IH]; [now rewrite Nat.add_0_r|].
  rewrite Nat.add_succ_r. rewrite (proj1 (parse_stable _)) by lia. exact IH.
Qed.

(** [advances] is reflexive and transitive, and an advance of the index
    shortens the input. *)
Lemma advances_refl (i : nat) (s : jsstring) : advances i s i s.
Proof. exists []. split; [reflexivity|simpl; lia]. Qed.

Lemma advances_trans (i j l : nat) (s t u : jsstring) :
  advances i s j t -> advances j t l u -> advances i s l u.
Proof.
  intros (p & -> & ->) (q & -> & ->). exists (p ++ q).
  rewrite <- app_assoc, length_app. split; [reflexivity|lia].
Qed.

Lemma advances_length (i j : nat) (s t : jsstring) :
  advances i s j t -> i < j -> length t < length s.
Proof.
  intros (p & -> & ->) H. rewrite length_app. destruct p; simpl in *; lia.
Qed.

(** A match only looks at its continuation where the input has
    advanced. *)
Lemma matchAt_ext (r : regex) :
  forall (i : nat) (s : jsstring) (k k' : nat -> jsstring -> option nat),
    (forall j t, advances i s j t -> k j t = k' j t) ->
    matchAt r i s k = matchAt r i s k'.
Proof.
  induction r as [|p|a IHa b IHb|a IHa b IHb|a IHa| |]; intros i s k k' Hk; simpl.
  - apply Hk, advances_refl.
  - destruct s as [|c t]; [reflexivity|]. destruct (p c); [|reflexivity].
    apply Hk. exists [c]. split; [reflexivity|simpl; lia].
  - apply IHa. intros j t Hjt. apply IHb. intros l u Hlu.
    apply Hk. eapply advances_trans; eassumption.
  - rewrite (IHa i s k k' Hk), (IHb i s k k' Hk). reflexivity.
  - generalize (length s) as n. intros n.
    assert (H : forall j t, advances i s j t ->
              starLoop (matchAt a) k n j t = starLoop (matchAt a) k' n j t);
      [|apply H, advances_refl].
    induction n as [|n IHn]; intros j t Hjt; simpl; [now apply Hk|].
    rewrite (IHa j t _ (fun l u => if j <? l then starLoop (matchAt a) k' n l u
                                   else None)).
    + rewrite (Hk j t Hjt). reflexivity.
    + intros l u Hlu. destruct (j <? l); [|reflexivity].
      apply IHn. eapply advances_trans; eassumption.
  - destruct (i =? 0); [|reflexivity]. apply Hk, advances_refl.
  - destruct s; [|reflexivity]. apply Hk, advances_refl.
Qed.

(** Nothing matches when the continuation always fails. *)
Lemma matchAt_none (r : regex) :
  forall (i : nat) (s : jsstring), matchAt r i s (fun _ _ => None) = None.
Proof.
  induction r as [|p|a IHa b IHb|a IHa b IHb|a IHa| |]; intros i s; simpl.
  - reflexivity.
  - destruct s as [|c t]; [reflexivity|]. now destruct (p c).
  - rewrite (matchAt_ext a i s _ (fun _ _ => None)); [apply IHa|].
    intros j t _. apply IHb.
  - now rewrite IHa, IHb.
  - generalize (length s) as n. intros n. revert i s.
    induction n as [|n IHn]; intros i s; simpl; [reflexivity|].
    rewrite (matchAt_ext a i s _ (fun _ _ => None)); [now rewrite IHa|].
    intros j t _. destruct (i <? j); [apply IHn|reflexivity].
  - now destruct (i =? 0).
  - now destruct s.
Qed.

(** A star never needs more iterations than there are code units left. *)
Lemma starLoop_stable (a : regex) (k : nat -> jsstring -> option nat)
    (n i : nat) (s : jsstring) :
  length s <= n ->
  starLoop (matchAt a) k (S n) i s = starLoop (matchAt a) k n i s.
Proof.
  revert i s. induction n as [|n IH]; intros i s Hn.
  - simpl. destruct s; [|simpl in Hn; lia].
    rewrite (matchAt_ext a i [] _ (fun _ _ => None)).
    + now rewrite matchAt_none.
    + intros j t Hjt. destruct (i <? j) eqn:E; [|reflexivity].
      apply Nat.ltb_lt in E. apply advances_length in Hjt; [|assumption].
      simpl in Hjt. lia.
  - change (starLoop (matchAt a) k (S (S n)) i s) with
      (match matchAt a i s
               (fun j t => if i <? j then starLoop (matchAt a) k (S n) j t
                           else None) with
       | Some e => Some e
       | None => k i s
       end).
    change (starLoop (matchAt a) k (S n) i s) with
      (match matchAt a i s
               (fun j t => if i <? j then starLoop (matchAt a) k n j t
                           else None) with
       | Some e => Some e
       | None => k i s
       end).
    rewrite (matchAt_ext a i s _
               (fun j t => if i <? j then starLoop (matchAt a) k n j t else None));
      [reflexivity|].
    intros j t Hjt. destruct (i <? j) eqn:E; [|reflexivity].
    apply Nat.ltb_lt in E. apply advances_length in Hjt; [|assumption].
    apply IH. lia.
Qed.

(** The search of [test] needs no more fuel than the length of the
    string. *)
Lemma searchFrom_stable (r : regex) (stick : bool) (S0 : jsstring)
    (fuel i : nat) :
  length S0 <= fuel + i ->
  searchFrom (S fuel) r stick S0 i = searchFrom fuel r stick S0 i.
Proof.
  revert i. induction fuel as [|fuel IH]; intros i Hf.
  - simpl. destruct (length S0 <? i) eqn:E; [reflexivity|].
    destruct (matchAt _ _ _ _); [reflexivity|].
    destruct stick; [reflexivity|].
    apply Nat.ltb_ge in E.
    assert (Hlt : (length S0 <? S i) = true) by (apply Nat.ltb_lt; lia).
    now rewrite Hlt.
  - change (searchFrom (S (S fuel)) r stick S0 i) with
      (if length S0 <? i then None
       else match matchAt r i (drop i S0) (fun j _ => Some j) with
            | Some e => Some e
            | None => if stick then None
                      else searchFrom (S fuel) r stick S0 (S i)
            end).
    change (searchFrom (S fuel) r stick S0 i) with
      (if length S0 <? i then None
       else match matchAt r i (drop i S0) (fun j _ => Some j) with
            | Some e => Some e
            | None => if stick then None
                      else searchFrom fuel r stick S0 (S i)
            end).
    rewrite (IH (S i)) by lia. reflexivity.
Qed.

Example parseFloat_examples :
  map (fun s => numberToString (parseFloatString (js s)))
    ["150"; "abc"; " 12.5e1x"; "-.5"; "5."; "."; "1e"; "0x10"; "1.5.3";
     "Infinity"; "-Infinityx"; ""]%string
  = map js ["150"; "NaN"; "125"; "-0.5"; "5"; "NaN"; "1"; "0"; "1.5";
            "Infinity"; "-Infinity"; "NaN"]%string.
Proof. vm_compute; reflexivity. Qed.

Example numberToString_examples :
  map (fun p => numberToString (decimalToNumber false (fst p) (snd p)))
    [(1, -1); (1, 21); (123456789012345680000, 0); (1, -6); (1, -7);
     (30000000000000004, -17); (9007199254740993, 0); (5, -324)]%Z
  = map js ["0.1"; "1e+21"; "123456789012345680000"; "0.000001"; "1e-7";
            "0.30000000000000004"; "9007199254740992"; "5e-324"]%string.
Proof. vm_compute; reflexivity. Qed.

Example emailPattern_examples :
  map (fun s => testLiteral emailPattern (js s))
    ["a@b.c"; "a@b"; "a@b.c.d"; "a@@b.c"; "a b@c.d"; "@b.c"; "a@b."; ""]%string
  = [true; false; true; false; false; false; false; false].
Proof. vm_compute; reflexivity. Qed.

Example phonePattern_examples :
  map (fun s => testLiteral phonePattern (removeAll phoneSeparator (js s)))
    ["+1 (555) 123-4567"; "0123"; "12345678901234567"; "1234567890123456";
     "+"; "12a"]%string
  = [true; false; false; true; false; false].
Proof. vm_compute; reflexivity. Qed.

Example skillPattern_examples :
  map (fun s => testLiteral skillPattern (js s))
    ["[a,b]"; "[]"; "a,b"; "[a"; "x[a]"]%string
  = [true; true; false; false; false].
Proof. vm_compute; reflexivity. Qed.

Example parseJsonArray_examples :
  map (fun s => parseJsonArray (PStr (js s)))
    ["[1, true, null]"; "T1"; "5"; "0"; "null"; "{}"; "[1,]"; " [ ] "]%string
  = [ JArr [JNum (ofZ 1); JBool true; JNull]; JArr []; JNum (ofZ 5); JArr [];
      JArr []; JObj []; JArr []; JArr [] ].
Proof. vm_compute; reflexivity. Qed.

Example mathRound_examples :
  map (fun z => mathRound (decimalToNumber false z (-1))) [5; 4; 25; 995]%Z
  = map ofZ [1; 0; 3; 100]%Z.
Proof. vm_compute; reflexivity. Qed.

(** *** The string form of parsed values *)

Lemma json_nested_ind (P : json -> Prop) :
  P JNull -> (forall b, P (JBool b)) -> (forall x, P (JNum x)) ->
  (forall s, P (JStr s)) ->
  (forall l, List.Forall P l -> P (JArr l)) ->
  (forall members, P (JObj members)) ->
  forall v, P v.
Proof.
  intros Hnull Hbool Hnum Hstr Harr Hobj.
  fix IH 1.
  intros [|b|x|s|l|members];
    [exact Hnull|apply Hbool|apply Hnum|apply Hstr| |apply Hobj].
  apply Harr. induction l as [|x l IHl]; constructor; [apply IH|exact IHl].
Qed.

Lemma joinMay_None {A} (f : A -> option jsstring) (sep : jsstring)
    (l : list A) :
  joinMay f sep l = None <-> exists x, In x l /\ f x = None.
Proof.
  induction l as [|x l IH].
  - simpl. split; [discriminate|]. now intros (x & [] & _).
  - change (joinMay f sep (x :: l))
      with (match f x with
            | None => None
            | Some s =>
                match l with
                | [] => Some s
                | _ :: _ =>
                    match joinMay f sep l with
                    | Some rest => Some (s ++ sep ++ rest)
                    | None => None
                    end
                end
            end).
    destruct (f x) as [s|] eqn:Hx.
    + destruct l as [|y l].
      * split; [discriminate|]. intros (z & [<-|[]] & Hz). congruence.
      * destruct (joinMay f sep (y :: l)) eqn:Hj.
        -- split; [discriminate|]. intros (z & [<-|Hin] & Hz); [congruence|].
           assert (@None jsstring = None) as _ by reflexivity.
           destruct IH as [_ IH]. discriminate IH. now exists z.
        -- split; [|reflexivity]. intros _.
           destruct IH as [IH _]. destruct (IH eq_refl) as (z & Hin & Hz).
           exists z. split; [now right|exact Hz].
    + split; [|reflexivity]. intros _. exists x. split; [now left|exact Hx].
Qed.

Lemma joinMay_Some {A} (g : A -> jsstring) (sep : jsstring) (l : list A) :
  joinMay (fun x => Some (g x)) sep l = Some (joinWith g sep l).
Proof.
  induction l as [|x l IH]; [reflexivity|].
  destruct l as [|y l]; [reflexivity|].
  change (joinMay (fun x => Some (g x)) sep (x :: y :: l))
    with (match joinMay (fun x => Some (g x)) sep (y :: l) with
          | Some rest => Some (g x ++ sep ++ rest)
          | None => None
          end).
  now rewrite IH.
Qed.

Lemma joinMay_ext {A} (f g : A -> option jsstring) (sep : jsstring)
    (l : list A) :
  (forall x, In x l -> f x = g x) -> joinMay f sep l = joinMay g sep l.
Proof.
  induction l as [|x l IH]; [reflexivity|]. intros H.
  change (joinMay f sep (x :: l))
    with (match f x with
          | None => None
          | Some s =>
              match l with
              | [] => Some s
              | _ :: _ =>
                  match joinMay f sep l with
                  | Some rest => Some (s ++ sep ++ rest)
                  | None => None
                  end
              end
          end).
  rewrite (H x (or_introl eq_refl)), IH by (intros; apply H; now right).
  reflexivity.
Qed.

Lemma hasOwn_In (members : list (jsstring * json)) (key : jsstring) :
  hasOwn members key = true <-> exists v, In (key, v) members.
Proof.
  unfold hasOwn. rewrite existsb_exists. split.
  - intros ([k v] & Hin & Hk). apply strEq_eq in Hk. simpl in Hk. subst k.
    now exists v.
  - intros (v & Hin). exists (key, v). split; [exact Hin|apply strEq_refl].
Qed.

Lemma elementToString_jsonToString (x : json) :
  elementToString x = None <-> jsonToString x = None.
Proof. destruct x; simpl; split; congruence. Qed.

(** [ToString] throws exactly on the values without a string form. *)
Lemma jsonToString_None (v : json) : jsonToString v = None <-> Unprintable v.
Proof.
  induction v as [|b|x|s|l IH|members] using json_nested_ind;
    try (split; [discriminate|now inversion 1]).
  - change (jsonToString (JArr l))
      with (joinMay (fun x => match x with
                              | JNull => Some []
                              | _ => jsonToString x
                              end) (js ",") l).
    rewrite (joinMay_ext _ elementToString)
      by (intros x _; now destruct x).
    rewrite joinMay_None. rewrite List.Forall_forall in IH. split.
    + intros (x & Hin & Hx). apply elementToString_jsonToString in Hx.
      apply (Unprintable_array l x Hin). now apply IH.
    + inversion 1 as [|l' x Hin Hx]; subst. exists x. split; [exact Hin|].
      apply elementToString_jsonToString. now apply IH.
  - simpl. destruct (hasOwn members (js "toString")) eqn:Ho.
    + split; [|reflexivity]. intros _. apply hasOwn_In in Ho as [v Hv].
      now apply (Unprintable_object members v).
    + split; [discriminate|]. inversion 1 as [m v Hin|]; subst.
      assert (hasOwn members (js "toString") = true)
        by (apply hasOwn_In; now exists v).
      congruence.
Qed.

Lemma elementToString_None (x : json) :
  elementToString x = None <-> Unprintable x.
Proof. now rewrite elementToString_jsonToString, jsonToString_None. Qed.

(** [join] throws exactly when an element has no string form. *)
Lemma join_None (l : list json) :
  joinMay elementToString (js ", ") l = None
  <-> exists x, In x l /\ Unprintable x.
Proof.
  rewrite joinMay_None. split; intros (x & Hin & Hx); exists x;
    (split; [exact Hin|now apply elementToString_None]).
Qed.

Lemma join_strings (names : list jsstring) :
  joinMay elementToString (js ", ") (map JStr names)
  = Some (joinWith (fun id => id) (js ", ") names).
Proof.
  rewrite (joinMay_ext _ (fun x => Some (match x with
                                         | JStr s => s
                                         | _ => []
                                         end))).
  - rewrite joinMay_Some. f_equal.
    induction names as [|a names IH]; [reflexivity|].
    destruct names as [|b names]; [reflexivity|].
    change (a ++ js ", " ++ joinWith (fun x => match x with
                                               | JStr s => s
                                               | _ => []
                                               end) (js ", ")
                              (map JStr (b :: names))
            = a ++ js ", " ++ joinWith (fun id => id) (js ", ") (b :: names)).
    now rewrite IH.
  - intros x [s [<- _]]%in_map_iff. reflexivity.
Qed.

(** A value without a string form is an object or an array: it is in
    no reference set. *)
Lemma arrayIncludes_Unprintable (refs : list prim) (x : json) :
  Unprintable x -> arrayIncludes refs x = false.
Proof.
  intros Hx. unfold arrayIncludes. apply not_true_is_false.
  intros (a & _ & Ha)%existsb_exists. destruct Hx, a; discriminate.
Qed.

(** An id that is a string is in the reference set when the set holds
    that string. *)
Lemma arrayIncludes_string (refs : list prim) (id : jsstring) :
  arrayIncludes refs (JStr id) = true <-> In (PStr id) refs.
Proof.
  unfold arrayIncludes. rewrite existsb_exists. split.
  - intros (a & Hin & Ha). destruct a; try discriminate.
    apply strEq_eq in Ha. now subst.
  - intros Hin. exists (PStr id). split; [exact Hin|apply strEq_refl].
Qed.

(** *** The name of the file of tasks *)

Lemma startsWith_prefix (p s : jsstring) :
  startsWith p s = true <-> exists rest, s = p ++ rest.
Proof.
  revert s. induction p as [|a p IH]; intros s; simpl.
  - split; [now exists s|reflexivity].
  - destruct s as [|b s]; [split; [discriminate|now intros [? ?]]|].
    rewrite andb_true_iff, N.eqb_eq, IH. split.
    + intros [-> [rest ->]]. now exists rest.
    + intros [rest [= -> ->]]. split; [reflexivity|now exists rest].
Qed.

Lemma includes_infix (s p : jsstring) :
  includes s p = true <-> exists before after, s = before ++ p ++ after.
Proof.
  induction s as [|c s IH].
  - simpl. rewrite orb_false_r, startsWith_prefix. split.
    + intros [rest H]. now exists [], rest.
    + intros (before & after & H). destruct before; [now exists after|].
      discriminate.
  - change (includes (c :: s) p) with (startsWith p (c :: s) || includes s p).
    rewrite orb_true_iff, startsWith_prefix, IH. split.
    + intros [[rest H]|(before & after & H)].
      * now exists [], rest.
      * exists (c :: before), after. now rewrite H.
    + intros (before & after & H). destruct before as [|b before].
      * left. now exists after.
      * right. injection H as -> ->. now exists before, after.
Qed.

Lemma lowerUnit_cases (c : N) :
  (lowerUnit c = 116 <-> c = 84 \/ c = 116)%N
  /\ (lowerUnit c = 97 <-> c = 65 \/ c = 97)%N
  /\ (lowerUnit c = 115 <-> c = 83 \/ c = 115)%N
  /\ (lowerUnit c = 107 <-> c = 75 \/ c = 107 \/ c = 8490)%N.
Proof.
  unfold lowerUnit.
  destruct (65 <=? c)%N eqn:H1, (c <=? 90)%N eqn:H2,
           (192 <=? c)%N eqn:H3, (c <=? 222)%N eqn:H4,
           (c =? 215)%N eqn:H5, (c =? 8490)%N eqn:H6; simpl;
    rewrite ?N.leb_le, ?N.leb_gt, ?N.eqb_eq, ?N.eqb_neq in *; lia.
Qed.

(** The test of [getAllTaskIds] on a name is [mentionsTask]. *)
Lemma mentionsTask_includes (fileName : jsstring) :
  mentionsTask fileName <-> includes (toLowerCase fileName) (js "task") = true.
Proof.
  rewrite includes_infix. unfold toLowerCase, mentionsTask.
  change (js "task") with [116; 97; 115; 107]%N. split.
  - intros (before & after & t & a & s & k & -> & Ht & Ha & Hs & Hk).
    exists (map lowerUnit before), (map lowerUnit after).
    rewrite !map_app. simpl. repeat f_equal.
    + now apply (lowerUnit_cases t).
    + now apply (lowerUnit_cases a).
    + now apply (lowerUnit_cases s).
    + now apply (lowerUnit_cases k).
  - intros (before & after & H).
    apply map_eq_app in H as (before' & rest & -> & <- & H).
    destruct rest as [|t [|a [|s [|k after']]]]; try discriminate.
    injection H as Ht Ha Hs Hk H.
    exists before', after', t, a, s, k. split; [reflexivity|].
    repeat split.
    + now apply (lowerUnit_cases t).
    + now apply (lowerUnit_cases a).
    + now apply (lowerUnit_cases s).
    + now apply (lowerUnit_cases k).
Qed.

Lemma getAllTaskIds_none (files : list FileData) :
  (forall file, In file files -> ~ mentionsTask (name file)) ->
  getAllTaskIds files = [].
Proof.
  intros H. unfold getAllTaskIds.
  destruct (List.find _ files) as [f|] eqn:Hf; [|reflexivity].
  apply List.find_some in Hf as [Hin Hf].
  apply mentionsTask_includes in Hf. now destruct (H f Hin).
Qed.

Lemma getAllTaskIds_first (before after : list FileData) (file : FileData) :
  (forall g, In g before -> ~ mentionsTask (name g)) ->
  mentionsTask (name file) ->
  getAllTaskIds (before ++ file :: after)
  = List.filter truthy
      (map (fun row : Row => getField row (js "TaskID")) (data file)).
Proof.
  intros Hb Hf. unfold getAllTaskIds.
  induction before as [|g before IH]; simpl.
  - apply mentionsTask_includes in Hf. now rewrite Hf.
  - destruct (includes (toLowerCase (name g)) (js "task")) eqn:Hg.
    + apply mentionsTask_includes in Hg. destruct (Hb g); [now left|exact Hg].
    + apply IH. intros g' Hin. apply Hb. now right.
Qed.

Lemma filter_all {A} (p : A -> bool) (l : list A) :
  (forall x, In x l -> p x = true) -> List.filter p l = l.
Proof.
  induction l as [|x l IH]; simpl; intros H; [reflexivity|].
  rewrite (H x (or_introl eq_refl)), IH; [reflexivity|].
  intros; apply H; now right.
Qed.

(** *** Where [validateField] throws *)

(** The phone case calls [replace] on the value: a value that is
    present and is no string has no such method. *)
Lemma validateField_phone_fault (value : prim) (rule : ValidationRule)
    (i : nat) (r : Row) (files : option (list FileData)) :
  Rule.type rule = Phone -> truthy value = true ->
  (forall s, value <> PStr s) ->
  validateField value rule i r files = (Throw TypeError, rule).
Proof.
  intros Ht Hv Hs. unfold validateField. rewrite Ht, Hv.
  destruct value; try reflexivity. now destruct (Hs l).
Qed.

(** The reference case calls [filter] on what [parseJsonArray] returns:
    a JSON value that is truthy and no array has no such method. *)
Lemma validateField_reference_fault (value : prim) (rule : ValidationRule)
    (i : nat) (r : Row) (files : list FileData) (v : json) :
  Rule.type rule = Reference -> truthy value = true ->
  JSONparse value = Some v -> jsonTruthy v = true ->
  (forall ids, v <> JArr ids) ->
  validateField value rule i r (Some files) = (Throw TypeError, rule).
Proof.
  intros Ht Hv Hp Hj Ha. unfold validateField, parseJsonArray.
  rewrite Ht, Hv, Hp, Hj. destruct v; try reflexivity. now destruct (Ha l).
Qed.

(** The reference case calls [join] on the ids that are not found: an
    id without a string form is never found, and makes [join] throw. *)
Lemma validateField_join_fault (value : prim) (rule : ValidationRule)
    (i : nat) (r : Row) (files : list FileData) (ids : list json) (x : json) :
  Rule.type rule = Reference -> truthy value = true ->
  JSONparse value = Some (JArr ids) ->
  In x ids -> Unprintable x ->
  validateField value rule i r (Some files) = (Throw TypeError, rule).
Proof.
  intros Ht Hv Hp Hin Hx. unfold validateField, parseJsonArray.
  rewrite Ht, Hv, Hp. simpl.
  assert (Hf : In x (List.filter
                       (fun id => negb (arrayIncludes (getAllTaskIds files) id))
                       ids)).
  { apply List.filter_In. split; [exact Hin|].
    now rewrite arrayIncludes_Unprintable. }
  destruct (List.filter _ ids) as [|y invalid] eqn:Hl; [destruct Hf|].
  rewrite <- Hl in *. clear Hl.
  assert (Hj : joinMay elementToString (js ", ")
                 (List.filter
                    (fun id => negb (arrayIncludes (getAllTaskIds files) id))
                    ids) = None)
    by (apply join_None; now exists x).
  rewrite Hj. now destruct (List.filter _ ids).
Qed.

(** ** The claims *)

(** C1 (refuted by the code).  The claim: under the built-in registry
    [validateData] returns an error list for every table and never
    throws, also for a phone cell that is not a string and for a
    reference cell whose JSON value is not an array.  The code: a row
    whose [PhoneNumber] is a number makes [value.replace] fail, and a
    row whose [TaskIDs] is the text [5] makes [taskIds.filter] fail;
    both calls end with a TypeError. *)
Theorem C1_validate_throws :
  fst (validateData initialRules [numericPhone] [js "Name"; js "PhoneNumber"]
         (js "clients.xlsx") (Some [])) = Throw TypeError
  /\ fst (validateData initialRules [bareTaskIds] [js "Name"; js "TaskIDs"]
            (js "clients.csv") (Some [])) = Throw TypeError.
Proof. split; vm_compute; reflexivity. Qed.

(** C2, the claim as stated fails: the number 0 is present, is neither
    null nor a string, and the required rule still reports it. *)
Lemma C2_counterexample :
  requiredMissing (getField zeroName (js "Name")) = false
  /\ validateField (getField zeroName (js "Name")) requiredName 0 zeroName None
     = (Ok (Some {| row := 0; column := js "Name";
                    message := js "Client name is required";
                    severity := Error; ruleId := js "req-client-name" |}),
        requiredName).
Proof. split; vm_compute; reflexivity. Qed.

(** C2 (amended).  For every value and every rule of type [required],
    [validateField] returns an error exactly when the value is absent,
    null, false, the number 0 or NaN, or a string that is empty after
    trimming white space; every other value passes.  The error carries
    the row index, the field of the rule as column, and the message,
    severity and id of the rule. *)
Theorem C2_required_rule (value : prim) (rule : ValidationRule)
    (rowIndex : nat) (r : Row) (files : option (list FileData)) :
  Rule.type rule = Required ->
  validateField value rule rowIndex r files
  = (if requiredFails value
     then Ok (Some {| row := rowIndex; column := Rule.field rule;
                      message := Rule.message rule;
                      severity := Rule.severity rule;
                      ruleId := Rule.id rule |})
     else Ok None, rule).
Proof.
  intros Ht. unfold validateField. rewrite Ht, required_fails.
  assert (E : requiredFails value
              = match value with
                | PUndefined | PNull => true
                | PBool b => negb b
                | PNum x => isZero x || isNaN x
                | PStr s => forallb isWhiteSpace s
                end).
  { destruct value; simpl; try reflexivity. apply trim_nil. }
  rewrite E. now destruct (match value with PUndefined => _ | _ => _ end).
Qed.

Lemma C2_required_rule_witness :
  validateField (str "  ") requiredName 3 (rowOf [("Name"%string, str "  ")])
    None
  = (Ok (Some {| row := 3; column := js "Name";
                 message := js "Client name is required";
                 severity := Error; ruleId := js "req-client-name" |}),
     requiredName)
  /\ validateField (PNum (ofZ 7)) requiredName 3
       (rowOf [("Name"%string, PNum (ofZ 7))]) None
     = (Ok None, requiredName).
Proof.
  split.
  - exact (C2_required_rule (str "  ") requiredName 3 _ None eq_refl).
  - exact (C2_required_rule (PNum (ofZ 7)) requiredName 3 _ None eq_refl).
Defined.

(** C3.  Under the built-in registry the list returned is the per-row
    errors followed, for every distinct non-empty value of [ClientID] in
    the order of first occurrence, by one error per row that holds the
    value when there are two such rows or more; the rows of a value are
    the rows whose [ClientID] is not empty and is that value, and they
    ascend; each error has the id [duplicate-ids] and a message that
    lists all the rows of the value, counted from 1 and joined by a
    comma.  In particular, when C1 is the id of the rows 2 and 5 and no
    other id is shared, the errors appended are exactly two, for the
    rows 2 and 5, each with "rows 3, 6", and they are the only
    [duplicate-ids] errors of the list returned.  (Non-empty is the
    test of the code: the value is truthy.) *)
Theorem C3_duplicate_ids :
  (forall (data : list Row) (headers : list jsstring) (fileName : jsstring)
          (files : option (list FileData)),
      fst (validateData initialRules data headers fileName files)
      = match collect (calls data 0 files initialRules) with
        | Ok perRow =>
            Ok (perRow ++
                flat_map (fun v => duplicateGroup v (affectedRows data v))
                  (distinctValues data))
        | Throw e => Throw e
        end)
  /\ (forall (data : list Row) (v : prim) (i : nat),
        In i (affectedRows data v)
        <-> exists r : Row,
              data !! i = Some r
              /\ truthy (getField r (js "ClientID")) = true
              /\ primSame v (getField r (js "ClientID")) = true)
  /\ (forall (data : list Row) (v : prim),
        StronglySorted Nat.lt (affectedRows data v))
  /\ (forall data : list Row,
        affectedRows data (PStr (js "C1")) = [2; 5] ->
        forallb (fun v => primSame v (PStr (js "C1"))
                          || (length (affectedRows data v) <? 2)%nat)
          (distinctValues data) = true ->
        flat_map (fun v => duplicateGroup v (affectedRows data v))
          (distinctValues data)
        = [ {| row := 2; column := js "ClientID";
               message := js "Duplicate ID " ++ [34%N] ++ js "C1"
                            ++ [34%N] ++ js " found in rows 3, 6";
               severity := Error; ruleId := js "duplicate-ids" |};
            {| row := 5; column := js "ClientID";
               message := js "Duplicate ID " ++ [34%N] ++ js "C1"
                            ++ [34%N] ++ js " found in rows 3, 6";
               severity := Error; ruleId := js "duplicate-ids" |} ])
  /\ (forall (data : list Row) (headers : list jsstring) (fileName : jsstring)
             (files : option (list FileData)) (errs : list ValidationError),
        fst (validateData initialRules data headers fileName files) = Ok errs ->
        affectedRows data (PStr (js "C1")) = [2; 5] ->
        forallb (fun v => primSame v (PStr (js "C1"))
                          || (length (affectedRows data v) <? 2)%nat)
          (distinctValues data) = true ->
        List.filter (fun e => strEq (ruleId e) (js "duplicate-ids")) errs
        = [ {| row := 2; column := js "ClientID";
               message := js "Duplicate ID " ++ [34%N] ++ js "C1"
                            ++ [34%N] ++ js " found in rows 3, 6";
               severity := Error; ruleId := js "duplicate-ids" |};
            {| row := 5; column := js "ClientID";
               message := js "Duplicate ID " ++ [34%N] ++ js "C1"
                            ++ [34%N] ++ js " found in rows 3, 6";
               severity := Error; ruleId := js "duplicate-ids" |} ]).
Proof.
  assert (Hgen : forall data headers fileName files,
      fst (validateData initialRules data headers fileName files)
      = match collect (calls data 0 files initialRules) with
        | Ok perRow =>
            Ok (perRow ++
                flat_map (fun v => duplicateGroup v (affectedRows data v))
                  (distinctValues data))
        | Throw e => Throw e
        end).
  { intros. rewrite validateData_structure.
    unfold affectedRows, distinctValues. now rewrite tracked_initialRules. }
  split; [exact Hgen|]. split; [apply affectedRows_In|].
  split; [apply affectedRows_ascending|]. split.
  { intros data H1 H2.
    now rewrite (duplicates_of_one_value data (js "C1") [2; 5])
      by (assumption || discriminate). }
  intros data headers fileName files errs Hok H1 H2.
  rewrite Hgen in Hok.
  destruct (collect (calls data 0 files initialRules)) as [perRow|]
    eqn:Hc; [|discriminate].
  injection Hok as <-.
  rewrite (duplicates_of_one_value data (js "C1") [2; 5])
    by (assumption || discriminate).
  rewrite List.filter_app.
  apply calls_errors in Hc as [_ Hc].
  rewrite filter_none; [reflexivity|].
  eapply List.Forall_impl; [|exact Hc].
  intros e (_ & t & Hin & Ht). now apply (initialRules_duplicate_id e t).
Qed.

Lemma C3_duplicate_ids_witness :
  affectedRows sixClients (PStr (js "C1")) = [2; 5]
  /\ exists errs : list ValidationError,
       fst (validateData initialRules sixClients [js "Name"; js "ClientID"]
              (js "clients.csv") (Some [])) = Ok errs
       /\ List.filter (fun e => strEq (ruleId e) (js "duplicate-ids")) errs
          = [ {| row := 2; column := js "ClientID";
                 message := js "Duplicate ID " ++ [34%N] ++ js "C1"
                              ++ [34%N] ++ js " found in rows 3, 6";
                 severity := Error; ruleId := js "duplicate-ids" |};
              {| row := 5; column := js "ClientID";
                 message := js "Duplicate ID " ++ [34%N] ++ js "C1"
                              ++ [34%N] ++ js " found in rows 3, 6";
                 severity := Error; ruleId := js "duplicate-ids" |} ].
Proof.
  split; [vm_compute; reflexivity|].
  eexists. split; [vm_compute; reflexivity|].
  apply (proj2 (proj2 (proj2 (proj2 C3_duplicate_ids))) sixClients
           [js "Name"; js "ClientID"]
           (js "clients.csv") (Some [])); vm_compute; reflexivity.
Defined.

(** C4 (refuted by the code).  The claim: with a second rule of type
    [duplicate] in the registry, each duplicate rule tracks its own
    field and appends its own errors, with its field as column and its
    id as ruleId.  The code keeps one tracker for all of them and writes
    the column [ClientID] and the id [duplicate-ids] into every error:
    two rows that share an email are reported under [ClientID] and
    [duplicate-ids], and a client id equal to the email of another row
    is reported as a duplicate of it. *)
Theorem C4_second_duplicate_rule :
  fst (validateData (addCustomRule duplicateEmails initialRules) sharedEmail
         [js "Name"; js "ClientID"; js "Email"] (js "clients.csv") (Some []))
  = Ok [ {| row := 0; column := js "ClientID";
            message := js "Duplicate ID " ++ [34%N] ++ js "a@b.co" ++ [34%N]
                         ++ js " found in rows 1, 2";
            severity := Error; ruleId := js "duplicate-ids" |};
         {| row := 1; column := js "ClientID";
            message := js "Duplicate ID " ++ [34%N] ++ js "a@b.co" ++ [34%N]
                         ++ js " found in rows 1, 2";
            severity := Error; ruleId := js "duplicate-ids" |} ]
  /\ fst (validateData (addCustomRule duplicateEmails initialRules) crossField
            [js "Name"; js "ClientID"; js "Email"] (js "clients.csv") (Some []))
     = Ok [ {| row := 0; column := js "ClientID";
               message := js "Duplicate ID " ++ [34%N] ++ js "a@b.co" ++ [34%N]
                            ++ js " found in rows 1, 2";
               severity := Error; ruleId := js "duplicate-ids" |};
            {| row := 1; column := js "ClientID";
               message := js "Duplicate ID " ++ [34%N] ++ js "a@b.co" ++ [34%N]
                            ++ js " found in rows 1, 2";
               severity := Error; ruleId := js "duplicate-ids" |} ].
Proof. split; vm_compute; reflexivity. Qed.

(** C5.  For every table and every registry, the list returned is the
    errors of the calls of [validateField], rows in the order of the
    table and, within a row, rules in the order of the registry,
    followed by the errors of the duplicate groups, none of them in
    between; the groups come in the order in which their values are
    first met on that same walk, and the rows inside a group ascend.  So
    the order is a function of the order of the rows and of the
    registry alone. *)
Theorem C5_error_order (rules : list ValidationRule) (data : list Row)
    (headers : list jsstring) (fileName : jsstring)
    (files : option (list FileData)) :
  fst (validateData rules data headers fileName files)
  = match collect (calls data 0 files rules) with
    | Ok perRow =>
        Ok (perRow ++
            flat_map
              (fun v => duplicateGroup v (rowsOf (tracked rules data 0) v))
              (distinct (map fst (tracked rules data 0))))
    | Throw e => Throw e
    end
  /\ (forall v, StronglySorted Nat.le (rowsOf (tracked rules data 0) v))
  /\ (forall perRow, collect (calls data 0 files rules) = Ok perRow ->
        StronglySorted Nat.le (map row perRow)).
Proof.
  split; [apply validateData_structure|]. split.
  - intros v. apply rowsOf_sorted.
  - intros perRow H. now apply calls_errors in H.
Qed.

Lemma C5_error_order_witness :
  collect (calls messy 0 (Some []) initialRules) = Ok messyErrors
  /\ fst (validateData initialRules messy [js "Name"] (js "clients.csv")
            (Some [])) = Ok messyErrors
  /\ StronglySorted Nat.le (map row messyErrors).
Proof.
  split; [vm_compute; reflexivity|]. split; [vm_compute; reflexivity|].
  apply (proj2 (proj2 (C5_error_order initialRules messy [js "Name"]
                         (js "clients.csv") (Some [])))).
  vm_compute; reflexivity.
Defined.

(** C6.  For a rule of type [reference], a value that is present and a
    dataset that is supplied: when the value does not parse as JSON, or
    parses to a falsy value, there is no error; when it parses to an
    array, the ids that are not in the reference set are kept in their
    order, repeated ids included, and if there is one the single error
    returned lists them, joined by a comma and a space, after the
    message of the rule; for ids that are strings the list is these
    strings, and a string is in the set when the set holds it.  The join
    throws a TypeError, and so does the call, exactly when one of the
    ids to list has no string form (an object with an own key
    [toString]).  The reference set is the [TaskID] column, falsy cells
    skipped, of the first file whose name holds [task] in either case;
    the files before and after it are not read, and without such a file
    the set is empty and every parsed id is invalid. *)
Theorem C6_reference_rule (value : prim) (rule : ValidationRule)
    (rowIndex : nat) (r : Row) (files : list FileData) :
  Rule.type rule = Reference ->
  truthy value = true ->
  (JSONparse value = None ->
   validateField value rule rowIndex r (Some files) = (Ok None, rule))
  /\ (forall v : json,
        JSONparse value = Some v -> jsonTruthy v = false ->
        validateField value rule rowIndex r (Some files) = (Ok None, rule))
  /\ (forall ids : list json,
        JSONparse value = Some (JArr ids) ->
        validateField value rule rowIndex r (Some files)
        = (match List.filter
                   (fun id => negb (arrayIncludes (getAllTaskIds files) id))
                   ids with
           | [] => Ok None
           | invalid =>
               match joinMay elementToString (js ", ") invalid with
               | Some listed =>
                   Ok (Some {| row := rowIndex; column := Rule.field rule;
                               message := Rule.message rule ++ js ": "
                                            ++ listed;
                               severity := Rule.severity rule;
                               ruleId := Rule.id rule |})
               | None => Throw TypeError
               end
           end, rule))
  /\ (forall (refs : list prim) (id : jsstring),
        arrayIncludes refs (JStr id) = true <-> In (PStr id) refs)
  /\ (forall names : list jsstring,
        joinMay elementToString (js ", ") (map JStr names)
        = Some (joinWith (fun id => id) (js ", ") names))
  /\ (forall invalid : list json,
        joinMay elementToString (js ", ") invalid = None
        <-> exists x : json, In x invalid /\ Unprintable x)
  /\ ((forall file : FileData, In file files -> ~ mentionsTask (name file)) ->
      getAllTaskIds files = []
      /\ forall ids : list json,
           List.filter (fun id => negb (arrayIncludes (getAllTaskIds files) id))
             ids = ids)
  /\ (forall (before after : list FileData) (file : FileData),
        files = before ++ file :: after ->
        (forall g : FileData, In g before -> ~ mentionsTask (name g)) ->
        mentionsTask (name file) ->
        getAllTaskIds files
        = List.filter truthy
            (map (fun row : Row => getField row (js "TaskID")) (data file))).
Proof.
  intros Ht Hv. split; [|split; [|split]].
  - intros Hp. unfold validateField, parseJsonArray. now rewrite Ht, Hv, Hp.
  - intros v Hp Hj. unfold validateField, parseJsonArray.
    now rewrite Ht, Hv, Hp, Hj.
  - intros ids Hp. unfold validateField, parseJsonArray.
    rewrite Ht, Hv, Hp. cbn [jsonTruthy].
    destruct (List.filter _ ids) as [|x invalid]; [reflexivity|].
    change (0 <? length (x :: invalid))%nat with true. cbv iota.
    now destruct (joinMay elementToString (js ", ") (x :: invalid)).
  - split; [apply arrayIncludes_string|]. split; [apply join_strings|].
    split; [apply join_None|]. split.
    + intros Hnone. rewrite (getAllTaskIds_none files Hnone).
      split; [reflexivity|]. intros ids. now apply filter_all.
    + intros before after file -> Hb Hf. now apply getAllTaskIds_first.
Qed.

Lemma C6_reference_rule_witness :
  validateField t1t9 taskReference 0 (rowOf [("TaskIDs"%string, t1t9)])
    (Some threeFiles)
  = (Ok (Some {| row := 0; column := js "TaskIDs";
                 message := js "Referenced task ID not found: T9";
                 severity := Error; ruleId := js "task-reference" |}),
     taskReference)
  /\ getAllTaskIds threeFiles = [PStr (js "T1"); PStr (js "T2")]
  /\ validateField ownToString taskReference 0
       (rowOf [("TaskIDs"%string, ownToString)]) (Some threeFiles)
     = (Throw TypeError, taskReference).
Proof.
  split; [|split].
  - exact (proj1 (proj2 (proj2 (C6_reference_rule t1t9 taskReference 0 _
                                  threeFiles eq_refl eq_refl)))
             [JStr (js "T1"); JStr (js "T9")] eq_refl).
  - apply (proj2 (proj2 (proj2 (proj2 (proj2 (proj2 (proj2
             (C6_reference_rule t1t9 taskReference 0
                (rowOf [("TaskIDs"%string, t1t9)]) threeFiles
                eq_refl eq_refl)))))))
             [clientsFile] [archive] sprintTasks eq_refl).
    + intros g [<-|[]] H%mentionsTask_includes. discriminate H.
    + apply mentionsTask_includes. reflexivity.
  - exact (proj1 (proj2 (proj2 (C6_reference_rule ownToString taskReference 0 _
                                  threeFiles eq_refl eq_refl)))
             [JObj [(js "toString", JNum (ofZ 1))]] eq_refl).
Defined.

(** C7.  For every rule of type [range] with the bounds [min] and
    [max]: when [parseFloat] of the value is NaN there is no error; when
    the number read is below [min] or above [max] there is an error
    whose message ends with the two bounds between parentheses (so
    "(0-100)" for the worker load); when it is in the closed interval
    there is none.  For bounds that are numbers the two cases cover
    every number read. *)
Theorem C7_range_rule (value : prim) (rule : ValidationRule) (rowIndex : nat)
    (r : Row) (files : option (list FileData)) (c : Config) (lo hi : number) :
  Rule.type rule = Range ->
  Rule.config rule = Some c -> min c = Some lo -> max c = Some hi ->
  (isNaN (parseFloat value) = true ->
   validateField value rule rowIndex r files = (Ok None, rule))
  /\ (isNaN (parseFloat value) = false ->
      lt (parseFloat value) lo || lt hi (parseFloat value) = true ->
      validateField value rule rowIndex r files
      = (Ok (Some {| row := rowIndex; column := Rule.field rule;
                     message := Rule.message rule ++ js " ("
                                  ++ numberToString lo ++ js "-"
                                  ++ numberToString hi ++ js ")";
                     severity := Rule.severity rule;
                     ruleId := Rule.id rule |}), rule))
  /\ (le lo (parseFloat value) && le (parseFloat value) hi = true ->
      validateField value rule rowIndex r files = (Ok None, rule))
  /\ (isNaN (parseFloat value) = false -> isNaN lo = false ->
      isNaN hi = false ->
      le lo (parseFloat value) && le (parseFloat value) hi
      = negb (lt (parseFloat value) lo || lt hi (parseFloat value))).
Proof.
  intros Ht Hc Hlo Hhi. unfold validateField. rewrite Ht, Hc, Hlo, Hhi. simpl.
  split; [|split; [|split]].
  - intros ->. reflexivity.
  - intros -> ->. reflexivity.
  - intros [H1 H2]%andb_true_iff.
    rewrite (le_true_not_nan _ _ H1), (le_true_not_lt _ _ H1),
      (le_true_not_lt _ _ H2). reflexivity.
  - intros Hx Hl Hh. rewrite (le_not_lt _ _ Hx Hl), (le_not_lt _ _ Hh Hx).
    now rewrite negb_orb.
Qed.

Lemma C7_range_rule_witness :
  validateField (str "150") workerLoad 0
    (rowOf [("CurrentLoad"%string, str "150")]) None
  = (Ok (Some {| row := 0; column := js "CurrentLoad";
                 message := js "Current load exceeds maximum capacity (0-100)";
                 severity := Warning; ruleId := js "worker-load-range" |}),
     workerLoad)
  /\ validateField (str "abc") workerLoad 0
       (rowOf [("CurrentLoad"%string, str "abc")]) None
     = (Ok None, workerLoad)
  /\ validateField (str "100") workerLoad 0
       (rowOf [("CurrentLoad"%string, str "100")]) None
     = (Ok None, workerLoad).
Proof.
  split; [|split].
  - exact (proj1 (proj2 (C7_range_rule (str "150") workerLoad 0 _ None _ _ _
                           eq_refl eq_refl eq_refl eq_refl)) eq_refl eq_refl).
  - exact (proj1 (C7_range_rule (str "abc") workerLoad 0 _ None _ _ _
                    eq_refl eq_refl eq_refl eq_refl) eq_refl).
  - exact (proj1 (proj2 (proj2 (C7_range_rule (str "100") workerLoad 0 _ None
                                  _ _ _ eq_refl eq_refl eq_refl eq_refl)))
             eq_refl).
Defined.

(** C8, the claim as stated fails: with a custom rule whose pattern is
    global, the first call finds no error and moves [lastIndex] of the
    pattern in the registry; the second call, on the same table and
    dataset, reports an error. *)
Lemma C8_counterexample :
  let rules := addCustomRule bracketGlobal initialRules in
  let first := validateData rules skilled [] (js "workers.csv") (Some []) in
  let second :=
    validateData (snd first) skilled [] (js "workers.csv") (Some []) in
  fst first = Ok []
  /\ snd first <> rules
  /\ fst second
     = Ok [ {| row := 0; column := js "Skills";
               message := js "Skills must contain a bracket";
               severity := Error; ruleId := js "has-bracket" |} ].
Proof.
  split; [|split]; [vm_compute; reflexivity| |vm_compute; reflexivity].
  intros H.
  apply (f_equal (fun l => List.last (map Rule.config l) None)) in H.
  vm_compute in H. discriminate.
Qed.

(** C8 (amended).  For every registry in which no rule of type [regex]
    has a global or sticky pattern (the built-in registry is one), a
    call of [validateData] leaves the registry as it was, and a second
    call with the same table and dataset returns the same list in the
    same order.  The table and the dataset are only read. *)
Theorem C8_deterministic_and_pure (rules : list ValidationRule)
    (data : list Row) (headers : list jsstring) (fileName : jsstring)
    (files : option (list FileData)) :
  stateless rules = true ->
  snd (validateData rules data headers fileName files) = rules
  /\ validateData (snd (validateData rules data headers fileName files))
       data headers fileName files
     = validateData rules data headers fileName files.
Proof.
  intros H. rewrite (validateData_stateless _ _ _ _ _ H). split; reflexivity.
Qed.

Lemma C8_deterministic_and_pure_witness :
  stateless initialRules = true
  /\ snd (validateData initialRules sixClients [] (js "clients.csv") (Some []))
     = initialRules
  /\ validateData
       (snd (validateData initialRules sixClients [] (js "clients.csv")
               (Some [])))
       sixClients [] (js "clients.csv") (Some [])
     = validateData initialRules sixClients [] (js "clients.csv") (Some []).
Proof.
  split; [reflexivity|].
  exact (C8_deterministic_and_pure initialRules sixClients [] (js "clients.csv")
           (Some []) eq_refl).
Defined.

(** C9, the claim as stated fails: with no row at all the formula
    divides 0 by 0 and is NaN, and the dashboard shows 100. *)
Lemma C9_counterexample :
  validationScore [] = ofZ 100
  /\ scoreFormula (errorCount []) (warningCount []) (totalRows []) = S754_nan.
Proof. split; vm_compute; reflexivity. Qed.

(** C9 (amended).  When the total number of rows is above 0 the score is
    [max(0, 100 - (errorCount*10 + warningCount*2) / totalRows * 100)],
    computed on Numbers; when it is not, the score is 100.  The report
    exports [Math.round] of the score. *)
Theorem C9_validation_score (files : list FileData) (now : jsstring) :
  (lt (ofZ 0) (totalRows files) = true ->
   validationScore files
   = scoreFormula (errorCount files) (warningCount files) (totalRows files))
  /\ (lt (ofZ 0) (totalRows files) = false -> validationScore files = ofZ 100)
  /\ Summary.validationScore (exportDetailedReport files now)
     = mathRound (validationScore files).
Proof.
  unfold validationScore, scoreFormula. split; [|split].
  - intros ->. reflexivity.
  - intros ->. reflexivity.
  - reflexivity.
Qed.

Lemma C9_validation_score_witness :
  validationScore [sixteen]
  = scoreFormula (errorCount [sixteen]) (warningCount [sixteen])
      (totalRows [sixteen])
  /\ scoreFormula (errorCount [sixteen]) (warningCount [sixteen])
       (totalRows [sixteen]) = decimalToNumber false 375 (-1)
  /\ mathRound (decimalToNumber false 375 (-1)) = ofZ 38
  /\ validationScore [] = ofZ 100.
Proof.
  split; [|split; [|split]].
  - exact (proj1 (C9_validation_score [sixteen] []) eq_refl).
  - vm_compute; reflexivity.
  - vm_compute; reflexivity.
  - exact (proj1 (proj2 (C9_validation_score [] [])) eq_refl).
Defined.

(** C10.  When [validateData] is called without the dataset, a rule of
    type [reference] reports nothing, whatever the value.  The same
    table is then clean alone and has a broken reference when the
    dataset is supplied. *)
Theorem C10_no_dataset :
  (forall (value : prim) (rule : ValidationRule) (rowIndex : nat) (r : Row),
      Rule.type rule = Reference ->
      validateField value rule rowIndex r None = (Ok None, rule))
  /\ fst (validateData initialRules referring [js "Name"; js "TaskIDs"]
            (js "clients.csv") None) = Ok []
  /\ fst (validateData initialRules referring [js "Name"; js "TaskIDs"]
            (js "clients.csv") (Some [tasksFile]))
     = Ok [ {| row := 0; column := js "TaskIDs";
               message := js "Referenced task ID not found: T9";
               severity := Error; ruleId := js "task-reference" |} ].
Proof.
  split; [|split]; [|vm_compute; reflexivity|vm_compute; reflexivity].
  intros value rule rowIndex r Ht. unfold validateField. now rewrite Ht.
Qed.

Lemma C10_no_dataset_witness :
  validateField t1t9 taskReference 0 (rowOf [("TaskIDs"%string, t1t9)]) None
  = (Ok None, taskReference).
Proof.
  exact (proj1 C10_no_dataset t1t9 taskReference 0 _ eq_refl).
Defined.

(** ** Further properties of the code *)

Import Shapes Cases Report Pages Grid.

Lemma strEq_false (a b : jsstring) : strEq a b = false <-> a <> b.
Proof.
  destruct (strEq a b) eqn:H.
  - apply strEq_eq in H. split; [discriminate|congruence].
  - split; [|reflexivity]. intros _ Hab. apply strEq_eq in Hab. congruence.
Qed.

(** *** The matcher accepts what the pattern denotes *)

Lemma starLoop_denotes (a : regex) (k : nat -> jsstring -> option nat)
    (IHa : forall i s k, (exists e, matchAt a i s k = Some e)
             <-> exists u v, s = u ++ v /\ denotes a i u v
                             /\ exists e, k (i + length u) v = Some e)
    (n : nat) :
  forall i s, length s <= n ->
    (exists e, starLoop (matchAt a) k n i s = Some e)
    <-> exists u v, s = u ++ v /\ StarL (denotes a) i u v
                    /\ exists e, k (i + length u) v = Some e.
Proof.
  induction n as [|n IHn]; intros i s Hlen.
  - destruct s; [|simpl in Hlen; lia]. simpl. split.
    + intros He. exists [], []. rewrite Nat.add_0_r. repeat split; [constructor|assumption].
    + intros (u & v & Hs & _ & He).
      symmetry in Hs. apply app_eq_nil in Hs as [-> ->].
      now rewrite Nat.add_0_r in He.
  - simpl. split.
    + destruct (matchAt a i s _) as [e0|] eqn:Hm.
      * intros _.
        assert (Hex : exists e, matchAt a i s
                  (fun j t => if (i <? j)%nat
                              then starLoop (matchAt a) k n j t else None)
                  = Some e) by eauto.
        apply IHa in Hex as (u1 & v1 & -> & Hd & e & He).
        destruct (Nat.ltb_spec i (i + length u1)) as [Hlt|]; [|discriminate].
        assert (Hu1 : u1 <> []) by (intros ->; simpl in Hlt; lia).
        assert (Hl : length v1 <= n).
        { rewrite length_app in Hlen. destruct u1; [easy|]. simpl in Hlen. lia. }
        destruct (proj1 (IHn _ _ Hl) (ex_intro _ e He))
          as (u2 & v & -> & Hst & e' & He').
        exists (u1 ++ u2), v. rewrite <- app_assoc. split; [reflexivity|].
        split; [now constructor|].
        exists e'. now rewrite length_app, Nat.add_assoc.
      * intros He. exists [], s. rewrite Nat.add_0_r.
        repeat split; [constructor|assumption].
    + intros (u & v & -> & Hst & e & He).
      inversion Hst as [i0 v0|i0 u1 u2 v0 Hne Hd Hst']; subst.
      * rewrite Nat.add_0_r in He. simpl.
        destruct (matchAt a i v _); eauto.
      * assert (Hex : exists e, matchAt a i ((u1 ++ u2) ++ v)
                  (fun j t => if (i <? j)%nat
                              then starLoop (matchAt a) k n j t else None)
                  = Some e).
        { apply IHa. exists u1, (u2 ++ v). rewrite <- app_assoc.
          split; [reflexivity|]. split; [assumption|].
          destruct (Nat.ltb_spec i (i + length u1)) as [_|Hge].
          2:{ destruct u1; [easy|]. simpl in Hge. lia. }
          apply IHn.
          - rewrite !length_app in Hlen. rewrite length_app.
            destruct u1; [easy|]. simpl in Hlen. lia.
          - exists u2, v. split; [reflexivity|]. split; [assumption|].
            exists e. now rewrite length_app, Nat.add_assoc in He. }
        destruct Hex as [e' ->]. eauto.
Qed.

(** A match of [r] at index [i] of the input [s], continued by [k],
    succeeds exactly when [s] starts with a piece that [r] denotes and
    [k] accepts the rest. *)
Lemma matchAt_denotes (r : regex) :
  forall i s k,
    (exists e, matchAt r i s k = Some e)
    <-> exists u v, s = u ++ v /\ denotes r i u v
                    /\ exists e, k (i + length u) v = Some e.
Proof.
  induction r as [|p|a IHa b IHb|a IHa b IHb|a IHa| |]; intros i s k.
  - simpl. split.
    + intros He. exists [], s. now rewrite Nat.add_0_r.
    + intros (u & v & -> & -> & He). now rewrite Nat.add_0_r in He.
  - simpl. split.
    + destruct s as [|c t]; [intros [? [=]]|].
      destruct (p c) eqn:Hp; [|intros [? [=]]].
      intros He. exists [c], t. simpl. rewrite Nat.add_1_r. eauto 6.
    + intros (u & v & -> & (c & -> & Hp) & He). simpl. rewrite Hp.
      now rewrite Nat.add_1_r in He.
  - simpl. rewrite IHa. split.
    + intros (u1 & v1 & -> & Ha & Hb).
      apply IHb in Hb as (u2 & v & -> & Hb & He).
      exists (u1 ++ u2), v. rewrite <- app_assoc. split; [reflexivity|].
      split; [eauto 6|]. now rewrite length_app, Nat.add_assoc.
    + intros (u & v & -> & (u1 & u2 & -> & Ha & Hb) & He).
      exists u1, (u2 ++ v). rewrite <- app_assoc. split; [reflexivity|].
      split; [assumption|]. apply IHb. exists u2, v.
      split; [reflexivity|]. split; [assumption|].
      now rewrite length_app, Nat.add_assoc in He.
  - simpl. split.
    + destruct (matchAt a i s k) as [e0|] eqn:Hm.
      * intros _. destruct (proj1 (IHa i s k) (ex_intro _ e0 Hm))
          as (u & v & -> & Hd & He). exists u, v. eauto.
      * intros He. apply IHb in He as (u & v & -> & Hd & He).
        exists u, v. eauto.
    + intros (u & v & -> & [Hd|Hd] & He).
      * assert (Hex : exists e, matchAt a i (u ++ v) k = Some e)
          by (apply IHa; eauto 6).
        destruct Hex as [e' ->]. eauto.
      * destruct (matchAt a i (u ++ v) k); [eauto|].
        apply IHb; eauto 6.
  - simpl. now apply starLoop_denotes.
  - simpl. split.
    + destruct (Nat.eqb_spec i 0) as [->|]; [|intros [? [=]]].
      intros He. exists [], s. now rewrite Nat.add_0_r.
    + intros (u & v & -> & [-> ->] & He). now rewrite Nat.add_0_r in He.
  - simpl. split.
    + destruct s; [|intros [? [=]]]. intros He. exists [], [].
      now rewrite Nat.add_0_r.
    + intros (u & v & -> & [-> ->] & He). now rewrite Nat.add_0_r in He.
Qed.

(** The search of a pattern without [y] from index [i]: some start
    between [i] and the end of the input has a match. *)
Lemma searchFrom_denotes (r : regex) (S0 : jsstring) (fuel : nat) :
  forall i, length S0 <= i + fuel ->
    (exists e, searchFrom fuel r false S0 i = Some e)
    <-> exists j u v, i <= j <= length S0 /\ drop j S0 = u ++ v
                      /\ denotes r j u v.
Proof.
  assert (Hm : forall j, (exists e, matchAt r j (drop j S0) (fun j _ => Some j) = Some e)
            <-> exists u v, drop j S0 = u ++ v /\ denotes r j u v).
  { intros j. rewrite matchAt_denotes. split.
    - intros (u & v & H1 & H2 & _). eauto.
    - intros (u & v & H1 & H2). exists u, v. eauto. }
  induction fuel as [|f IH]; intros i Hi; simpl.
  - destruct (Nat.ltb_spec (length S0) i) as [Hlt|Hle].
    + split; [intros [? [=]]|]. intros (j & _ & _ & [? ?] & _). lia.
    + assert (i = length S0) by lia. subst i.
      destruct (matchAt r _ _ _) as [e|] eqn:Hma.
      * split; [intros _|eauto].
        destruct (proj1 (Hm _) (ex_intro _ e Hma)) as (u & v & H1 & H2).
        exists (length S0), u, v. auto.
      * split; [intros [? [=]]|]. intros (j & u & v & [? ?] & H1 & H2).
        assert (j = length S0) by lia. subst j.
        destruct (proj2 (Hm _) (ex_intro _ u (ex_intro _ v (conj H1 H2)))) as [e He].
        congruence.
  - destruct (Nat.ltb_spec (length S0) i) as [Hlt|Hle].
    + split; [intros [? [=]]|]. intros (j & _ & _ & [? ?] & _). lia.
    + destruct (matchAt r _ _ _) as [e|] eqn:Hma.
      * split; [intros _|eauto].
        destruct (proj1 (Hm _) (ex_intro _ e Hma)) as (u & v & H1 & H2).
        exists i, u, v. auto.
      * rewrite IH by lia. split.
        -- intros (j & u & v & [? ?] & H1 & H2). exists j, u, v.
           repeat split; auto; lia.
        -- intros (j & u & v & [? ?] & H1 & H2).
           destruct (Nat.eq_dec j i) as [->|Hne].
           ++ destruct (proj2 (Hm _) (ex_intro _ u (ex_intro _ v (conj H1 H2))))
                as [e He]. congruence.
           ++ exists j, u, v. repeat split; auto; lia.
Qed.

(** [test] of a pattern literal: some piece of the input is denoted by
    the pattern. *)
Lemma testLiteral_denotes (r : regex) (s : jsstring) :
  testLiteral r s = true
  <-> exists p u v, s = p ++ u ++ v /\ denotes r (length p) u v.
Proof.
  unfold testLiteral, test. simpl.
  pose proof (searchFrom_denotes r s (length s) 0 ltac:(lia)) as H.
  destruct (searchFrom (length s) r false s 0) as [e|] eqn:Hs; simpl.
  - split; [intros _|easy].
    destruct (proj1 H (ex_intro _ e eq_refl)) as (j & u & v & [_ Hj] & Hd & Hden).
    exists (take j s), u, v. rewrite <- Hd, take_drop.
    split; [reflexivity|]. rewrite length_take. now replace (j `min` length s) with j by lia.
  - split; [easy|]. intros (p & u & v & -> & Hden).
    destruct (proj2 H) as [e He]; [|discriminate].
    exists (length p), u, v. rewrite length_app.
    split; [lia|]. split; [|assumption].
    now rewrite drop_app_length.
Qed.

(** A star of a class of code units denotes the pieces made of the class. *)
Lemma denotes_star_class (p : N -> bool) (u v : jsstring) (i : nat) :
  denotes (Star (Cls p)) i u v <-> forallb p u = true.
Proof.
  simpl. split.
  - induction 1 as [|i u1 u2 v Hne (c & -> & Hp) _ IH]; [reflexivity|].
    simpl. now rewrite Hp.
  - revert i. induction u as [|c u IH]; intros i; [constructor|].
    simpl. intros [Hp Hu]%andb_true_iff.
    change (c :: u) with ([c] ++ u). constructor; [easy|eauto|]. apply IH, Hu.
Qed.

Lemma denotes_plus_class (p : N -> bool) (u v : jsstring) (i : nat) :
  denotes (Plus (Cls p)) i u v <-> u <> [] /\ forallb p u = true.
Proof.
  unfold Plus.
  change (denotes (Seq (Cls p) (Star (Cls p))) i u v)
    with (exists u1 u2, u = u1 ++ u2 /\ denotes (Cls p) i u1 (u2 ++ v)
                        /\ denotes (Star (Cls p)) (i + length u1) u2 v).
  split.
  - intros (u1 & u2 & -> & (c & -> & Hp) & Hs%denotes_star_class).
    split; [easy|]. simpl. now rewrite Hp, Hs.
  - intros [Hne Hu]. destruct u as [|c u]; [easy|]. simpl in Hu.
    apply andb_true_iff in Hu as [Hp Hu].
    exists [c], u. split; [reflexivity|]. split; [simpl; eauto|].
    now apply denotes_star_class.
Qed.

Lemma denotes_chr (c : N) (u v : jsstring) (i : nat) :
  denotes (Chr c) i u v <-> u = [c].
Proof.
  unfold Chr. simpl. split.
  - intros (c' & -> & ->%N.eqb_eq). reflexivity.
  - intros ->. exists c. split; [reflexivity|apply N.eqb_refl].
Qed.

Lemma denotes_upto_class (p : N -> bool) (n : nat) :
  forall u v i,
    denotes (UpTo n (Cls p)) i u v <-> forallb p u = true /\ length u <= n.
Proof.
  induction n as [|n IH]; intros u v i.
  - simpl. split; [intros ->; simpl; auto|].
    intros [_ H]. destruct u; [reflexivity|simpl in H; lia].
  - change (denotes (UpTo (S n) (Cls p)) i u v)
      with ((exists u1 u2, u = u1 ++ u2 /\ denotes (Cls p) i u1 (u2 ++ v)
                           /\ denotes (UpTo n (Cls p)) (i + length u1) u2 v)
            \/ u = []).
    split.
    + intros [(u1 & u2 & -> & (c & -> & Hp) & [Hu Hl]%IH)| ->].
      * simpl. rewrite Hp, Hu. split; [reflexivity|lia].
      * simpl. split; [reflexivity|lia].
    + intros [Hu Hl]. destruct u as [|c u]; [now right|left].
      simpl in Hu, Hl. apply andb_true_iff in Hu as [Hp Hu].
      exists [c], u. split; [reflexivity|]. split; [simpl; eauto|].
      apply IH. split; [assumption|lia].
Qed.

(** The pattern of the email rule accepts exactly the strings
    [local@domain.tld]. *)
Lemma emailPattern_shape (s : jsstring) :
  testLiteral emailPattern s = true <-> emailShape s.
Proof.
  rewrite testLiteral_denotes. unfold emailPattern, emailShape, seqs.
  cbn [fold_right].
  split.
  - intros (p & u & v & -> & Hd).
    cbn [denotes] in Hd.
    destruct Hd as (u0 & r0 & -> & [-> Hp] & Hd).
    apply length_zero_iff_nil in Hp as ->.
    destruct Hd as (a & r1 & -> & [Ha1 Ha2]%denotes_plus_class & Hd).
    destruct Hd as (x & r2 & -> & ->%denotes_chr & Hd).
    destruct Hd as (b & r3 & -> & [Hb1 Hb2]%denotes_plus_class & Hd).
    destruct Hd as (y & r4 & -> & ->%denotes_chr & Hd).
    destruct Hd as (c & r5 & -> & [Hc1 Hc2]%denotes_plus_class & Hd).
    destruct Hd as (z & r6 & -> & [-> Hv] & ->).
    simpl in Hv. subst v.
    exists a, b, c. simpl. rewrite !app_nil_r.
    split; [now rewrite <- ?app_assoc|]. repeat split; assumption.
  - intros (a & b & c & -> & Ha & Hb & Hc & Ha' & Hb' & Hc').
    exists [], (a ++ 64%N :: b ++ 46%N :: c), []. split; [now rewrite app_nil_r|].
    cbn [denotes].
    exists [], (a ++ 64%N :: b ++ 46%N :: c). split; [reflexivity|]. split; [auto|].
    exists a, (64%N :: b ++ 46%N :: c). split; [reflexivity|].
    split; [now apply denotes_plus_class|].
    exists [64%N], (b ++ 46%N :: c). split; [reflexivity|].
    split; [now apply denotes_chr|].
    exists b, (46%N :: c). split; [reflexivity|].
    split; [now apply denotes_plus_class|].
    exists [46%N], c. split; [reflexivity|].
    split; [now apply denotes_chr|].
    exists c, []. split; [now rewrite app_nil_r|].
    split; [now apply denotes_plus_class|].
    exists [], []. auto.
Qed.

(** The pattern of the phone rule accepts exactly an optional [+], a
    digit from 1 to 9 and at most 15 digits. *)
Lemma phonePattern_shape (s : jsstring) :
  testLiteral phonePattern s = true <-> phoneShape s.
Proof.
  rewrite testLiteral_denotes. unfold phonePattern, phoneShape, seqs.
  cbn [fold_right].
  split.
  - intros (p & u & v & -> & Hd).
    cbn [denotes Opt] in Hd.
    destruct Hd as (u0 & r0 & -> & [-> Hp] & Hd).
    apply length_zero_iff_nil in Hp as ->.
    destruct Hd as (sg & r1 & -> & Hsg & Hd).
    destruct Hd as (x & r2 & -> & (d & -> & Hd19) & Hd).
    destruct Hd as (ds & r3 & -> & [Hds Hlen]%denotes_upto_class & Hd).
    destruct Hd as (z & r6 & -> & [-> Hv] & ->).
    simpl in Hv. subst v.
    apply andb_true_iff in Hd19 as [H1%N.leb_le H2%N.leb_le].
    destruct Hsg as [(c & -> & ->%N.eqb_eq)| ->].
    + exists true, d, ds. simpl. rewrite !app_nil_r. auto.
    + exists false, d, ds. simpl. rewrite !app_nil_r. auto.
  - intros (plus & d & ds & -> & [H1 H2] & Hds & Hlen).
    exists [], ((if plus then [43%N] else []) ++ d :: ds), [].
    split; [now rewrite app_nil_r|].
    cbn [denotes Opt].
    exists [], ((if plus then [43%N] else []) ++ d :: ds).
    split; [reflexivity|]. split; [auto|].
    exists (if plus then [43%N] else []), (d :: ds). split; [reflexivity|].
    split.
    { destruct plus; [left|now right]. exists 43%N. auto. }
    exists [d], ds. split; [reflexivity|].
    split.
    { exists d. split; [reflexivity|].
      apply andb_true_iff. split; now apply N.leb_le. }
    exists ds, []. split; [now rewrite app_nil_r|].
    split; [now apply denotes_upto_class|].
    exists [], []. auto.
Qed.

(** The pattern of the built-in skills rule accepts exactly a bracket,
    any text without a line terminator, a bracket. *)
Lemma skillPattern_shape (s : jsstring) :
  testLiteral skillPattern s = true <-> skillShape s.
Proof.
  rewrite testLiteral_denotes. unfold skillPattern, skillShape, seqs.
  cbn [fold_right].
  split.
  - intros (p & u & v & -> & Hd).
    cbn [denotes] in Hd.
    destruct Hd as (u0 & r0 & -> & [-> Hp] & Hd).
    apply length_zero_iff_nil in Hp as ->.
    destruct Hd as (x & r1 & -> & ->%denotes_chr & Hd).
    destruct Hd as (m & r2 & -> & Hm & Hd).
    change (StarL _ ?i ?u ?v) with (denotes (Star (Cls (fun c => negb (isLineTerminator c)))) i u v) in Hm.
    apply denotes_star_class in Hm.
    destruct Hd as (y & r3 & -> & ->%denotes_chr & Hd).
    destruct Hd as (z & r6 & -> & [-> Hv] & ->).
    simpl in Hv. subst v.
    exists m. simpl. rewrite !app_nil_r. auto.
  - intros (m & -> & Hm).
    exists [], (91%N :: m ++ [93%N]), []. split; [now rewrite app_nil_r|].
    cbn [denotes].
    exists [], (91%N :: m ++ [93%N]). split; [reflexivity|]. split; [auto|].
    exists [91%N], (m ++ [93%N]). split; [reflexivity|].
    split; [now apply denotes_chr|].
    exists m, [93%N]. split; [reflexivity|].
    split.
    { change (StarL _ ?i ?u ?v) with (denotes (Star (Cls (fun c => negb (isLineTerminator c)))) i u v).
      now apply denotes_star_class. }
    exists [93%N], []. split; [reflexivity|].
    split; [now apply denotes_chr|].
    exists [], []. auto.
Qed.

(** A string of the shape of an email holds no white space and one [@]. *)
Lemma emailShape_necessary (s : jsstring) :
  emailShape s ->
  forallb (fun c => negb (isWhiteSpace c)) s = true
  /\ count_occ N.eq_dec s 64%N = 1.
Proof.
  assert (Hpiece : forall a, forallb notSpaceAt a = true ->
            forallb (fun c => negb (isWhiteSpace c)) a = true
            /\ count_occ N.eq_dec a 64%N = 0).
  { induction a as [|c a IH]; simpl; [auto|]. unfold notSpaceAt at 1.
    intros [Hc Ha]%andb_true_iff. apply negb_true_iff, orb_false_iff in Hc as [Hw He].
    destruct (IH Ha) as [-> ->]. rewrite Hw. split; [reflexivity|].
    destruct (N.eq_dec c 64%N) as [->|]; [discriminate|reflexivity]. }
  intros (a & b & c & -> & _ & _ & _ & [Ha1 Ha2]%Hpiece & [Hb1 Hb2]%Hpiece
          & [Hc1 Hc2]%Hpiece).
  split.
  - rewrite forallb_app. simpl. rewrite forallb_app. simpl.
    rewrite Ha1, Hb1, Hc1. reflexivity.
  - rewrite count_occ_app. simpl. rewrite count_occ_app. simpl.
    rewrite Ha2, Hb2, Hc2. reflexivity.
Qed.

(** X1.  A rule of type [email] passes a value that is falsy or whose
    string form is [local@domain.tld] (three pieces that are not empty
    and hold neither white space nor [@]), and reports its error, with
    the message of the rule, for every other value; a string form that
    passes holds no white space and exactly one [@]. *)
Theorem X1_email_rule (value : prim) (rule : ValidationRule) (rowIndex : nat)
    (r : Row) (files : option (list FileData)) :
  Rule.type rule = Email ->
  (validateField value rule rowIndex r files = (Ok None, rule)
   <-> truthy value = false \/ emailShape (toString value))
  /\ (validateField value rule rowIndex r files
      = (Ok (Some (errorOf rule rowIndex (Rule.message rule))), rule)
      <-> truthy value = true /\ ~ emailShape (toString value))
  /\ (emailShape (toString value) ->
      forallb (fun c => negb (isWhiteSpace c)) (toString value) = true
      /\ count_occ N.eq_dec (toString value) 64%N = 1).
Proof.
  intros Ht. unfold validateField. rewrite Ht.
  pose proof (emailPattern_shape (toString value)) as Hs.
  destruct (truthy value); simpl;
    destruct (testLiteral emailPattern (toString value)); simpl.
  - split; [|split; [|apply emailShape_necessary]].
    + split; [intros _; right; now apply Hs|reflexivity].
    + split; [discriminate|]. intros [_ Hn]. exfalso. now apply Hn, Hs.
  - split; [|split; [|apply emailShape_necessary]].
    + split; [discriminate|]. intros [[=]|H%Hs]. discriminate.
    + split; [intros _|reflexivity]. split; [reflexivity|].
      intros H%Hs. discriminate.
  - split; [|split; [|apply emailShape_necessary]].
    + split; [auto|reflexivity].
    + split; [discriminate|]. intros [[=] _].
  - split; [|split; [|apply emailShape_necessary]].
    + split; [auto|reflexivity].
    + split; [discriminate|]. intros [[=] _].
Qed.

Lemma X1_email_rule_witness :
  validateField (str "ann@example.com") emailFormat 3 ∅ None
  = (Ok None, emailFormat)
  /\ ~ emailShape (js "ann@example").
Proof.
  split.
  - apply (proj1 (X1_email_rule (str "ann@example.com") emailFormat 3 ∅ None
                    eq_refl)).
    right. exists (js "ann"), (js "example"), (js "com").
    repeat split; (reflexivity || discriminate).
  - exact (proj2 (proj1 (proj1 (proj2 (X1_email_rule (str "ann@example")
                                         emailFormat 3 ∅ None eq_refl)))
                    eq_refl)).
Defined.

(** X2.  A rule of type [phone] passes a falsy value; for a string that
    is not empty it removes every hyphen, white space and parenthesis
    and passes exactly when the rest is an optional [+], a digit from 1
    to 9 and at most 15 further digits; otherwise it reports its
    error. *)
Theorem X2_phone_rule (value : prim) (rule : ValidationRule) (rowIndex : nat)
    (r : Row) (files : option (list FileData)) :
  Rule.type rule = Phone ->
  (truthy value = false ->
   validateField value rule rowIndex r files = (Ok None, rule))
  /\ (forall s, value = PStr s -> s <> [] ->
      (validateField value rule rowIndex r files = (Ok None, rule)
       <-> phoneShape (removeAll phoneSeparator s))
      /\ (validateField value rule rowIndex r files
          = (Ok (Some (errorOf rule rowIndex (Rule.message rule))), rule)
          <-> ~ phoneShape (removeAll phoneSeparator s))).
Proof.
  intros Ht. unfold validateField. rewrite Ht. split.
  - intros ->. reflexivity.
  - intros s -> Hs. destruct s as [|c s]; [easy|]. cbn [truthy].
    pose proof (phonePattern_shape (removeAll phoneSeparator (c :: s))) as H.
    destruct (testLiteral phonePattern _); simpl.
    + split; split; try discriminate; try reflexivity.
      * intros _. now apply H.
      * intros Hn. exfalso. now apply Hn, H.
    + split; split; try discriminate; try reflexivity.
      * intros Hp%H. discriminate.
      * intros _ Hp%H. discriminate.
Qed.

Lemma X2_phone_rule_witness :
  validateField (str "+1 (555) 123-4567") phoneFormat 0 ∅ None
  = (Ok None, phoneFormat)
  /\ ~ phoneShape (removeAll phoneSeparator (js "0123")).
Proof.
  split.
  - apply (proj2 (X2_phone_rule (str "+1 (555) 123-4567") phoneFormat 0 ∅ None
                    eq_refl) _ eq_refl); [discriminate|].
    exists true, 49%N, (js "5551234567").
    repeat split; (reflexivity || (vm_compute; lia) || discriminate).
  - refine (proj1 (proj2 (proj2 (X2_phone_rule (str "0123") phoneFormat 0 ∅ None
                                   eq_refl) _ eq_refl _)) eq_refl).
    discriminate.
Defined.

(** X3.  A rule of type [regex] with the pattern of the built-in skills
    rule passes a falsy value; a truthy value passes exactly when its
    string form is an opening bracket, any text without a line
    terminator and a closing bracket, and gets the error of the rule
    otherwise; the rule object is left as it is. *)
Theorem X3_skills_rule (value : prim) (rule : ValidationRule) (rowIndex : nat)
    (r : Row) (files : option (list FileData)) (c : Config) (li : nat) :
  Rule.type rule = Regex -> Rule.config rule = Some c ->
  pattern c = Some (mkRegExp skillPattern false false li) ->
  snd (validateField value rule rowIndex r files) = rule
  /\ (truthy value = false ->
      fst (validateField value rule rowIndex r files) = Ok None)
  /\ (truthy value = true ->
      (fst (validateField value rule rowIndex r files) = Ok None
       <-> skillShape (toString value))
      /\ (fst (validateField value rule rowIndex r files)
          = Ok (Some (errorOf rule rowIndex (Rule.message rule)))
          <-> ~ skillShape (toString value))).
Proof.
  intros Ht Hc Hp. split.
  - apply validateField_stateless. unfold statelessRule. now rewrite Ht, Hc, Hp.
  - unfold validateField. rewrite Ht, Hc, Hp.
    pose proof (skillPattern_shape (toString value)) as H.
    unfold testLiteral, test in H. unfold test. cbn [global sticky source orb] in *.
    destruct (truthy value); (split; [try discriminate; reflexivity|]);
      [|discriminate].
    intros _.
    destruct (searchFrom _ skillPattern false (toString value) 0); simpl in *.
    + split; split; try discriminate; try reflexivity.
      * intros _. now apply H.
      * intros Hn. exfalso. now apply Hn, H.
    + split; split; try discriminate; try reflexivity.
      * intros Hs%H. discriminate.
      * intros _ Hs%H. discriminate.
Qed.

Lemma X3_skills_rule_witness :
  fst (validateField (str "[cooking, first aid]") skillFormat 0 ∅ None)
  = Ok None
  /\ ~ skillShape (js "cooking, first aid").
Proof.
  split.
  - apply (proj1 (proj2 (proj2 (X3_skills_rule (str "[cooking, first aid]")
                                  skillFormat 0 ∅ None _ 0
                                  eq_refl eq_refl eq_refl)) eq_refl)).
    exists (js "cooking, first aid"). split; reflexivity.
  - exact (proj1 (proj2 (proj2 (proj2 (X3_skills_rule (str "cooking, first aid")
                                         skillFormat 0 ∅ None _ 0
                                         eq_refl eq_refl eq_refl)) eq_refl))
             eq_refl).
Defined.

(** *** A call that returns met a safe cell *)

Lemma validateField_Ok_safe (files : option (list FileData)) (r : Row)
    (rule : ValidationRule) (i : nat) (o : option ValidationError) :
  fst (validateField (getField r (Rule.field rule)) rule i r files) = Ok o ->
  ruleSafe files r rule = true.
Proof.
  unfold ruleSafe, validateField.
  destruct (Rule.type rule);
    repeat match goal with
           | |- context [if ?b then _ else _] => destruct b eqn:?
           | |- context [match ?x with _ => _ end] => destruct x eqn:?
           end; cbn [fst]; intros H; try discriminate; rewrite ?orb_true_r;
    auto;
    try match goal with
        | H0 : negb ?x = false |- context [?x] =>
            apply negb_false_iff in H0; rewrite H0
        end; auto.
  match goal with
  | H1 : (0 <? length ?l)%nat = false, H2 : joinMay _ _ ?l = None |- _ =>
      revert H1 H2; destruct l; intros; discriminate
  end.
Qed.

Lemma rowCalls_Ok_safe (files : option (list FileData)) (r : Row) (i : nat)
    (rules : list ValidationRule) (errs : list ValidationError) :
  collect (map fst (rowCalls r i files rules)) = Ok errs ->
  forallb (ruleSafe files r) rules = true.
Proof.
  unfold rowCalls. revert errs.
  induction rules as [|a rules IH]; simpl; intros errs; [easy|].
  destruct (fst (validateField (getField r (Rule.field a)) a i r files))
    as [o|e] eqn:Hv; [|discriminate].
  apply validateField_Ok_safe in Hv. rewrite Hv.
  destruct (collect _) as [rest|]; [|discriminate]. intros _. now apply (IH rest).
Qed.

Lemma safeTable_rowCalls (files : option (list FileData)) (r : Row) (i : nat)
    (rules : list ValidationRule) (rows : list Row) :
  safeTable files (map snd (rowCalls r i files rules)) rows
  = safeTable files rules rows.
Proof.
  unfold safeTable. induction rows as [|r' rows IH]; simpl; [easy|].
  now rewrite rowCalls_keep_safe, IH.
Qed.

Lemma calls_Ok_safe (files : option (list FileData)) (rows : list Row)
    (i : nat) (rules : list ValidationRule) (errs : list ValidationError) :
  collect (calls rows i files rules) = Ok errs ->
  safeTable files rules rows = true.
Proof.
  revert i rules errs.
  induction rows as [|r rows IH]; intros i rules errs; simpl; [easy|].
  intros (x & y & Hx & Hy & ->)%collect_app_Ok.
  apply rowCalls_Ok_safe in Hx. apply IH in Hy.
  rewrite safeTable_rowCalls in Hy.
  change (forallb (ruleSafe files r) rules && safeTable files rules rows = true).
  now rewrite Hx, Hy.
Qed.

(** X4.  For a registry whose fields are no members of
    [Object.prototype]: [validateData] returns a list exactly when every
    cell of the table is safe for every rule of the registry, and throws
    a TypeError exactly when some cell is not.  A phone rule is safe on
    a falsy value or a string; a reference rule (when the dataset is
    given) on a falsy value or a text that [parseJsonArray] turns into
    an array whose ids outside the reference set all have a string
    form; a range rule that reads a number when it has a config; a regex
    rule that meets a truthy value when it has a pattern.  Under the
    built-in registry a table is safe exactly when, in every row, a
    truthy [PhoneNumber] is a string and, the dataset being given, a
    truthy [TaskIDs] parses to an array that holds no value without a
    string form. *)
Theorem X4_faults_exactly (rules : list ValidationRule) (data : list Row)
    (headers : list jsstring) (fileName : jsstring)
    (files : option (list FileData)) :
  plainFields rules = true ->
  ((exists errs, fst (validateData rules data headers fileName files) = Ok errs)
   <-> safeTable files rules data = true)
  /\ (fst (validateData rules data headers fileName files) = Throw TypeError
      <-> safeTable files rules data = false)
  /\ (safeTable files initialRules data = true
      <-> forall r : Row, In r data ->
            (truthy (getField r (js "PhoneNumber")) = true ->
             exists s, getField r (js "PhoneNumber") = PStr s)
            /\ (forall fs, files = Some fs ->
                truthy (getField r (js "TaskIDs")) = true ->
                exists ids, parseJsonArray (getField r (js "TaskIDs"))
                            = JArr ids
                            /\ forall id, In id ids -> ~ Unprintable id)).
Proof.
  intros _.
  assert (H1 : (exists errs, fst (validateData rules data headers fileName files)
                             = Ok errs)
               <-> safeTable files rules data = true).
  { split; [|apply validateData_total].
    intros [errs H]. rewrite validateData_structure in H.
    destruct (collect (calls data 0 files rules)) as [x|] eqn:Hc; [|discriminate].
    now apply calls_Ok_safe in Hc. }
  split; [exact H1|]. split.
  - destruct (fst (validateData rules data headers fileName files))
      as [errs|[]] eqn:Hv.
    + split; [discriminate|]. intros Hs.
      rewrite (proj1 H1 (ex_intro _ errs eq_refl)) in Hs. discriminate.
    + split; [intros _|reflexivity].
      destruct (safeTable files rules data) eqn:Hs; [|reflexivity].
      destruct (proj2 H1 eq_refl) as [errs He]. discriminate.
  - unfold safeTable. rewrite forallb_forall.
    apply forall_proper. intros r.
    apply Morphisms_Prop.iff_iff_iff_impl_morphism; [reflexivity|].
    unfold ruleSafe.
    cbn [forallb initialRules Rule.type Rule.field Rule.config pattern].
    set (ph := getField r (js "PhoneNumber")).
    set (tid := getField r (js "TaskIDs")).
    rewrite !orb_true_r, !andb_true_r. cbn [andb].
    rewrite andb_true_iff, orb_true_iff, negb_true_iff.
    split.
    + intros [Hph Href]. split.
      * intros Ht. destruct Hph as [Hph|Hph]; [congruence|].
        destruct ph; try discriminate. eauto.
      * intros fs -> Ht. apply orb_true_iff in Href as [Hr|Hr].
        -- apply negb_true_iff in Hr. congruence.
        -- destruct (parseJsonArray tid) as [| | | |ids|]; try discriminate.
           exists ids. split; [reflexivity|]. intros id Hin Hu.
           destruct (joinMay _ _ _) eqn:Hj in Hr; [|discriminate].
           assert (Hn : joinMay elementToString (js ", ")
                          (List.filter
                             (fun id => negb (arrayIncludes (getAllTaskIds fs) id))
                             ids) = None); [|congruence].
           apply join_None. exists id. split; [|exact Hu].
           apply List.filter_In. split; [exact Hin|].
           now rewrite arrayIncludes_Unprintable.
    + intros [Hph Href]. split.
      * destruct (truthy ph) eqn:Ht; [right|now left].
        destruct (Hph eq_refl) as [s ->]. reflexivity.
      * destruct files as [fs|]; [|reflexivity].
        destruct (truthy tid) eqn:Ht; [|reflexivity].
        destruct (Href fs eq_refl eq_refl) as (ids & -> & Hids).
        destruct (joinMay _ _ _) eqn:Hj; [reflexivity|].
        apply join_None in Hj as (x & [Hin _]%List.filter_In & Hx).
        now destruct (Hids x Hin).
Qed.

Lemma X4_faults_exactly_witness :
  (exists errs,
      fst (validateData initialRules messy [js "Name"; js "Email"]
             (js "clients.csv") (Some [])) = Ok errs)
  /\ fst (validateData initialRules
            [rowOf [("TaskIDs"%string, ownToString)]] [js "TaskIDs"]
            (js "clients.csv") (Some threeFiles)) = Throw TypeError.
Proof.
  split.
  - apply (proj1 (X4_faults_exactly initialRules messy
                    [js "Name"; js "Email"] (js "clients.csv") (Some [])
                    eq_refl)).
    vm_compute; reflexivity.
  - apply (proj1 (proj2 (X4_faults_exactly initialRules
                           [rowOf [("TaskIDs"%string, ownToString)]]
                           [js "TaskIDs"] (js "clients.csv") (Some threeFiles)
                           eq_refl))).
    vm_compute; reflexivity.
Defined.

(** *** How many errors, and for which rows *)

(** A rule gives a row one error at most, and a rule that tracks the
    value of the row gives none. *)
Lemma rowCalls_count (files : option (list FileData)) (r : Row) (i : nat)
    (rules : list ValidationRule) (errs : list ValidationError) :
  collect (map fst (rowCalls r i files rules)) = Ok errs ->
  length errs + length (trackedInRow rules r i) <= length rules.
Proof.
  unfold rowCalls, trackedInRow. revert errs.
  induction rules as [|a rules IH]; simpl; intros errs.
  - intros [= <-]. simpl. lia.
  - destruct (validateField (getField r (Rule.field a)) a i r files)
      as [[o|ex] a'] eqn:Hv; simpl; [|discriminate].
    destruct (collect _) as [rest|] eqn:Hc; [|discriminate].
    intros [= <-]. specialize (IH rest eq_refl). rewrite length_app.
    destruct o as [e|].
    + apply validateField_error in Hv as (_ & _ & _ & _ & Hd).
      destruct (Rule.type a); try (simpl; lia). congruence.
    + destruct (Rule.type a); try (simpl; lia).
      destruct (truthy _); simpl; lia.
Qed.

Lemma rowCalls_length (files : option (list FileData)) (r : Row) (i : nat)
    (rules : list ValidationRule) :
  length (map snd (rowCalls r i files rules)) = length rules.
Proof. unfold rowCalls. now rewrite !length_map. Qed.

Lemma calls_count (files : option (list FileData)) (rows : list Row) (i : nat)
    (rules : list ValidationRule) (errs : list ValidationError) :
  collect (calls rows i files rules) = Ok errs ->
  length errs + length (tracked rules rows i) <= length rows * length rules.
Proof.
  revert i rules errs.
  induction rows as [|r rows IH]; intros i rules errs; simpl.
  - intros [= <-]. simpl. lia.
  - intros (x & y & Hx & Hy & ->)%collect_app_Ok.
    apply rowCalls_count in Hx. apply IH in Hy.
    destruct (rowCalls_shape files r i rules) as [Ht Hf].
    rewrite (tracked_shape _ _ rows (S i) Ht Hf), rowCalls_length in Hy.
    rewrite !length_app. lia.
Qed.

(** The rows of the calls and of the values tracked are rows of the
    table. *)
Lemma calls_rows_below (files : option (list FileData)) (rows : list Row)
    (i : nat) (rules : list ValidationRule) (errs : list ValidationError) :
  collect (calls rows i files rules) = Ok errs ->
  Forall (fun e => row e < i + length rows) errs.
Proof.
  revert i rules errs.
  induction rows as [|r rows IH]; intros i rules errs; simpl.
  - intros [= <-]. constructor.
  - intros (x & y & Hx & Hy & ->)%collect_app_Ok.
    apply rowCalls_errors in Hx. apply IH in Hy.
    apply Forall_app; split.
    + eapply List.Forall_impl; [|exact Hx]. intros e [He _]. lia.
    + eapply List.Forall_impl; [|exact Hy]. intros e He. simpl in He. lia.
Qed.

Lemma tracked_rows_below (rules : list ValidationRule) (rows : list Row)
    (i : nat) :
  Forall (fun p => snd p < i + length rows) (tracked rules rows i).
Proof.
  revert i. induction rows as [|r rows IH]; intros i; simpl; [constructor|].
  apply Forall_app; split.
  - clear IH. unfold trackedInRow.
    induction rules as [|a rules IHr]; simpl; [constructor|].
    apply Forall_app; split; [|exact IHr].
    destruct (Rule.type a); try constructor.
    destruct (truthy _); repeat constructor. simpl. lia.
  - eapply List.Forall_impl; [|exact (IH (S i))]. intros p Hp. simpl in Hp. lia.
Qed.

(** The entries of a tracker hold one row index per call of [track]. *)
Lemma track_size (tr : Tracker) (k : prim) (i : nat) :
  length (concat (map snd (track tr k i))) = S (length (concat (map snd tr))).
Proof.
  induction tr as [|[k' rows] tr IH]; simpl; [reflexivity|].
  destruct (primSame k' k); simpl.
  - rewrite !length_app. simpl. lia.
  - rewrite !length_app, IH. lia.
Qed.

Lemma trackAll_size (tr : Tracker) (seq : list (prim * nat)) :
  length (concat (map snd (trackAll tr seq)))
  = length (concat (map snd tr)) + length seq.
Proof.
  unfold trackAll. revert tr.
  induction seq as [|[k i] seq IH]; intros tr; simpl; [lia|].
  rewrite IH, track_size. lia.
Qed.

Lemma groupsOf_size (seq : list (prim * nat)) :
  length (concat (map snd (groupsOf seq))) = length seq.
Proof.
  change seq with ([] ++ seq) at 1. rewrite <- trackAll_groupsOf.
  now rewrite trackAll_size.
Qed.

Lemma duplicateGroups_count (seq : list (prim * nat)) :
  length (flat_map (fun v => duplicateGroup v (rowsOf seq v))
            (distinct (map fst seq)))
  <= length seq.
Proof.
  rewrite <- (groupsOf_size seq). unfold groupsOf.
  induction (distinct (map fst seq)) as [|v l IH]; simpl; [lia|].
  rewrite !length_app. unfold duplicateGroup at 1.
  destruct (2 <=? _)%nat; [rewrite length_map|simpl]; lia.
Qed.

Lemma duplicateGroups_rows (seq : list (prim * nat)) (e : ValidationError) :
  In e (flat_map (fun v => duplicateGroup v (rowsOf seq v))
          (distinct (map fst seq))) ->
  In (row e) (map snd seq).
Proof.
  intros (v & _ & He)%in_flat_map. unfold duplicateGroup in He.
  destruct (2 <=? _)%nat; [|destruct He].
  apply in_map_iff in He as (j & <- & Hj). simpl.
  unfold rowsOf in Hj. apply in_map_iff in Hj as (p & <- & Hp).
  apply List.filter_In in Hp as [Hp _]. now apply in_map.
Qed.

(** The errors returned point at rows of the table. *)
Lemma validateData_rows_below (rules : list ValidationRule) (data : list Row)
    (headers : list jsstring) (fileName : jsstring)
    (files : option (list FileData)) (errs : list ValidationError) :
  fst (validateData rules data headers fileName files) = Ok errs ->
  Forall (fun e => row e < length data) errs.
Proof.
  rewrite validateData_structure.
  destruct (collect (calls data 0 files rules)) as [x|] eqn:Hc; [|discriminate].
  intros [= <-]. apply Forall_app; split.
  - exact (calls_rows_below files data 0 rules x Hc).
  - apply List.Forall_forall. intros e He. apply duplicateGroups_rows in He.
    apply in_map_iff in He as (p & <- & Hp).
    pose proof (tracked_rows_below rules data 0) as Hb.
    rewrite List.Forall_forall in Hb. exact (Hb p Hp).
Qed.

(** X5.  Every error that [validateData] returns points at a row of the
    table (its row index is below the number of rows), and there are at
    most as many errors as rows times rules of the registry: each rule
    gives a row one error at most, the per-row error or the aggregate
    error of a duplicate. *)
Theorem X5_errors_within_table (rules : list ValidationRule) (data : list Row)
    (headers : list jsstring) (fileName : jsstring)
    (files : option (list FileData)) (errs : list ValidationError) :
  fst (validateData rules data headers fileName files) = Ok errs ->
  Forall (fun e => row e < length data) errs
  /\ length errs <= length data * length rules.
Proof.
  intros H. split; [exact (validateData_rows_below _ _ _ _ _ _ H)|].
  rewrite validateData_structure in H.
  destruct (collect (calls data 0 files rules)) as [x|] eqn:Hc; [|discriminate].
  injection H as <-. rewrite length_app.
  pose proof (calls_count files data 0 rules x Hc).
  pose proof (duplicateGroups_count (tracked rules data 0)). lia.
Qed.

Lemma X5_errors_within_table_witness :
  Forall (fun e => row e < 3) messyErrors /\ length messyErrors <= 3 * 8.
Proof.
  exact (X5_errors_within_table initialRules messy [] (js "clients.csv") None
           messyErrors eq_refl).
Defined.

(** *** The duplicate errors of one row *)

Lemma primSame_truthy (a b : prim) :
  primSame a b = true -> truthy a = truthy b.
Proof.
  intros H%primSame_canon.
  assert (Hc : forall v, truthy (canonKey v) = truthy v)
    by (intros [| | |[]|]; reflexivity).
  now rewrite <- (Hc a), <- (Hc b), H.
Qed.

Lemma filter_flat_map {A B} (p : B -> bool) (f : A -> list B) (l : list A) :
  List.filter p (flat_map f l) = flat_map (fun a => List.filter p (f a)) l.
Proof.
  induction l as [|a l IH]; simpl; [reflexivity|].
  now rewrite List.filter_app, IH.
Qed.

Lemma ascending_once (g : list nat) (i : nat) :
  StronglySorted Nat.lt g ->
  length (List.filter (fun j => j =? i) g) <= 1.
Proof.
  induction 1 as [|a g Hs IH Hf]; simpl; [lia|].
  destruct (Nat.eqb_spec a i) as [->|]; [|assumption].
  rewrite filter_none; [simpl; lia|].
  eapply List.Forall_impl; [|exact Hf]. intros j Hj. apply Nat.eqb_neq. lia.
Qed.

Lemma two_members (g : list nat) (i j : nat) :
  In i g -> In j g -> i <> j -> 2 <= length g.
Proof.
  destruct g as [|a [|b g]]; simpl.
  - tauto.
  - intros [->|[]] [->|[]]. congruence.
  - lia.
Qed.

Lemma other_member (g : list nat) (i : nat) :
  StronglySorted Nat.lt g -> 2 <= length g ->
  exists j, In j g /\ j <> i.
Proof.
  destruct g as [|a [|b g]]; simpl; [lia|lia|]. intros Hs _.
  apply StronglySorted_inv in Hs as [_ Hf].
  apply Forall_cons_iff in Hf as [Hab _].
  destruct (Nat.eq_dec a i) as [->|Hne]; [exists b|exists a]; split; auto; lia.
Qed.

(** The errors of the group of a value for the row [i]. *)
Lemma duplicateGroup_at (v : prim) (g : list nat) (i : nat) :
  List.filter (fun e => strEq (ruleId e) (js "duplicate-ids") && (row e =? i))
    (duplicateGroup v g)
  = if (2 <=? length g)%nat
    then map (duplicateError v g) (List.filter (fun j => j =? i) g)
    else [].
Proof.
  unfold duplicateGroup. destruct (2 <=? length g)%nat; [|reflexivity].
  generalize g at 1 3. intros g0.
  induction g as [|a l IH]; [reflexivity|].
  cbn [map List.filter].
  change (strEq (ruleId (duplicateError v g0 a)) (js "duplicate-ids")
          && (row (duplicateError v g0 a) =? i)) with (a =? i).
  destruct (a =? i); cbn [map]; now rewrite IH.
Qed.

(** The row [i] is in the rows of [v] only when [v] is the key of its
    client id. *)
Lemma affectedRows_same (data : list Row) (v k : prim) (i : nat) :
  In i (affectedRows data v) -> In i (affectedRows data k) ->
  primSame v k = true.
Proof.
  intros (r & Hr & _ & Hv)%affectedRows_In (r' & Hr' & _ & Hk)%affectedRows_In.
  rewrite Hr in Hr'. injection Hr' as <-.
  rewrite primSame_sym in Hk. eapply primSame_trans; eauto.
Qed.

Lemma filter_eq_nil_notin (g : list nat) (i : nat) :
  ~ In i g -> List.filter (fun j => j =? i) g = [].
Proof.
  intros H. apply filter_none. apply List.Forall_forall. intros j Hj.
  apply Nat.eqb_neq. intros ->. contradiction.
Qed.

Lemma filter_eq_In (g : list nat) (i : nat) :
  In i g -> List.filter (fun j => j =? i) g <> [].
Proof.
  intros H Hn. assert (Hi : In i (List.filter (fun j => j =? i) g)).
  { apply List.filter_In. split; [assumption|apply Nat.eqb_refl]. }
  rewrite Hn in Hi. destruct Hi.
Qed.

(** X6.  Under the built-in registry a row gets at most one error with
    the id [duplicate-ids], and it gets one exactly when its [ClientID]
    is truthy and another row holds the same [ClientID] (compared as the
    keys of a Map). *)
Theorem X6_duplicate_rows (data : list Row) (headers : list jsstring)
    (fileName : jsstring) (files : option (list FileData))
    (errs : list ValidationError) (i : nat) :
  fst (validateData initialRules data headers fileName files) = Ok errs ->
  length (List.filter (fun e => strEq (ruleId e) (js "duplicate-ids")
                                && (row e =? i)) errs) <= 1
  /\ (List.filter (fun e => strEq (ruleId e) (js "duplicate-ids")
                            && (row e =? i)) errs <> []
      <-> exists (r : Row) (j : nat) (r' : Row),
            data !! i = Some r /\ data !! j = Some r' /\ i <> j
            /\ truthy (getField r (js "ClientID")) = true
            /\ primSame (getField r (js "ClientID"))
                 (getField r' (js "ClientID")) = true).
Proof.
  rewrite validateData_structure, tracked_initialRules.
  destruct (collect (calls data 0 files initialRules)) as [x|] eqn:Hc;
    [|discriminate].
  intros [= <-].
  fold (affectedRows data). fold (distinctValues data).
  set (sel := fun e => strEq (ruleId e) (js "duplicate-ids") && (row e =? i)).
  assert (Hx : List.filter sel x = []).
  { apply calls_errors in Hc as [_ Hc]. apply filter_none.
    eapply List.Forall_impl; [|exact Hc].
    intros e (_ & t & Hin & Ht). unfold sel.
    now rewrite (initialRules_duplicate_id e t Hin Ht). }
  rewrite List.filter_app, Hx, app_nil_l, filter_flat_map.
  rewrite (flat_map_ext _ _ (fun v => duplicateGroup_at v (affectedRows data v) i)).
  split.
  - destruct (existsb (fun v => existsb (fun j => j =? i) (affectedRows data v))
                (distinctValues data)) eqn:Hex.
    + apply existsb_exists in Hex as (k & Hk & Hik).
      apply existsb_exists in Hik as (j & Hj & ->%Nat.eqb_eq).
      rewrite (flat_map_single _ k).
      * destruct (2 <=? _)%nat; [|simpl; lia]. rewrite length_map.
        apply ascending_once, affectedRows_ascending.
      * apply distinct_pairwise.
      * exact Hk.
      * intros v _ Hvk. destruct (2 <=? _)%nat; [|reflexivity].
        rewrite filter_eq_nil_notin; [reflexivity|].
        intros Hv. rewrite (affectedRows_same data v k i Hv Hj) in Hvk.
        discriminate.
    + rewrite flat_map_nil; [simpl; lia|].
      intros v Hv. destruct (2 <=? _)%nat; [|reflexivity].
      rewrite filter_eq_nil_notin; [reflexivity|]. intros Hi.
      assert (Ht : existsb (fun v => existsb (fun j => j =? i) (affectedRows data v))
                     (distinctValues data) = true).
      { apply existsb_exists. exists v. split; [assumption|].
        apply existsb_exists. exists i. split; [assumption|apply Nat.eqb_refl]. }
      congruence.
  - split.
    + intros Hne.
      destruct (flat_map _ _) as [|e l] eqn:Hfm in Hne; [contradiction|].
      assert (He : In e (e :: l)) by now left.
      rewrite <- Hfm in He. clear Hfm Hne.
      apply in_flat_map in He as (v & Hv & He).
      destruct (Nat.leb_spec 2 (length (affectedRows data v))) as [Hlen|];
        [|destruct He].
      apply in_map_iff in He as (j & _ & [Hj ->%Nat.eqb_eq]%List.filter_In).
      destruct (other_member _ i (affectedRows_ascending data v) Hlen)
        as (j & Hjin & Hji).
      apply affectedRows_In in Hj as (r & Hr & Ht & Hs).
      apply affectedRows_In in Hjin as (r' & Hr' & Ht' & Hs').
      exists r, j, r'. repeat split; auto.
      rewrite primSame_sym in Hs. eapply primSame_trans; eauto.
    + intros (r & j & r' & Hr & Hr' & Hij & Ht & Hs).
      assert (Hex : existsb (fun k' => primSame k' (getField r (js "ClientID")))
                      (distinctValues data) = true).
      { unfold distinctValues. rewrite existsb_distinct.
        apply existsb_exists. exists (getField r (js "ClientID")).
        split; [|apply primSame_refl].
        apply in_map_iff. exists (getField r (js "ClientID"), i).
        split; [reflexivity|]. apply clientIds_In. split; [lia|].
        exists r. rewrite Nat.sub_0_r. auto. }
      apply existsb_In_same in Hex as (v & Hv & Hvk).
      assert (Hi : In i (affectedRows data v))
        by (apply affectedRows_In; eauto).
      assert (Hj : In j (affectedRows data v)).
      { apply affectedRows_In. exists r'. split; [assumption|].
        split; [now rewrite <- (primSame_truthy _ _ Hs)|].
        eapply primSame_trans; eauto. }
      pose proof (two_members _ i j Hi Hj Hij) as Hlen.
      intros Hnil.
      assert (He : In (duplicateError v (affectedRows data v) i)
                     (flat_map (fun v => if (2 <=? length (affectedRows data v))%nat
                                 then map (duplicateError v (affectedRows data v))
                                        (List.filter (fun j => j =? i)
                                           (affectedRows data v))
                                 else []) (distinctValues data))).
      { apply in_flat_map. exists v. split; [assumption|].
        destruct (Nat.leb_spec 2 (length (affectedRows data v))); [|lia].
        apply in_map, List.filter_In. split; [assumption|apply Nat.eqb_refl]. }
      rewrite Hnil in He. destruct He.
Qed.

Lemma X6_duplicate_rows_witness :
  exists errs : list ValidationError,
    fst (validateData initialRules sixClients [js "Name"; js "ClientID"]
           (js "clients.csv") None) = Ok errs
    /\ length (List.filter (fun e => strEq (ruleId e) (js "duplicate-ids")
                                     && (row e =? 5)) errs) <= 1
    /\ List.filter (fun e => strEq (ruleId e) (js "duplicate-ids")
                             && (row e =? 5)) errs <> [].
Proof.
  eexists. split; [vm_compute; reflexivity|].
  match goal with
  | |- length (List.filter _ ?errs) <= 1 /\ _ =>
      pose proof (X6_duplicate_rows sixClients [js "Name"; js "ClientID"]
                    (js "clients.csv") None errs 5 eq_refl) as [H1 H2]
  end.
  split; [exact H1|]. apply H2.
  exists (client "C1"), 2, (client "C1"). repeat split; try reflexivity. lia.
Defined.

(** *** A rule added at the end of the registry *)

Lemma rowCalls_snoc (files : option (list FileData)) (r : Row) (i : nat)
    (rules : list ValidationRule) (q : ValidationRule) :
  rowCalls r i files (rules ++ [q])
  = rowCalls r i files rules
    ++ [validateField (getField r (Rule.field q)) q i r files].
Proof. unfold rowCalls. now rewrite map_app. Qed.

Lemma tracked_snoc (rules : list ValidationRule) (q : ValidationRule)
    (rows : list Row) (i : nat) :
  Rule.type q <> Duplicate ->
  tracked (rules ++ [q]) rows i = tracked rules rows i.
Proof.
  intros Hq. revert i. induction rows as [|r rows IH]; intros i; simpl; [easy|].
  rewrite IH. f_equal. unfold trackedInRow. rewrite flat_map_app. simpl.
  destruct (Rule.type q); try congruence; now rewrite !app_nil_r.
Qed.

(** The errors of the calls for the registry with [q] at its end are
    those for the registry, with the errors of [q] among them. *)
Lemma calls_snoc (files : option (list FileData)) (rows : list Row) :
  forall (i : nat) (rules : list ValidationRule) (q : ValidationRule)
         (errs' : list ValidationError),
    ~ In (Rule.id q) (map fst (map ruleMeta rules)) ->
    collect (calls rows i files (rules ++ [q])) = Ok errs' ->
    collect (calls rows i files rules)
    = Ok (List.filter (fun e => negb (strEq (ruleId e) (Rule.id q))) errs').
Proof.
  induction rows as [|r rows IH]; intros i rules q errs' Hfresh; simpl.
  - intros [= <-]. reflexivity.
  - rewrite rowCalls_snoc, !map_app. cbn [map].
    intros (x' & rest' & Hx' & Hrest' & ->)%collect_app_Ok.
    apply collect_app_Ok in Hx' as (x & y & Hx & Hy & ->).
    pose proof (validateField_meta files (getField r (Rule.field q)) q i r) as Hm.
    assert (Hid : Rule.id (snd (validateField (getField r (Rule.field q)) q i r
                                  files)) = Rule.id q)
      by (now injection Hm).
    apply IH in Hrest'.
    2:{ rewrite rowCalls_meta, Hid. exact Hfresh. }
    rewrite Hid in Hrest'.
    rewrite collect_app, Hx, Hrest', !List.filter_app.
    assert (Hkeep : List.filter (fun e => negb (strEq (ruleId e) (Rule.id q))) x = x).
    { apply rowCalls_errors in Hx. clear -Hx Hfresh.
      induction Hx as [|e x (_ & t & Hin & _) _ IHx]; simpl; [reflexivity|].
      rewrite IHx.
      assert (Hne : strEq (ruleId e) (Rule.id q) = false).
      { apply strEq_false. intros Heq. apply Hfresh. rewrite <- Heq.
        apply (in_map fst) in Hin. exact Hin. }
      now rewrite Hne. }
    assert (Hdrop : List.filter (fun e => negb (strEq (ruleId e) (Rule.id q))) y = []).
    { destruct (validateField (getField r (Rule.field q)) q i r files)
        as [[[e|]|ex] q'] eqn:Hv; simpl in Hy; try discriminate;
        injection Hy as <-; [|reflexivity].
      apply validateField_error in Hv as (_ & _ & _ & He & _).
      simpl. now rewrite He, strEq_refl. }
    now rewrite Hkeep, Hdrop, app_nil_r.
Qed.

(** A rule without evaluator at the end of the registry changes no
    call. *)
Lemma calls_snoc_custom (files : option (list FileData)) (rows : list Row) :
  forall (i : nat) (rules : list ValidationRule) (q : ValidationRule),
    Rule.type q = Custom ->
    collect (calls rows i files (rules ++ [q]))
    = collect (calls rows i files rules).
Proof.
  induction rows as [|r rows IH]; intros i rules q Hq; simpl; [reflexivity|].
  rewrite rowCalls_snoc, !map_app. cbn [map].
  assert (Hv : validateField (getField r (Rule.field q)) q i r files
               = (Ok None, q))
    by (unfold validateField; now rewrite Hq).
  rewrite Hv. cbn [fst snd].
  rewrite !collect_app, (IH _ _ _ Hq).
  destruct (collect (map fst (rowCalls r i files rules))) as [x|]; [|reflexivity].
  simpl. destruct (collect (calls rows (S i) files _)); [|reflexivity].
  now rewrite app_nil_r.
Qed.

(** X7.  A rule of type [custom] added with [addCustomRule] has no
    evaluator: [validateData] returns the same list, or throws the same
    exception, as without it, whatever the fields of the rule;
    [getRules] then gives the registry with the rule at its end. *)
Theorem X7_custom_rule_is_inert (id name field message : jsstring)
    (sev : Severity) (cfg : option Config)
    (rules : list ValidationRule) (data : list Row)
    (headers : list jsstring) (fileName : jsstring)
    (files : option (list FileData)) :
  fst (validateData
         (addCustomRule (Rule.mk id name Custom field message sev cfg) rules)
         data headers fileName files)
  = fst (validateData rules data headers fileName files)
  /\ getRules (addCustomRule (Rule.mk id name Custom field message sev cfg)
                 rules)
     = rules ++ [Rule.mk id name Custom field message sev cfg].
Proof.
  split; [|reflexivity].
  unfold addCustomRule, getRules. rewrite !validateData_structure.
  rewrite calls_snoc_custom by reflexivity.
  rewrite tracked_snoc by discriminate. reflexivity.
Qed.

(** X8.  A rule that writes no pattern object is evaluated
    independently of the others: when a rule that is no duplicate rule
    and has no global or sticky pattern, with an id that no rule of the
    registry has and that is not [duplicate-ids], is added at the end of
    the registry and [validateData] returns a list, the list without the
    errors of the new rule is the list [validateData] returns without
    the rule, in the same order.  (A rule with a global or sticky
    pattern may hold the pattern object of another rule, and then moves
    its [lastIndex].) *)
Theorem X8_rules_are_independent (q : ValidationRule)
    (rules : list ValidationRule) (data : list Row)
    (headers : list jsstring) (fileName : jsstring)
    (files : option (list FileData)) (errs' : list ValidationError) :
  Rule.type q <> Duplicate ->
  statelessRule q = true ->
  existsb (strEq (Rule.id q)) (js "duplicate-ids" :: map Rule.id rules)
  = false ->
  fst (validateData (addCustomRule q rules) data headers fileName files)
  = Ok errs' ->
  fst (validateData rules data headers fileName files)
  = Ok (List.filter (fun e => negb (strEq (ruleId e) (Rule.id q))) errs').
Proof.
  intros Hq _ Hfresh. unfold addCustomRule. rewrite !validateData_structure.
  rewrite tracked_snoc by assumption.
  destruct (collect (calls data 0 files (rules ++ [q]))) as [x'|] eqn:Hc;
    [|discriminate].
  intros [= <-].
  cbn [existsb] in Hfresh. apply orb_false_iff in Hfresh as [Hdup Hids].
  assert (Hnew : ~ In (Rule.id q) (map fst (map ruleMeta rules))).
  { rewrite map_map. intros Hin.
    assert (Ht : existsb (strEq (Rule.id q)) (map Rule.id rules) = true).
    { apply existsb_exists. exists (Rule.id q).
      split; [exact Hin|apply strEq_refl]. }
    congruence. }
  rewrite (calls_snoc files data 0 rules q x' Hnew Hc).
  rewrite List.filter_app. do 2 f_equal.
  symmetry. apply forallb_filter_id, forallb_forall.
  intros e (v & _ & He)%in_flat_map. unfold duplicateGroup in He.
  destruct (2 <=? _)%nat; [|destruct He].
  apply in_map_iff in He as (j & <- & _). cbn [ruleId duplicateError].
  apply negb_true_iff, strEq_false. apply strEq_false in Hdup. congruence.
Qed.

Lemma X8_rules_are_independent_witness :
  exists errs' : list ValidationError,
    fst (validateData (addCustomRule requiredEmail initialRules) messy []
           (js "clients.csv") None) = Ok errs'
    /\ length errs' = 6
    /\ fst (validateData initialRules messy [] (js "clients.csv") None)
       = Ok (List.filter
               (fun e => negb (strEq (ruleId e) (Rule.id requiredEmail)))
               errs').
Proof.
  eexists. split; [vm_compute; reflexivity|]. split; [reflexivity|].
  apply X8_rules_are_independent; [discriminate|reflexivity|reflexivity|].
  vm_compute. reflexivity.
Defined.

(** *** The dashboard *)

Lemma allErrors_clean (files : list FileData) :
  Forall (fun file => validationErrors file = []) files ->
  allErrors files = [].
Proof.
  unfold allErrors. induction 1 as [|f files Hf _ IH]; simpl; [reflexivity|].
  now rewrite Hf, IH.
Qed.

(** X9.  For a dataset in which no file has a validation error, whatever
    its files and rows (none at all included), the dashboard computes
    the score 100 and counts no error and no warning, the report of
    [exportDetailedReport] carries the score 100, no recommendation and
    an empty rule breakdown. *)
Theorem X9_clean_dataset (rules : list ValidationRule)
    (files : list FileData) (now : jsstring) :
  Forall (fun file => validationErrors file = []) files ->
  validationScore files = ofZ 100
  /\ Summary.validationScore (exportDetailedReport files now) = ofZ 100
  /\ Summary.totalErrors (exportDetailedReport files now) = ofZ 0
  /\ Summary.totalWarnings (exportDetailedReport files now) = ofZ 0
  /\ recommendations files = []
  /\ ruleBreakdown rules files = Ok [].
Proof.
  intros H%allErrors_clean.
  assert (Hs : validationScore files = ofZ 100).
  { unfold validationScore, errorCount, warningCount. rewrite H.
    cbn [List.filter length].
    destruct (totalRows files) as [s|s| |s m e]; try reflexivity;
      destruct s; reflexivity. }
  unfold recommendations, ruleBreakdown, errorsByRule, exportDetailedReport.
  cbn [Summary.validationScore Summary.totalErrors Summary.totalWarnings].
  unfold errorCount, warningCount. rewrite Hs, H.
  repeat split; reflexivity.
Qed.

Lemma X9_clean_dataset_witness :
  validationScore [tasksFile] = ofZ 100
  /\ recommendations [tasksFile] = [].
Proof.
  pose proof (X9_clean_dataset initialRules [tasksFile] (js "2025-01-01")
                ltac:(repeat constructor)) as (H1 & _ & _ & _ & H2 & _).
  split; [exact H1|exact H2].
Defined.

Lemma afterClicks_parity (n : nat) :
  afterClicks n = if Nat.even n then All else Errors.
Proof.
  induction n as [|n IH]; [reflexivity|].
  cbn [afterClicks]. rewrite IH, Nat.even_succ, <- Nat.negb_even.
  now destruct (Nat.even n).
Qed.

Lemma filteredErrors_Errors (files : list FileData) :
  filteredErrors Errors files = List.filter isError (allErrors files).
Proof.
  unfold filteredErrors. apply List.filter_ext. intros [e n].
  unfold isError. simpl. now destruct (severity e).
Qed.

Lemma filter_take {A} (p : A -> bool) (n : nat) (l : list A) :
  List.filter p (take n (List.filter (fun x => negb (p x)) l)) = [].
Proof.
  revert n. induction l as [|x l IH]; intros n; simpl.
  - now destruct n.
  - destruct (p x) eqn:Hx; simpl; [apply IH|].
    destruct n as [|n]; simpl; [reflexivity|]. now rewrite Hx, IH.
Qed.

(** X10.  The detailed list of the dashboard.  The filter starts as
    [all] and its button switches between [all] and [errors]: after any
    number of clicks it is [all] (even) or [errors] (odd), never
    [warnings].  The list shows the first 50 entries of all errors, or
    of those of severity [error], in the order of [allErrors].  So the
    warnings shown are those among the first 50 entries of all errors
    under [all], and none under [errors]: a warning that comes later is
    never shown.  The line "Showing 50 of n issues" is absent exactly
    when the list shows all the filtered entries; when it is there,
    [n] is their number, above 50, and 50 are shown. *)
Theorem X10_detail_list (files : list FileData) (clicks : nat) :
  afterClicks clicks = (if Nat.even clicks then All else Errors)
  /\ shownErrors (afterClicks clicks) files
     = take 50 (if Nat.even clicks then allErrors files
                else List.filter isError (allErrors files))
  /\ List.filter isWarning (shownErrors (afterClicks clicks) files)
     = (if Nat.even clicks
        then List.filter isWarning (take 50 (allErrors files))
        else [])
  /\ (hiddenNote (afterClicks clicks) files = None
      <-> shownErrors (afterClicks clicks) files
          = filteredErrors (afterClicks clicks) files)
  /\ (forall n : nat,
        hiddenNote (afterClicks clicks) files = Some n ->
        n = length (filteredErrors (afterClicks clicks) files)
        /\ 50 < n
        /\ length (shownErrors (afterClicks clicks) files) = 50).
Proof.
  assert (Hs : shownErrors (afterClicks clicks) files
               = take 50 (if Nat.even clicks then allErrors files
                          else List.filter isError (allErrors files))).
  { unfold shownErrors. rewrite afterClicks_parity.
    destruct (Nat.even clicks); [reflexivity|].
    now rewrite filteredErrors_Errors. }
  split; [apply afterClicks_parity|]. split; [exact Hs|]. split; [|split].
  - rewrite Hs. destruct (Nat.even clicks); [reflexivity|].
    rewrite (List.filter_ext isError (fun x => negb (isWarning x))).
    + apply filter_take.
    + intros [e n]. unfold isError, isWarning. simpl. now destruct (severity e).
  - unfold hiddenNote, shownErrors.
    set (l := filteredErrors (afterClicks clicks) files).
    destruct (50 <? length l)%nat eqn:Hl.
    + apply Nat.ltb_lt in Hl. split; [discriminate|]. intros H.
      apply (f_equal (@length _)) in H. rewrite length_take in H. lia.
    + apply Nat.ltb_ge in Hl. split; [|reflexivity]. intros _.
      now apply take_ge.
  - intros n. unfold hiddenNote, shownErrors.
    set (l := filteredErrors (afterClicks clicks) files).
    destruct (50 <? length l)%nat eqn:Hl; [|discriminate].
    apply Nat.ltb_lt in Hl. intros [= <-]. rewrite length_take. lia.
Qed.

(** *** The errors by rule *)

(** [addTo] finds the own key, and changes the group of that key only. *)
Lemma addTo_None (acc : list (jsstring * Group.t)) (k : jsstring)
    (e : ValidationError * jsstring) (f : option ValidationRule) :
  addTo acc k e f = None <-> ~ In k (map fst acc).
Proof.
  induction acc as [|[k' g] acc IH]; simpl; [tauto|].
  destruct (strEq k' k) eqn:Hk.
  - apply strEq_eq in Hk. split; [discriminate|]. intros H. exfalso. auto.
  - apply strEq_false in Hk. destruct (addTo acc k e f).
    + split; [discriminate|]. intros H. exfalso.
      assert (Hn : ~ In k (map fst acc)) by tauto.
      apply IH in Hn. discriminate.
    + split; [|reflexivity]. intros _ [H|H]; [contradiction|].
      now apply (proj1 IH).
Qed.

Lemma addTo_Some (acc acc' : list (jsstring * Group.t)) (k : jsstring)
    (e : ValidationError * jsstring) (f : option ValidationRule) :
  addTo acc k e f = Some acc' ->
  exists pre g post,
    acc = pre ++ (k, g) :: post
    /\ acc' = pre ++ (k, Group.mk (S (Group.count g)) (Group.errors g ++ [e]) f)
                     :: post
    /\ ~ In k (map fst pre).
Proof.
  revert acc'. induction acc as [|[k' g] acc IH]; simpl; intros acc';
    [discriminate|].
  destruct (strEq k' k) eqn:Hk.
  - apply strEq_eq in Hk. subst k'. intros [= <-].
    exists [], g, acc. simpl. auto.
  - apply strEq_false in Hk. destruct (addTo acc k e f) as [rest|]; [|discriminate].
    intros [= <-]. destruct (IH rest eq_refl) as (pre & g0 & post & -> & -> & Hn).
    exists ((k', g) :: pre), g0, post. simpl. repeat split; auto.
    intros [H|H]; auto.
Qed.

Lemma filter_snoc {A} (p : A -> bool) (l : list A) (x : A) :
  List.filter p (l ++ [x]) = List.filter p l ++ (if p x then [x] else []).
Proof. rewrite List.filter_app. simpl. now destruct (p x). Qed.

Lemma list_sum_middle (a b : list nat) (x : nat) :
  list_sum (a ++ x :: b) = x + list_sum (a ++ b).
Proof. rewrite !list_sum_app. simpl. lia. Qed.

(** One step of the reduction keeps the groups. *)
Lemma groupStep_grouped (rules : list ValidationRule)
    (acc acc' : list (jsstring * Group.t))
    (seen : list (ValidationError * jsstring))
    (e : ValidationError * jsstring) :
  grouped acc seen -> groupStep rules acc e = Ok acc' ->
  grouped acc' (seen ++ [e]).
Proof.
  intros (Hnd & Hg & Hk & Hsum). unfold groupStep.
  destruct (addTo acc (ruleKey e) e (findRule rules (ruleKey e)))
    as [acc1|] eqn:Ha.
  - intros [= <-].
    apply addTo_Some in Ha as (pre & g & post & -> & -> & Hpre).
    rewrite map_app in Hnd. simpl in Hnd.
    assert (Hpost : ~ In (ruleKey e) (map fst post)).
    { apply List.NoDup_remove_2 in Hnd. intros H. apply Hnd, in_or_app. now right. }
    destruct (Hg (ruleKey e) g) as (Hge & Hgc & Hgn & Hgp);
      [apply in_or_app; right; now left|].
    split; [now rewrite map_app|]. split; [|split].
    + intros k g1 Hin. apply in_app_or in Hin as [Hin|[Hin|Hin]].
      * assert (Hne : strEq (ruleKey e) k = false).
        { apply strEq_false. intros <-. apply Hpre.
          now apply (in_map fst) in Hin. }
        rewrite filter_snoc, Hne, app_nil_r.
        apply Hg, in_or_app. now left.
      * injection Hin as <- <-. simpl.
        rewrite filter_snoc, strEq_refl, Hge, length_app, Hgc, Hge. simpl.
        repeat split; auto; [lia|]. now destruct (List.filter _ seen).
      * assert (Hne : strEq (ruleKey e) k = false).
        { apply strEq_false. intros <-. apply Hpost.
          now apply (in_map fst) in Hin. }
        rewrite filter_snoc, Hne, app_nil_r.
        apply Hg, in_or_app. right. now right.
    + intros e' [Hin|[<-|[]]]%in_app_or.
      * specialize (Hk e' Hin). rewrite map_app in *. exact Hk.
      * rewrite map_app. apply in_or_app. right. now left.
    + rewrite length_app. simpl. rewrite <- Hsum, !map_app. simpl.
      rewrite !list_sum_middle. lia.
  - apply addTo_None in Ha.
    destruct (existsb (strEq (ruleKey e)) protoMembers) eqn:Hp; [discriminate|].
    intros [= <-].
    assert (Hnone : List.filter (fun e' => strEq (ruleKey e') (ruleKey e)) seen = []).
    { apply filter_none, List.Forall_forall. intros e' He'.
      apply strEq_false. intros Heq. apply Ha. rewrite <- Heq. now apply Hk. }
    split; [|split; [|split]].
    + rewrite map_app. simpl. apply List.NoDup_app; [assumption| |].
      * repeat constructor. intros [].
      * intros k Hin [<-|[]]. contradiction.
    + intros k g1 [Hin|[Hin|[]]]%in_app_or.
      * assert (Hne : strEq (ruleKey e) k = false).
        { apply strEq_false. intros <-. apply Ha.
          now apply (in_map fst) in Hin. }
        rewrite filter_snoc, Hne, app_nil_r. now apply Hg.
      * injection Hin as <- <-. simpl.
        rewrite filter_snoc, strEq_refl, Hnone. repeat split; auto; try discriminate.
    + intros e' [Hin|[<-|[]]]%in_app_or; rewrite map_app; apply in_or_app.
      * left. now apply Hk.
      * right. now left.
    + rewrite length_app, map_app, list_sum_app. simpl. lia.
Qed.

Lemma reduceErrors_grouped (rules : list ValidationRule)
    (errs : list (ValidationError * jsstring)) :
  forall (acc final : list (jsstring * Group.t))
         (seen : list (ValidationError * jsstring)),
    grouped acc seen -> reduceErrors rules errs acc = Ok final ->
    grouped final (seen ++ errs).
Proof.
  induction errs as [|e errs IH]; simpl; intros acc final seen Hg.
  - intros [= <-]. now rewrite app_nil_r.
  - destruct (groupStep rules acc e) as [acc'|] eqn:Hs; [|discriminate].
    intros H. replace (seen ++ e :: errs) with ((seen ++ [e]) ++ errs)
      by now rewrite <- app_assoc.
    eapply IH; [|exact H]. eapply groupStep_grouped; eauto.
Qed.

(** The reduction throws exactly when the key of an error is a member of
    [Object.prototype]. *)
Lemma reduceErrors_throws (rules : list ValidationRule)
    (errs : list (ValidationError * jsstring)) :
  forall (acc : list (jsstring * Group.t))
         (seen : list (ValidationError * jsstring)),
    grouped acc seen ->
    (reduceErrors rules errs acc = Throw TypeError
     <-> exists e, In e errs
                   /\ existsb (strEq (ruleKey e)) protoMembers = true).
Proof.
  induction errs as [|e errs IH]; simpl; intros acc seen Hg.
  - split; [discriminate|]. intros (e & [] & _).
  - destruct (groupStep rules acc e) as [acc'|[]] eqn:Hs.
    + rewrite (IH acc' (seen ++ [e])) by (eapply groupStep_grouped; eauto).
      split; [intros (e' & H1 & H2); eauto|].
      intros (e' & [<-|H1] & H2); [|eauto]. exfalso.
      unfold groupStep in Hs.
      destruct (addTo acc (ruleKey e) e _) as [acc1|] eqn:Ha.
      * apply addTo_Some in Ha as (pre & g & post & -> & _ & _).
        destruct Hg as (_ & Hg & _).
        destruct (Hg (ruleKey e) g) as (_ & _ & _ & Hp);
          [apply in_or_app; right; now left|].
        change (existsb (strEq (ruleKey e)) protoMembers = true) in H2.
        congruence.
      * change (existsb (strEq (ruleKey e)) protoMembers = true) in H2.
        rewrite H2 in Hs. discriminate.
    + split; [intros _|reflexivity]. exists e. split; [now left|].
      unfold groupStep in Hs.
      destruct (addTo acc (ruleKey e) e _); [discriminate|].
      change (existsb (strEq (ruleKey e)) protoMembers = true).
      destruct (existsb (strEq (ruleKey e)) protoMembers);
        [reflexivity|discriminate].
Qed.

Lemma grouped_nil : grouped [] [].
Proof.
  split; [constructor|]. split; [intros k g []|]. split; [intros e []|].
  reflexivity.
Qed.

(** [Object.entries] gives every own key once. *)
Lemma insertIndex_perm {A} (n : N) (x : A) (l : list (N * A)) :
  Permutation (insertIndex n x l) ((n, x) :: l).
Proof.
  induction l as [|[m y] l IH]; simpl; [reflexivity|].
  destruct (n <? m)%N; [reflexivity|].
  rewrite IH. apply perm_swap.
Qed.

Lemma entries_perm {A} (obj : list (jsstring * A)) :
  Permutation (entries obj) obj.
Proof.
  unfold entries. induction obj as [|[k v] obj IH]; simpl; [reflexivity|].
  destruct (arrayIndex k) as [n|].
  - rewrite insertIndex_perm. simpl. now constructor.
  - apply Permutation_sym, Permutation_cons_app, Permutation_sym, IH.
Qed.

Lemma list_sum_perm (a b : list nat) :
  Permutation a b -> list_sum a = list_sum b.
Proof. induction 1; simpl; lia. Qed.

Lemma reduceErrors_rule (rules : list ValidationRule)
    (errs : list (ValidationError * jsstring)) :
  forall acc final : list (jsstring * Group.t),
    Forall (fun kg => Group.rule (snd kg) = findRule rules (fst kg)) acc ->
    reduceErrors rules errs acc = Ok final ->
    Forall (fun kg => Group.rule (snd kg) = findRule rules (fst kg)) final.
Proof.
  induction errs as [|e errs IH]; cbn [reduceErrors]; intros acc final Hacc.
  - now intros [= <-].
  - destruct (groupStep rules acc e) as [acc'|] eqn:Hs; [|discriminate].
    apply IH. unfold groupStep in Hs.
    destruct (addTo acc (ruleKey e) e _) as [acc1|] eqn:Ha.
    + injection Hs as <-.
      apply addTo_Some in Ha as (pre & g & post & -> & -> & _).
      apply Forall_app in Hacc as [H1 H2].
      apply Forall_cons_iff in H2 as [_ H2].
      apply Forall_app; split; [assumption|]. now constructor.
    + destruct (existsb _ protoMembers); [discriminate|]. injection Hs as <-.
      apply Forall_app; split; [assumption|]. now repeat constructor.
Qed.

(** X11.  The rule breakdown of the report: building it throws a
    TypeError exactly when the key of some error ([ruleId], or
    [unknown] for an empty one) is a member of [Object.prototype];
    otherwise it lists every key that an error carries exactly once,
    each with the number of errors that carry it (at least one) and with
    the name, type and severity of the first rule of the registry with
    that id (or the defaults when there is none), and the counts add up
    to the number of errors of the dataset. *)
Theorem X11_rule_breakdown (rules : list ValidationRule)
    (files : list FileData) :
  (ruleBreakdown rules files = Throw TypeError
   <-> exists e, In e (allErrors files)
                 /\ existsb (strEq (ruleKey e)) protoMembers = true)
  /\ forall bd : list Breakdown.t,
       ruleBreakdown rules files = Ok bd ->
       List.NoDup (map Breakdown.ruleId bd)
       /\ (forall e, In e (allErrors files) ->
                     In (ruleKey e) (map Breakdown.ruleId bd))
       /\ (forall b, In b bd ->
             Breakdown.count b
             = length (List.filter
                         (fun e => strEq (ruleKey e) (Breakdown.ruleId b))
                         (allErrors files))
             /\ 0 < Breakdown.count b
             /\ exists g, b = breakdownOf (Breakdown.ruleId b, g)
                          /\ Group.rule g
                             = findRule rules (Breakdown.ruleId b))
       /\ list_sum (map Breakdown.count bd) = length (allErrors files).
Proof.
  unfold ruleBreakdown, errorsByRule. split.
  - rewrite <- (reduceErrors_throws rules (allErrors files) [] [] grouped_nil).
    destruct (reduceErrors rules (allErrors files) []) as [acc|[]];
      split; (discriminate || reflexivity).
  - intros bd.
    destruct (reduceErrors rules (allErrors files) []) as [acc|] eqn:Hr;
      [|discriminate].
    intros [= <-].
    pose proof (reduceErrors_rule rules _ [] acc (List.Forall_nil _) Hr) as Hrule.
    apply (reduceErrors_grouped rules _ [] acc [] grouped_nil) in Hr
      as (Hnd & Hg & Hk & Hsum).
    rewrite app_nil_l in *.
    pose proof (entries_perm acc) as Hp.
    assert (Hids : map Breakdown.ruleId (map breakdownOf (entries acc))
                   = map fst (entries acc)).
    { rewrite map_map. apply map_ext. now intros [k g]. }
    assert (Hcounts : map Breakdown.count (map breakdownOf (entries acc))
                      = map (fun kg => Group.count (snd kg)) (entries acc)).
    { rewrite map_map. apply map_ext. now intros [k g]. }
    rewrite Hids, Hcounts. split; [|split; [|split]].
    + eapply Permutation_NoDup; [|exact Hnd].
      apply Permutation_map, Permutation_sym, Hp.
    + intros e He. eapply Permutation_in; [|exact (Hk e He)].
      apply Permutation_map, Permutation_sym, Hp.
    + intros b (kg & <- & Hin)%in_map_iff. destruct kg as [k g].
      apply (Permutation_in _ Hp) in Hin.
      destruct (Hg k g Hin) as (He & Hc & Hn & _).
      cbn [breakdownOf Breakdown.count Breakdown.ruleId].
      rewrite <- He. split; [exact Hc|]. split.
      * rewrite Hc. destruct (Group.errors g); [contradiction|simpl; lia].
      * exists g. split; [reflexivity|].
        rewrite List.Forall_forall in Hrule. exact (Hrule (k, g) Hin).
    + rewrite <- Hsum. apply list_sum_perm, Permutation_map, Hp.
Qed.

Lemma X11_rule_breakdown_witness :
  exists bd : list Breakdown.t,
    ruleBreakdown initialRules [messyFile] = Ok bd
    /\ map Breakdown.ruleId bd
       = [js "req-client-name"; js "email-format"; js "skill-format"]
    /\ list_sum (map Breakdown.count bd) = 4.
Proof.
  eexists. split; [vm_compute; reflexivity|]. split; [reflexivity|].
  refine (proj2 (proj2 (proj2 (proj2 (X11_rule_breakdown initialRules
                                        [messyFile]) _ _)))).
  vm_compute. reflexivity.
Defined.

(** *** The second validation of the page *)

(** The engine reads the dataset through [getAllTaskIds] only. *)
Lemma validateField_refs (fs fs' : list FileData) (value : prim)
    (rule : ValidationRule) (i : nat) (r : Row) :
  getAllTaskIds fs' = getAllTaskIds fs ->
  validateField value rule i r (Some fs')
  = validateField value rule i r (Some fs).
Proof. intros H. unfold validateField. now rewrite H. Qed.

Lemma forEachRule_refs (fs fs' : list FileData) (r : Row) (i : nat)
    (rules : list ValidationRule) (st : list ValidationError * Tracker) :
  getAllTaskIds fs' = getAllTaskIds fs ->
  forEachRule r i (Some fs') rules st = forEachRule r i (Some fs) rules st.
Proof.
  intros H. revert st. induction rules as [|a rules IH]; intros st; simpl;
    [reflexivity|].
  unfold ruleStep. destruct st as [errs tr].
  rewrite (validateField_refs fs fs' _ _ _ _ H).
  destruct (validateField _ a i r (Some fs)) as [[o|e] a']; [|reflexivity].
  now rewrite IH.
Qed.

Lemma forEachRow_refs (fs fs' : list FileData) (rows : list Row) (i : nat)
    (rules : list ValidationRule) (st : list ValidationError * Tracker) :
  getAllTaskIds fs' = getAllTaskIds fs ->
  forEachRow rows i (Some fs') rules st = forEachRow rows i (Some fs) rules st.
Proof.
  intros H. revert i rules st.
  induction rows as [|r rows IH]; intros i rules st; simpl; [reflexivity|].
  rewrite (forEachRule_refs fs fs' _ _ _ _ H).
  destruct (forEachRule r i (Some fs) rules st) as [[st'|e] rules'];
    [|reflexivity].
  apply IH.
Qed.

Lemma validateData_refs (fs fs' : list FileData)
    (rules : list ValidationRule) (data : list Row)
    (headers headers' : list jsstring) (fileName fileName' : jsstring) :
  getAllTaskIds fs' = getAllTaskIds fs ->
  validateData rules data headers' fileName' (Some fs')
  = validateData rules data headers fileName (Some fs).
Proof.
  intros H. unfold validateData. now rewrite (forEachRow_refs fs fs' _ _ _ _ H).
Qed.

(** The reference set is read from the names and the rows of the files. *)
Lemma getAllTaskIds_tables (fs fs' : list FileData) :
  Forall2 sameTable fs fs' -> getAllTaskIds fs' = getAllTaskIds fs.
Proof.
  rewrite !getAllTaskIds_spec.
  induction 1 as [|f u fs fs' (Hn & Hd & _) _ IH]; simpl; [reflexivity|].
  now rewrite Hn, Hd, IH.
Qed.

Lemma validateData_tables (fs fs' : list FileData)
    (rules : list ValidationRule) (data : list Row) (headers : list jsstring)
    (fileName : jsstring) :
  Forall2 sameTable fs fs' ->
  validateData rules data headers fileName (Some fs')
  = validateData rules data headers fileName (Some fs).
Proof. intros H. apply validateData_refs, getAllTaskIds_tables, H. Qed.

(** X19.  [validateData] reads the dataset through the reference set
    only, and reads neither its argument [headers] nor [fileName]: two
    calls on the same table and registry with datasets that have the
    same reference set return the same list and leave the same registry.
    The reference set is taken from the first file whose name contains
    [task] in any case: the files before it (which have no such name)
    and all the files after it change nothing. *)
Theorem X19_dataset_frame (rules : list ValidationRule) (data : list Row)
    (headers headers' : list jsstring) (fileName fileName' : jsstring)
    (fs fs' : list FileData) :
  (getAllTaskIds fs' = getAllTaskIds fs ->
   validateData rules data headers' fileName' (Some fs')
   = validateData rules data headers fileName (Some fs))
  /\ (forall (pre post : list FileData) (f : FileData),
        forallb (fun file => negb (includes (toLowerCase (name file))
                                     (js "task"))) pre = true ->
        includes (toLowerCase (name f)) (js "task") = true ->
        getAllTaskIds (pre ++ f :: post) = getAllTaskIds [f]).
Proof.
  split; [apply validateData_refs|].
  intros pre post f Hpre Hf. rewrite !getAllTaskIds_spec.
  induction pre as [|p pre IH]; simpl in *.
  - now rewrite Hf.
  - apply andb_true_iff in Hpre as [Hp Hpre]. apply negb_true_iff in Hp.
    rewrite Hp. now apply IH.
Qed.

Lemma X19_dataset_frame_witness :
  validateData initialRules referring [] (js "clients.csv")
    (Some [mkFileData (js "clients.csv") referring [] []; tasksFile;
           mkFileData (js "tasks-old.csv") [] [] []])
  = validateData initialRules referring [js "Name"] (js "c.csv")
      (Some [tasksFile]).
Proof.
  apply (proj1 (X19_dataset_frame initialRules referring [js "Name"] []
                  (js "c.csv") (js "clients.csv") [tasksFile]
                  [mkFileData (js "clients.csv") referring [] []; tasksFile;
                   mkFileData (js "tasks-old.csv") [] [] []])).
  vm_compute. reflexivity.
Defined.

Lemma replaceFile_middle (k : jsstring) (v f : FileData) (pre post : Files) :
  ~ In k (map fst pre) ->
  replaceFile k v (pre ++ (k, f) :: post) = pre ++ (k, v) :: post.
Proof.
  induction pre as [|[k' f'] pre IH]; simpl; intros Hn.
  - now rewrite strEq_refl.
  - assert (Hne : strEq k' k = false) by (apply strEq_false; tauto).
    rewrite Hne, IH; tauto.
Qed.

(** The loop of [revalidateFiles] for a registry without state: the
    entries that are left are replaced, in place, by settled entries
    with the same table, and the flag says whether one has changed. *)
Lemma revalidateEach_settles (files : Files) (rules : list ValidationRule) :
  stateless rules = true ->
  forall (rest pre : Files) (hc hc' : bool) (upd : Files)
         (rules' : list ValidationRule),
    List.NoDup (map fst (pre ++ rest)) ->
    revalidateEach files rest rules (pre ++ rest) hc
    = (Ok (upd, hc'), rules') ->
    rules' = rules
    /\ exists rest',
         upd = pre ++ rest'
         /\ Forall2 (fun kf ku => fst ku = fst kf
                                  /\ sameTable (snd kf) (snd ku)
                                  /\ settled rules files ku) rest rest'
         /\ (hc' = false -> hc = false /\ rest' = rest).
Proof.
  intros Hst. induction rest as [|[k f] rest IH];
    intros pre hc hc' upd rules' Hnd; cbn [revalidateEach].
  - intros [= <- <- <-]. split; [reflexivity|]. exists []. auto.
  - pose proof (validateData_stateless (Some (map snd files)) rules (data f)
                  (headers f) k Hst) as Hsnd.
    destruct (validateData rules (data f) (headers f) k (Some (map snd files)))
      as [[newErrors|e] rules1] eqn:Hv; [|discriminate].
    simpl in Hsnd. subst rules1.
    assert (Hk : ~ In k (map fst pre)).
    { rewrite map_app in Hnd. simpl in Hnd.
      apply List.NoDup_remove_2 in Hnd. intros H. apply Hnd, in_or_app. now left. }
    destruct (strEq (stringifyErrors newErrors)
                (stringifyErrors (validationErrors f))) eqn:Hsame; cbn [negb].
    + replace (pre ++ (k, f) :: rest) with ((pre ++ [(k, f)]) ++ rest)
        by now rewrite <- app_assoc.
      intros H. apply IH in H as (-> & rest' & -> & HF & Hhc).
      2:{ now rewrite <- app_assoc. }
      split; [reflexivity|]. exists ((k, f) :: rest').
      rewrite <- app_assoc. split; [reflexivity|]. split.
      * constructor; [|exact HF]. split; [reflexivity|].
        split; [now repeat split|].
        exists newErrors. cbn [fst snd]. rewrite Hv.
        split; [reflexivity|]. now apply strEq_eq.
      * intros Hf. destruct (Hhc Hf) as [-> ->]. auto.
    + rewrite (replaceFile_middle k _ f pre rest Hk).
      set (v := mkFileData (name f) (data f) (headers f) newErrors).
      replace (pre ++ (k, v) :: rest) with ((pre ++ [(k, v)]) ++ rest)
        by now rewrite <- app_assoc.
      intros H. apply IH in H as (-> & rest' & -> & HF & Hhc).
      2:{ rewrite <- app_assoc. simpl. rewrite map_app in *. exact Hnd. }
      split; [reflexivity|]. exists ((k, v) :: rest').
      rewrite <- app_assoc. split; [reflexivity|]. split.
      * constructor; [|exact HF]. split; [reflexivity|].
        split; [now repeat split|].
        exists newErrors. cbn [fst snd v data headers validationErrors].
        rewrite Hv. split; reflexivity.
      * intros Hf. destruct (Hhc Hf) as [[=] _].
Qed.

(** On settled entries the loop changes nothing. *)
Lemma revalidateEach_settled (files : Files) (rules : list ValidationRule) :
  stateless rules = true ->
  forall (rest upd : Files) (hc : bool),
    Forall (settled rules files) rest ->
    revalidateEach files rest rules upd hc = (Ok (upd, hc), rules).
Proof.
  intros Hst. induction rest as [|[k f] rest IH]; intros upd hc HF;
    cbn [revalidateEach]; [reflexivity|].
  apply Forall_cons_iff in HF as [(errs & Hv & Hs) HF]. cbn [fst snd] in *.
  pose proof (validateData_stateless (Some (map snd files)) rules (data f)
                (headers f) k Hst) as Hsnd.
  destruct (validateData rules (data f) (headers f) k (Some (map snd files)))
    as [o rules1]. simpl in Hv, Hsnd. subst o rules1.
  rewrite Hs, strEq_refl. cbn [negb]. now apply IH.
Qed.

Lemma revalidateFiles_changed (files : Files) (rules : list ValidationRule)
    (updated : Files) (rules' : list ValidationRule) :
  stateless rules = true -> List.NoDup (map fst files) ->
  revalidateFiles files rules = (Ok (Some updated), rules') ->
  rules' = rules
  /\ Forall2 (fun kf ku => fst ku = fst kf
                           /\ sameTable (snd kf) (snd ku)
                           /\ settled rules files ku) files updated.
Proof.
  intros Hst Hnd. unfold revalidateFiles.
  destruct (revalidateEach files files rules files false)
    as [[[upd hc]|e] rules1] eqn:Hr; [|discriminate].
  destruct hc; [|discriminate]. intros [= <- <-].
  apply (revalidateEach_settles files rules Hst files [] false) in Hr
    as (-> & rest' & -> & HF & _); [|exact Hnd].
  auto.
Qed.

Lemma settled_tables (rules : list ValidationRule) (files updated : Files)
    (entry : jsstring * FileData) :
  Forall2 sameTable (map snd files) (map snd updated) ->
  settled rules files entry -> settled rules updated entry.
Proof.
  intros H (errs & Hv & Hs). exists errs.
  now rewrite (validateData_tables _ _ _ _ _ _ H).
Qed.

Lemma tables_of_entries (rules : list ValidationRule) (ds files updated : Files) :
  Forall2 (fun kf ku => fst ku = fst kf
                        /\ sameTable (snd kf) (snd ku)
                        /\ settled rules ds ku) files updated ->
  map fst updated = map fst files
  /\ Forall2 sameTable (map snd files) (map snd updated)
  /\ Forall (settled rules ds) updated.
Proof.
  induction 1 as [|kf ku files updated (Hk & Ht & Hs) _ (IH1 & IH2 & IH3)];
    simpl; [repeat constructor|].
  rewrite Hk, IH1. repeat split; constructor; assumption.
Qed.

(** X12.  [revalidateFiles] on a page whose files have distinct names,
    with a registry without global or sticky pattern: when it calls
    [setFiles], the new state has the same file names in the same
    order, every file keeps its name, rows and headers, the registry is
    as before, and every file stores errors with the JSON text of what
    [validateData] returns for its rows against the new state. *)
Theorem X12_revalidate_keeps_tables (files : Files)
    (rules : list ValidationRule) (updated : Files)
    (rules' : list ValidationRule) :
  stateless rules = true -> List.NoDup (map fst files) ->
  revalidateFiles files rules = (Ok (Some updated), rules') ->
  rules' = rules
  /\ map fst updated = map fst files
  /\ Forall2 sameTable (map snd files) (map snd updated)
  /\ Forall (settled rules updated) updated.
Proof.
  intros Hst Hnd Hr.
  destruct (revalidateFiles_changed files rules updated rules' Hst Hnd Hr)
    as [-> HF].
  apply tables_of_entries in HF as (H1 & H2 & H3).
  repeat split; try assumption.
  eapply List.Forall_impl; [|exact H3].
  intros entry. now apply settled_tables.
Qed.

(** X13.  One pass of [revalidateFiles] is enough (same conditions):
    it leaves the state alone exactly when validation succeeds on every
    file and every file already stores errors with the JSON text of a
    fresh validation against the dataset; and after a pass that has
    called [setFiles], a second pass on the new state changes nothing. *)
Theorem X13_revalidate_once (files : Files) (rules : list ValidationRule) :
  stateless rules = true -> List.NoDup (map fst files) ->
  (revalidateFiles files rules = (Ok None, rules)
   <-> Forall (settled rules files) files)
  /\ (forall (updated : Files) (rules' : list ValidationRule),
        revalidateFiles files rules = (Ok (Some updated), rules') ->
        revalidateFiles updated rules' = (Ok None, rules')).
Proof.
  intros Hst Hnd. split; [split|].
  - unfold revalidateFiles.
    destruct (revalidateEach files files rules files false)
      as [[[upd hc]|e] rules1] eqn:Hr; [|discriminate].
    destruct hc; [discriminate|]. intros _.
    apply (revalidateEach_settles files rules Hst files [] false) in Hr
      as (_ & rest' & _ & HF & Hhc); [|exact Hnd].
    destruct (Hhc eq_refl) as [_ ->].
    now apply tables_of_entries in HF as (_ & _ & H3).
  - intros HF. unfold revalidateFiles.
    now rewrite (revalidateEach_settled files rules Hst files files false HF).
  - intros updated rules' Hr.
    destruct (revalidateFiles_changed files rules updated rules' Hst Hnd Hr)
      as [-> HF].
    apply tables_of_entries in HF as (H1 & H2 & H3).
    unfold revalidateFiles.
    rewrite (revalidateEach_settled updated rules Hst updated updated false);
      [reflexivity|].
    eapply List.Forall_impl; [|exact H3].
    intros entry. now apply settled_tables.
Qed.

Lemma X12_revalidate_keeps_tables_witness :
  exists updated : Files,
    revalidateFiles twoFiles initialRules = (Ok (Some updated), initialRules)
    /\ map fst updated = [js "clients.csv"; js "tasks.csv"]
    /\ Forall (settled initialRules updated) updated.
Proof.
  assert (Hnd : List.NoDup (map fst twoFiles)).
  { apply List.NoDup_cons; [simpl; intros [H|[]]; discriminate H|].
    apply List.NoDup_cons; [simpl; tauto|apply List.NoDup_nil]. }
  eexists. split; [vm_compute; reflexivity|].
  match goal with
  | |- map fst ?u = _ /\ _ =>
      assert (Hr : revalidateFiles twoFiles initialRules
                   = (Ok (Some u), initialRules))
        by (vm_compute; reflexivity);
      pose proof (X12_revalidate_keeps_tables twoFiles initialRules u
                    initialRules eq_refl Hnd Hr) as H
  end.
  split; [exact (proj1 (proj2 H))|exact (proj2 (proj2 (proj2 H)))].
Defined.

Lemma X13_revalidate_once_witness :
  exists updated : Files,
    revalidateFiles twoFiles initialRules = (Ok (Some updated), initialRules)
    /\ map (fun kf => length (validationErrors (snd kf))) updated = [1; 2]
    /\ revalidateFiles updated initialRules = (Ok None, initialRules).
Proof.
  eexists. split; [vm_compute; reflexivity|]. split; [reflexivity|].
  refine (proj2 (X13_revalidate_once twoFiles initialRules eq_refl _) _ _ _).
  - apply List.NoDup_cons; [simpl; intros [H|[]]; discriminate H|].
    apply List.NoDup_cons; [simpl; tauto|apply List.NoDup_nil].
  - vm_compute. reflexivity.
Defined.

(** *** The grid *)

(** The row at a position of a page is the row of the table at the
    index the grid computes for it. *)
Lemma paginatedData_lookup (data : list Row) (page k : nat) :
  k < rowsPerPage ->
  paginatedData data page !! k = data !! actualRowIndex page k.
Proof.
  intros Hk. unfold paginatedData, slice, actualRowIndex.
  rewrite lookup_take_lt by (unfold rowsPerPage in *; lia).
  now rewrite lookup_drop.
Qed.

Lemma paginatedData_length (data : list Row) (page : nat) :
  length (paginatedData data page) <= rowsPerPage.
Proof.
  unfold paginatedData, slice. rewrite length_take. unfold rowsPerPage. lia.
Qed.

Lemma find_first {A} (p : A -> bool) (l : list A) (x : A) :
  In x l -> p x = true -> exists y, List.find p l = Some y /\ p y = true.
Proof.
  induction l as [|a l IH]; simpl; [tauto|].
  intros [->|Hin] Hp.
  - rewrite Hp. eauto.
  - destruct (p a) eqn:Ha; eauto.
Qed.

(** What [getCellError] finds is an error of the list, of that row and
    that column. *)
Lemma getCellError_Some (errs : list ValidationError) (i : nat)
    (c : jsstring) (e : ValidationError) :
  getCellError errs i c = Some e -> In e errs /\ row e = i /\ column e = c.
Proof.
  unfold getCellError. intros [Hin He]%List.find_some.
  apply andb_true_iff in He as [H1%Nat.eqb_eq H2%strEq_eq]. auto.
Qed.

(** The rows of cells of a page, by position. *)
Lemma pageCells_lookup (data : list Row) (headers : list jsstring)
    (errs : list ValidationError) (page k : nat) (cells : list Cell) :
  pageCells data headers errs page !! k = Some cells
  <-> k < length (paginatedData data page)
      /\ cells = rowCells errs headers (actualRowIndex page k).
Proof.
  unfold pageCells. rewrite list_lookup_imap. split.
  - destruct (paginatedData data page !! k) as [r|] eqn:Hk; [|discriminate].
    intros [= <-]. split; [|reflexivity].
    apply lookup_lt_is_Some. now exists r.
  - intros [Hk ->]. apply lookup_lt_is_Some in Hk as [r ->]. reflexivity.
Qed.

Lemma pageCells_In (data : list Row) (headers : list jsstring)
    (errs : list ValidationError) (page : nat) (cells : list Cell) :
  In cells (pageCells data headers errs page)
  <-> exists k, k < length (paginatedData data page)
                /\ cells = rowCells errs headers (actualRowIndex page k).
Proof.
  rewrite <- list_elem_of_In, list_elem_of_lookup.
  split; intros [k H]; exists k; now apply pageCells_lookup.
Qed.

(** Every cell of a page: its header is a header of the table, its row
    is a row of the table on that page, and its mark is what
    [getCellError] finds for that row and that header. *)
Lemma pageCells_cell (data : list Row) (headers : list jsstring)
    (errs : list ValidationError) (page : nat) (cells : list Cell)
    (cell : Cell) :
  In cells (pageCells data headers errs page) -> In cell cells ->
  In (cellHeader cell) headers
  /\ cellRow cell < length data
  /\ cellRow cell / rowsPerPage = page
  /\ cellError cell = getCellError errs (cellRow cell) (cellHeader cell).
Proof.
  intros (k & Hk & ->)%pageCells_In (h & <- & Hh)%in_map_iff.
  cbn [cellHeader cellRow cellError].
  pose proof (paginatedData_length data page) as Hl.
  assert (Hk' : k < rowsPerPage) by lia.
  split; [exact Hh|]. split; [|split; [|reflexivity]].
  - apply lookup_lt_is_Some. rewrite <- paginatedData_lookup by exact Hk'.
    now apply lookup_lt_is_Some.
  - unfold actualRowIndex, rowsPerPage in *.
    symmetry. apply (Nat.div_unique _ 10 page k); lia.
Qed.

(** X14.  The grid marks the cells of the headers only.  For an error
    that [validateData] returns for a table, shown with the headers of
    the call: when the column of the error is one of the headers, the
    page [row / 10] has, in the row of cells at position [row mod 10],
    the cell of that row and that header, and it is marked with an
    error of the list of that row and that column (the first one);
    when the column is no header, no cell of any page is marked with an
    error of that row and that column, so the error is not shown.
    Every cell of a page belongs to a header and to a row of the table
    on that page, and its mark is what [getCellError] finds for them;
    the position [row mod 10] of the page [row / 10] shows the row of
    the table with the index of the error, and a page has 10 rows at
    most. *)
Theorem X14_grid_shows_errors (rules : list ValidationRule) (data : list Row)
    (headers : list jsstring) (fileName : jsstring)
    (files : option (list FileData)) (errs : list ValidationError)
    (e : ValidationError) :
  fst (validateData rules data headers fileName files) = Ok errs ->
  In e errs ->
  (In (column e) headers ->
   exists (cells : list Cell) (cell : Cell) (e' : ValidationError),
     pageCells data headers errs (row e / rowsPerPage)
       !! (row e mod rowsPerPage) = Some cells
     /\ In cell cells
     /\ cellRow cell = row e /\ cellHeader cell = column e
     /\ cellError cell = Some e'
     /\ In e' errs /\ row e' = row e /\ column e' = column e)
  /\ (~ In (column e) headers ->
      forall (page : nat) (e' : ValidationError),
        marks data headers errs page e' ->
        ~ (row e' = row e /\ column e' = column e))
  /\ (forall (page : nat) (cells : list Cell) (cell : Cell),
        In cells (pageCells data headers errs page) -> In cell cells ->
        In (cellHeader cell) headers
        /\ cellRow cell < length data
        /\ cellRow cell / rowsPerPage = page
        /\ cellError cell = getCellError errs (cellRow cell) (cellHeader cell))
  /\ actualRowIndex (row e / rowsPerPage) (row e mod rowsPerPage) = row e
  /\ paginatedData data (row e / rowsPerPage) !! (row e mod rowsPerPage)
     = data !! row e
  /\ length (paginatedData data (row e / rowsPerPage)) <= rowsPerPage.
Proof.
  intros Hv Hin.
  apply validateData_rows_below in Hv. rewrite List.Forall_forall in Hv.
  specialize (Hv e Hin).
  assert (Hidx : actualRowIndex (row e / rowsPerPage) (row e mod rowsPerPage)
                 = row e).
  { unfold actualRowIndex, rowsPerPage.
    pose proof (Nat.div_mod_eq (row e) 10). lia. }
  assert (Hk : row e mod rowsPerPage < rowsPerPage)
    by (apply Nat.mod_upper_bound; discriminate).
  assert (Hl : paginatedData data (row e / rowsPerPage) !! (row e mod rowsPerPage)
               = data !! row e)
    by (now rewrite paginatedData_lookup, Hidx).
  split; [|split; [|split; [|split; [exact Hidx|split; [exact Hl|]]]]].
  - intros Hh.
    destruct (find_first (fun error => (row error =? row e)
                                       && strEq (column error) (column e))
                errs e Hin) as (e' & Hf & _);
      [now rewrite Nat.eqb_refl, strEq_refl|].
    exists (rowCells errs headers (row e)),
           (mkCell (row e) (column e) (Some e')), e'.
    split.
    + apply pageCells_lookup. rewrite Hidx. split; [|reflexivity].
      apply lookup_lt_is_Some. rewrite Hl. now apply lookup_lt_is_Some.
    + split.
      * apply in_map_iff. exists (column e). split; [|exact Hh].
        unfold getCellError. now rewrite Hf.
      * cbn [cellRow cellHeader cellError].
        apply (getCellError_Some errs (row e) (column e)) in Hf.
        tauto.
  - intros Hh page e' (cells & cell & Hcells & Hcell & He') [Hr Hc].
    destruct (pageCells_cell data headers errs page cells cell Hcells Hcell)
      as (Hhead & _ & _ & Herr).
    rewrite Herr in He'. apply getCellError_Some in He' as (_ & _ & He').
    apply Hh. now rewrite <- Hc, He'.
  - apply pageCells_cell.
  - apply paginatedData_length.
Qed.

Lemma X14_grid_shows_errors_witness :
  (exists (cells : list Cell) (cell : Cell) (e' : ValidationError),
      pageCells messy [js "Name"; js "Email"] messyErrors 0 !! 1 = Some cells
      /\ In cell cells
      /\ cellRow cell = 1 /\ cellHeader cell = js "Email"
      /\ cellError cell = Some e'
      /\ In e' messyErrors /\ row e' = 1 /\ column e' = js "Email")
  /\ (forall (page : nat) (e' : ValidationError),
        marks messy [js "Name"; js "Email"] messyErrors page e' ->
        ~ (row e' = 2 /\ column e' = js "Skills")).
Proof.
  split.
  - apply (proj1 (X14_grid_shows_errors initialRules messy
                    [js "Name"; js "Email"] (js "clients.csv") None
                    messyErrors
                    (mkError 1 (js "Email") (js "Invalid email format") Error
                       (js "email-format"))
                    eq_refl ltac:(simpl; tauto))).
    simpl; tauto.
  - apply (proj1 (proj2 (X14_grid_shows_errors initialRules messy
                           [js "Name"; js "Email"] (js "clients.csv") None
                           messyErrors
                           (mkError 2 (js "Skills")
                              (js "Skills must be in JSON array format") Error
                              (js "skill-format"))
                           eq_refl ltac:(simpl; tauto)))).
    intros [H|[H|[]]]; discriminate H.
Defined.

(** *** Counting with Numbers: below [2 ^ 53] a sum is exact *)

Local Open Scope Z_scope.

Lemma digits2_size (p : positive) : digits2_pos p = Pos.size p.
Proof. induction p; simpl; congruence. Qed.

Lemma digits2_bounds (p : positive) :
  2 ^ (Zpos (digits2_pos p) - 1) <= Zpos p < 2 ^ Zpos (digits2_pos p).
Proof.
  induction p as [p IH|p IH|]; cbn [digits2_pos].
  - rewrite Pos2Z.inj_succ.
    replace (Z.succ (Zpos (digits2_pos p)) - 1) with (Zpos (digits2_pos p)) by lia.
    rewrite Z.pow_succ_r by lia.
    replace (Zpos (digits2_pos p)) with (Zpos (digits2_pos p) - 1 + 1) at 1 by lia.
    rewrite Z.pow_add_r in * by lia. lia.
  - rewrite Pos2Z.inj_succ.
    replace (Z.succ (Zpos (digits2_pos p)) - 1) with (Zpos (digits2_pos p)) by lia.
    rewrite Z.pow_succ_r by lia.
    replace (Zpos (digits2_pos p)) with (Zpos (digits2_pos p) - 1 + 1) at 1 by lia.
    rewrite Z.pow_add_r in * by lia. lia.
  - simpl. lia.
Qed.

Lemma digits2_small (p : positive) :
  Zpos p < 2 ^ 53 -> Zpos (digits2_pos p) <= 53.
Proof.
  intros H. destruct (Z.le_gt_cases (Zpos (digits2_pos p)) 53) as [|Hgt];
    [assumption|].
  pose proof (digits2_bounds p) as [Hlo _].
  assert (2 ^ 53 <= 2 ^ (Zpos (digits2_pos p) - 1))
    by (apply Z.pow_le_mono_r; lia).
  lia.
Qed.

Lemma iter_xO_value (p d : positive) :
  Zpos (Pos.iter xO p d) = Zpos p * 2 ^ Zpos d.
Proof.
  change (Pos.iter xO p d) with (shift_pos d p).
  rewrite shift_pos_correct, Z.pow_pos_fold. lia.
Qed.

Lemma iter_xO_digits (p d : positive) :
  Zpos (digits2_pos (Pos.iter xO p d)) = Zpos (digits2_pos p) + Zpos d.
Proof.
  induction d as [|d IH] using Pos.peano_ind.
  - simpl. lia.
  - rewrite Pos.iter_succ. cbn [digits2_pos]. lia.
Qed.

Lemma iter_pos_iter {A} (f : A -> A) (n : positive) (x : A) :
  SpecFloat.iter_pos f n x = Pos.iter f x n.
Proof.
  revert x. induction n as [n IH|n IH|]; intros x; simpl.
  - rewrite !IH. now rewrite <- !Pos.iter_swap.
  - now rewrite !IH.
  - reflexivity.
Qed.

(** Shifting out zeros loses nothing. *)
Lemma shr_zeros (c t : positive) :
  SpecFloat.iter_pos shr_1 t
    {| shr_m := Zpos (Pos.iter xO c t); shr_r := false; shr_s := false |}
  = {| shr_m := Zpos c; shr_r := false; shr_s := false |}.
Proof.
  rewrite iter_pos_iter.
  induction t as [|t IH] using Pos.peano_ind.
  - reflexivity.
  - rewrite Pos.iter_succ_r, Pos.iter_succ. simpl. exact IH.
Qed.

(** A mantissa of 53 bits with an exponent in range is kept as it is. *)
Lemma round_aux_canonical (c : positive) (e : Z) :
  Zpos (digits2_pos c) = 53 -> -1074 <= e <= 971 ->
  binary_round_aux prec emax false (Zpos c) e loc_Exact = S754_finite false c e.
Proof.
  intros Hd He. unfold binary_round_aux, shr_fexp, fexp, emin, prec, emax.
  cbn [Zdigits2 shr_record_of_loc]. rewrite Hd.
  replace (Z.max (53 + e - 53) (3 - 1024 - 53) - e) with 0 by lia.
  cbn [shr shr_m loc_of_shr_record round_nearest_even Zdigits2
       shr_record_of_loc].
  rewrite Hd.
  replace (Z.max (53 + e - 53) (3 - 1024 - 53) - e) with 0 by lia.
  cbn [shr shr_m].
  destruct (Z.leb_spec e (1024 - 53)); [reflexivity|lia].
Qed.

(** Zeros below a mantissa of 53 bits are shifted out. *)
Lemma round_aux_shift (c t : positive) (e : Z) :
  Zpos (digits2_pos c) = 53 -> -1074 <= e <= 971 ->
  binary_round_aux prec emax false (Zpos (Pos.iter xO c t)) (e - Zpos t)
    loc_Exact
  = S754_finite false c e.
Proof.
  intros Hd He. rewrite <- (round_aux_canonical c e Hd He).
  unfold binary_round_aux at 1. unfold shr_fexp at 1.
  unfold fexp, emin, prec, emax.
  cbn [Zdigits2 shr_record_of_loc]. rewrite iter_xO_digits, Hd.
  replace (Z.max (53 + Zpos t + (e - Zpos t) - 53) (3 - 1024 - 53)
           - (e - Zpos t)) with (Zpos t) by lia.
  cbn [shr]. rewrite shr_zeros.
  replace (e - Zpos t + Zpos t) with e by lia.
  unfold binary_round_aux, shr_fexp, fexp, emin, prec, emax.
  cbn [Zdigits2 shr_record_of_loc]. rewrite Hd.
  replace (Z.max (53 + e - 53) (3 - 1024 - 53) - e) with 0 by lia.
  reflexivity.
Qed.

(** The Number of [n * 2 ^ k * 2 ^ (- k)], for [n] below [2 ^ 53]: the
    mantissa is [n] shifted to 53 bits. *)
Lemma binary_round_exact (n m : positive) (k : Z) :
  0 <= k -> Zpos n < 2 ^ 53 -> Zpos m = Zpos n * 2 ^ k ->
  exists c : positive,
    Zpos c = Zpos n * 2 ^ (53 - Zpos (digits2_pos n))
    /\ binary_round prec emax false m (- k)
       = S754_finite false c (Zpos (digits2_pos n) - 53).
Proof.
  intros Hk Hn Hm.
  pose proof (digits2_small n Hn) as Hd.
  assert (Hpos : 0 < Zpos n * 2 ^ (53 - Zpos (digits2_pos n)))
    by (apply Z.mul_pos_pos; [lia|apply Z.pow_pos_nonneg; lia]).
  destruct (Zpos n * 2 ^ (53 - Zpos (digits2_pos n))) as [|c|] eqn:Hc;
    try lia.
  exists c. split; [reflexivity|].
  assert (Hdc : Zpos (digits2_pos c) = 53).
  { destruct (Z.eq_dec (53 - Zpos (digits2_pos n)) 0) as [H0|H0].
    - rewrite H0 in Hc. simpl in Hc. rewrite Z.mul_1_r in Hc.
      injection Hc as <-. lia.
    - destruct (53 - Zpos (digits2_pos n)) as [|d|] eqn:Hdd; try lia.
      rewrite <- iter_xO_value in Hc. injection Hc as <-.
      rewrite iter_xO_digits. lia. }
  assert (Hdm : Zpos (digits2_pos m) = Zpos (digits2_pos n) + k).
  { destruct k as [|kp|]; try lia.
    - rewrite Z.mul_1_r in Hm. injection Hm as <-. lia.
    - rewrite <- iter_xO_value in Hm. injection Hm as ->.
      apply iter_xO_digits. }
  unfold binary_round. rewrite Hdm.
  replace (fexp prec emax (Zpos (digits2_pos n) + k + - k))
    with (Zpos (digits2_pos n) - 53)
    by (unfold fexp, emin, prec, emax; lia).
  unfold shl_align.
  destruct (Zpos (digits2_pos n) - 53 - - k) as [|t|d] eqn:Ht.
  - assert (m = c).
    { assert (Zpos m = Zpos c); [|congruence].
      rewrite Hm. replace k with (53 - Zpos (digits2_pos n)) by lia.
      now rewrite Hc. }
    subst m. replace (- k) with (Zpos (digits2_pos n) - 53) by lia.
    apply round_aux_canonical; [assumption|lia].
  - assert (m = Pos.iter xO c t).
    { assert (Zpos m = Zpos (Pos.iter xO c t)); [|congruence].
      rewrite Hm, iter_xO_value.
      replace (Zpos c) with (Zpos n * 2 ^ (53 - Zpos (digits2_pos n)))
        by (now rewrite Hc).
      rewrite <- Z.mul_assoc, <- Z.pow_add_r by lia.
      f_equal. f_equal. lia. }
    subst m. replace (- k) with (Zpos (digits2_pos n) - 53 - Zpos t) by lia.
    apply round_aux_shift; [assumption|lia].
  - assert (Pos.iter xO m d = c).
    { assert (Zpos (Pos.iter xO m d) = Zpos c); [|congruence].
      rewrite iter_xO_value, Hm.
      replace (Zpos c) with (Zpos n * 2 ^ (53 - Zpos (digits2_pos n)))
        by (now rewrite Hc).
      rewrite <- Z.mul_assoc, <- Z.pow_add_r by lia.
      f_equal. f_equal. lia. }
    rewrite H. apply round_aux_canonical; [assumption|lia].
Qed.

(** Rounding [n * 2 ^ k * 2 ^ (- k)] gives the Number of [n]. *)
Lemma binary_round_ofZ (n m : positive) (k : Z) :
  0 <= k -> Zpos n < 2 ^ 53 -> Zpos m = Zpos n * 2 ^ k ->
  binary_round prec emax false m (- k) = ofZ (Zpos n).
Proof.
  intros Hk Hn Hm.
  destruct (binary_round_exact n m k Hk Hn Hm) as (c & Hc & ->).
  destruct (binary_round_exact n n 0 ltac:(lia) Hn ltac:(simpl; lia))
    as (c' & Hc' & H0).
  assert (c' = c) by (assert (Zpos c' = Zpos c) by congruence; congruence).
  subst c'. unfold ofZ, binary_normalize. symmetry. exact H0.
Qed.

Lemma shl_align_value (m : positive) (e ez : Z) :
  ez <= e -> Zpos (fst (shl_align m e ez)) = Zpos m * 2 ^ (e - ez).
Proof.
  intros H. unfold shl_align.
  destruct (ez - e) as [|d|d] eqn:Hd; try lia; cbn [fst].
  - replace (e - ez) with 0 by lia. simpl. lia.
  - rewrite iter_xO_value. f_equal. f_equal. lia.
Qed.

(** The sum of two positive integers below [2 ^ 53] is exact. *)
Lemma add_ofZ_pos (a b : positive) :
  Zpos a + Zpos b < 2 ^ 53 ->
  add (ofZ (Zpos a)) (ofZ (Zpos b)) = ofZ (Zpos a + Zpos b).
Proof.
  intros Hab.
  destruct (binary_round_exact a a 0 ltac:(lia) ltac:(lia) ltac:(simpl; lia))
    as (ca & Hca & Ha).
  destruct (binary_round_exact b b 0 ltac:(lia) ltac:(lia) ltac:(simpl; lia))
    as (cb & Hcb & Hb).
  change (binary_round prec emax false a (- 0)) with (ofZ (Zpos a)) in Ha.
  change (binary_round prec emax false b (- 0)) with (ofZ (Zpos b)) in Hb.
  rewrite Ha, Hb. unfold add, SFadd. cbn [cond_Zopp].
  set (ea := Zpos (digits2_pos a) - 53). set (eb := Zpos (digits2_pos b) - 53).
  set (ez := Z.min ea eb).
  pose proof (digits2_small a ltac:(lia)) as Hda.
  pose proof (digits2_small b ltac:(lia)) as Hdb.
  assert (Hza : Zpos (fst (shl_align ca ea ez)) = Zpos a * 2 ^ (- ez)).
  { rewrite shl_align_value by (unfold ez; lia). rewrite Hca.
    rewrite <- Z.mul_assoc, <- Z.pow_add_r by (unfold ez, ea, eb; lia).
    f_equal. f_equal. unfold ea. lia. }
  assert (Hzb : Zpos (fst (shl_align cb eb ez)) = Zpos b * 2 ^ (- ez)).
  { rewrite shl_align_value by (unfold ez; lia). rewrite Hcb.
    rewrite <- Z.mul_assoc, <- Z.pow_add_r by (unfold ez, ea, eb; lia).
    f_equal. f_equal. unfold eb. lia. }
  change (Zpos (fst (shl_align ca ea ez)) + Zpos (fst (shl_align cb eb ez)))
    with (Zpos (fst (shl_align ca ea ez) + fst (shl_align cb eb ez))).
  cbn [binary_normalize].
  replace ez with (- - ez) at 3 by lia.
  change (Zpos a + Zpos b) with (Zpos (a + b)).
  apply binary_round_ofZ.
  - unfold ez, ea, eb. lia.
  - exact Hab.
  - rewrite Pos2Z.inj_add, Hza, Hzb. rewrite Pos2Z.inj_add. lia.
Qed.

Lemma add_ofNat (a b : nat) :
  Z.of_nat (a + b) < 2 ^ 53 -> add (ofNat a) (ofNat b) = ofNat (a + b).
Proof.
  intros H. unfold ofNat. rewrite Nat2Z.inj_add in *.
  destruct (Z.of_nat a) as [|pa|] eqn:Ea; try lia;
    destruct (Z.of_nat b) as [|pb|] eqn:Eb; try lia.
  - reflexivity.
  - rewrite Z.add_0_l in *. change (ofZ 0) with (S754_zero false).
    destruct (binary_round_exact pb pb 0 ltac:(lia) ltac:(lia)
                ltac:(simpl; lia)) as (c & _ & Hc).
    change (binary_round prec emax false pb (- 0)) with (ofZ (Zpos pb)) in Hc.
    now rewrite Hc.
  - rewrite Z.add_0_r in *. change (ofZ 0) with (S754_zero false).
    destruct (binary_round_exact pa pa 0 ltac:(lia) ltac:(lia)
                ltac:(simpl; lia)) as (c & _ & Hc).
    change (binary_round prec emax false pa (- 0)) with (ofZ (Zpos pa)) in Hc.
    now rewrite Hc.
  - now apply add_ofZ_pos.
Qed.

(** A sum of lengths, as [reduce] computes it with Numbers, is the Number
    of the sum as long as this stays below [2 ^ 53]. *)
Lemma fold_add_ofNat {A} (f : A -> nat) (l : list A) (n0 : nat) :
  Z.of_nat (n0 + list_sum (map f l)) < 2 ^ 53 ->
  fold_left (fun sum x => add sum (ofNat (f x))) l (ofNat n0)
  = ofNat (n0 + list_sum (map f l)).
Proof.
  revert n0. induction l as [|x l IH]; intros n0; simpl.
  - intros _. now rewrite Nat.add_0_r.
  - intros H. rewrite add_ofNat by lia. rewrite IH by (rewrite <- Nat.add_assoc; exact H).
    now rewrite Nat.add_assoc.
Qed.

Lemma ofZ_pos_canonical (p : positive) :
  Zpos p < 2 ^ 53 ->
  exists c : positive,
    Zpos c = Zpos p * 2 ^ (53 - Zpos (digits2_pos p))
    /\ ofZ (Zpos p) = S754_finite false c (Zpos (digits2_pos p) - 53).
Proof.
  intros H.
  exact (binary_round_exact p p 0 ltac:(lia) H ltac:(simpl; lia)).
Qed.

(** Numbers of integers below [2 ^ 53] compare as the integers. *)
Lemma lt_ofZ_pos (a b : positive) :
  Zpos a < 2 ^ 53 -> Zpos b < 2 ^ 53 ->
  lt (ofZ (Zpos a)) (ofZ (Zpos b)) = (Zpos a <? Zpos b).
Proof.
  intros Ha Hb.
  destruct (ofZ_pos_canonical a Ha) as (ca & Hca & ->).
  destruct (ofZ_pos_canonical b Hb) as (cb & Hcb & ->).
  pose proof (digits2_bounds a) as [La Ua].
  pose proof (digits2_bounds b) as [Lb Ub].
  pose proof (digits2_small a Ha) as Hda.
  pose proof (digits2_small b Hb) as Hdb.
  unfold lt, SFltb, SFcompare.
  destruct (Z.compare_spec (Zpos (digits2_pos a) - 53)
              (Zpos (digits2_pos b) - 53)) as [He|He|He].
  - assert (Hd : Zpos (digits2_pos a) = Zpos (digits2_pos b)) by lia.
    rewrite Hd in Hca.
    assert (Hp : 0 < 2 ^ (53 - Zpos (digits2_pos b)))
      by (apply Z.pow_pos_nonneg; lia).
    rewrite Pos.compare_cont_spec. cbn [Pos.switch_Eq].
    change (ca ?= cb)%positive with (Zpos ca ?= Zpos cb).
    rewrite Hca, Hcb.
    destruct (Z.compare_spec (Zpos a * 2 ^ (53 - Zpos (digits2_pos b)))
                (Zpos b * 2 ^ (53 - Zpos (digits2_pos b)))) as [H|H|H];
      symmetry; [apply Z.ltb_ge|apply Z.ltb_lt|apply Z.ltb_ge]; nia.
  - symmetry. apply Z.ltb_lt.
    assert (2 ^ Zpos (digits2_pos a) <= 2 ^ (Zpos (digits2_pos b) - 1))
      by (apply Z.pow_le_mono_r; lia).
    lia.
  - symmetry. apply Z.ltb_ge.
    assert (2 ^ Zpos (digits2_pos b) <= 2 ^ (Zpos (digits2_pos a) - 1))
      by (apply Z.pow_le_mono_r; lia).
    lia.
Qed.

Lemma lt_ofNat (a b : nat) :
  Z.of_nat a < 2 ^ 53 -> Z.of_nat b < 2 ^ 53 ->
  lt (ofNat a) (ofNat b) = (a <? b)%nat.
Proof.
  intros Ha Hb. unfold ofNat.
  assert (Hab : (a <? b)%nat = (Z.of_nat a <? Z.of_nat b)).
  { destruct (Nat.ltb_spec a b), (Z.ltb_spec (Z.of_nat a) (Z.of_nat b));
      try reflexivity; lia. }
  rewrite Hab.
  destruct (Z.of_nat a) as [|pa|] eqn:Ea; try lia;
    destruct (Z.of_nat b) as [|pb|] eqn:Eb; try lia.
  - reflexivity.
  - destruct (ofZ_pos_canonical pb Hb) as (c & _ & ->). reflexivity.
  - destruct (ofZ_pos_canonical pa Ha) as (c & _ & ->). reflexivity.
  - now apply lt_ofZ_pos.
Qed.

Local Close Scope Z_scope.

Lemma allErrors_count (p : ValidationError * jsstring -> bool)
    (q : ValidationError -> bool) (files : list FileData) :
  (forall e n, p (e, n) = q e) ->
  length (List.filter p (allErrors files))
  = list_sum (map (fun file => length (List.filter q (validationErrors file)))
                files).
Proof.
  intros Hpq. unfold allErrors.
  induction files as [|f files IH]; simpl; [reflexivity|].
  rewrite List.filter_app, length_app, IH. f_equal.
  induction (validationErrors f) as [|e l IHl]; simpl; [reflexivity|].
  rewrite Hpq. destruct (q e); simpl; now rewrite IHl.
Qed.

Lemma filter_length_le {A} (p : A -> bool) (l : list A) :
  length (List.filter p l) <= length l.
Proof. induction l as [|a l IH]; simpl; [lia|]. destruct (p a); simpl; lia. Qed.

(** X15.  The totals in the header of the page are the counts of the
    dashboard: for a dataset with fewer than [2 ^ 53] errors, the sum
    over the files that [Index.tsx] computes for the errors (for the
    warnings) is the Number [ValidationDashboard.tsx] gets from the
    length of the filtered list of all errors. *)
Theorem X15_header_totals (files : Files) :
  (Z.of_nat (length (allErrors (map snd files))) < 2 ^ 53)%Z ->
  totalErrors files = errorCount (map snd files)
  /\ totalWarnings files = warningCount (map snd files).
Proof.
  intros H. unfold totalErrors, totalWarnings, errorCount, warningCount.
  change (ofZ 0) with (ofNat 0).
  pose proof (filter_length_le isError (allErrors (map snd files))) as He.
  pose proof (filter_length_le isWarning (allErrors (map snd files))) as Hw.
  rewrite (allErrors_count isError
             (fun e => match severity e with Error => true | Warning => false end))
    in * by reflexivity.
  rewrite (allErrors_count isWarning
             (fun e => match severity e with Error => false | Warning => true end))
    in * by reflexivity.
  split; rewrite fold_add_ofNat; simpl; try reflexivity; lia.
Qed.

Lemma X15_header_totals_witness :
  totalErrors [(js "clients.csv", messyFile)] = ofZ 4
  /\ totalWarnings [(js "clients.csv", messyFile)] = ofZ 0.
Proof.
  pose proof (X15_header_totals [(js "clients.csv", messyFile)]
                ltac:(vm_compute; reflexivity)) as [H1 H2].
  split; [exact H1|exact H2].
Defined.

(** X16.  [totalRows] of the dashboard is exact: for a dataset with
    fewer than [2 ^ 53] rows the sum that [reduce] computes with Numbers
    is the number of rows of all files, the test [totalRows > 0] holds
    exactly when some file has a row, the score is 100 when no file has
    a row, and it is the formula on the exact number of rows when some
    file has one. *)
Theorem X16_total_rows (files : list FileData) :
  (Z.of_nat (list_sum (map (fun file => length (data file)) files))
   < 2 ^ 53)%Z ->
  totalRows files
  = ofNat (list_sum (map (fun file => length (data file)) files))
  /\ lt (ofZ 0) (totalRows files)
     = (0 <? list_sum (map (fun file => length (data file)) files))
  /\ (Forall (fun file => data file = []) files ->
      validationScore files = ofZ 100)
  /\ (forall file, In file files -> data file <> [] ->
      validationScore files
      = scoreFormula (errorCount files) (warningCount files)
          (ofNat (list_sum (map (fun file => length (data file)) files)))).
Proof.
  intros H.
  assert (Ht : totalRows files
               = ofNat (list_sum (map (fun file => length (data file)) files))).
  { unfold totalRows. change (ofZ 0) with (ofNat 0).
    now rewrite fold_add_ofNat. }
  assert (Hlt : lt (ofZ 0) (totalRows files)
                = (0 <? list_sum (map (fun file => length (data file)) files))).
  { rewrite Ht. change (ofZ 0) with (ofNat 0).
    apply lt_ofNat; [reflexivity|exact H]. }
  split; [exact Ht|]. split; [exact Hlt|]. split.
  - intros Hall. unfold validationScore. rewrite Hlt.
    replace (list_sum _) with 0; [reflexivity|].
    clear -Hall. induction Hall as [|f l Hf _ IH]; simpl; [reflexivity|].
    now rewrite Hf, <- IH.
  - intros file Hin Hne. unfold validationScore. rewrite Hlt, <- Ht.
    replace (0 <? _) with true; [reflexivity|].
    symmetry. apply Nat.ltb_lt.
    clear -Hin Hne. induction files as [|f l IH]; [destruct Hin|].
    simpl. destruct Hin as [->|Hin].
    + destruct (data file); [contradiction|simpl; lia].
    + specialize (IH Hin). lia.
Qed.

Lemma X16_total_rows_witness :
  totalRows [messyFile; tasksFile] = ofZ 5
  /\ lt (ofZ 0) (totalRows [messyFile; tasksFile]) = true.
Proof.
  pose proof (X16_total_rows [messyFile; tasksFile]
                ltac:(vm_compute; reflexivity)) as (H1 & H2 & _).
  split; [exact H1|exact H2].
Defined.

(** X17.  The recommendations of the report, for a dataset with fewer
    than [2 ^ 53] errors: the sentence about errors is there exactly
    when the dataset has an error of severity [error], the sentence
    about warnings exactly when it has more than 10 warnings, the
    sentence about cleanup exactly when the score is below 80; they
    come in this order, each at most once. *)
Theorem X17_recommendations (files : list FileData) :
  (Z.of_nat (length (allErrors files)) < 2 ^ 53)%Z ->
  recommendations files
  = (if 0 <? length (List.filter isError (allErrors files))
     then [js "Fix all errors before proceeding with data processing"]
     else [])
    ++ (if 10 <? length (List.filter isWarning (allErrors files))
        then [js "Review warnings to improve data quality"]
        else [])
    ++ (if lt (validationScore files) (ofZ 80)
        then [js "Consider data cleanup before using this dataset"]
        else []).
Proof.
  intros H. unfold recommendations, generateRecommendations,
    errorCount, warningCount.
  pose proof (filter_length_le isError (allErrors files)) as He.
  pose proof (filter_length_le isWarning (allErrors files)) as Hw.
  change (ofZ 0) with (ofNat 0). change (ofZ 10) with (ofNat 10).
  rewrite !lt_ofNat by (try reflexivity; lia).
  destruct (0 <? _), (10 <? _), (lt _ _); reflexivity.
Qed.

Lemma X17_recommendations_witness :
  recommendations [messyFile]
  = [js "Fix all errors before proceeding with data processing";
     js "Consider data cleanup before using this dataset"].
Proof.
  exact (X17_recommendations [messyFile] ltac:(vm_compute; reflexivity)).
Defined.

(** *** The errors of a row depend on the row alone *)

(** The index of the row is written into the error and read nowhere
    else. *)
Lemma validateField_index (files : option (list FileData)) (value : prim)
    (rule : ValidationRule) (i : nat) (r : Row) :
  validateField value rule i r files
  = (match fst (validateField value rule 0 r files) with
     | Ok (Some e) => Ok (Some (atRow i e))
     | Ok None => Ok None
     | Throw x => Throw x
     end, snd (validateField value rule 0 r files)).
Proof.
  unfold validateField.
  destruct (Rule.type rule);
    repeat (cbn [fst snd];
            match goal with
            | |- context [if ?b then _ else _] => destruct b
            | |- context [match ?x with _ => _ end] =>
                lazymatch x with
                | fst _ => fail
                | _ => destruct x eqn:?
                end
            end); reflexivity.
Qed.

Lemma rowCalls_index (files : option (list FileData)) (r : Row) (i : nat)
    (rules : list ValidationRule) (x0 : list ValidationError) :
  collect (map fst (rowCalls r 0 files rules)) = Ok x0 ->
  collect (map fst (rowCalls r i files rules)) = Ok (map (atRow i) x0).
Proof.
  unfold rowCalls. revert x0.
  induction rules as [|a rules IH]; simpl; intros x0.
  - now intros [= <-].
  - rewrite (validateField_index files _ a i r).
    destruct (validateField (getField r (Rule.field a)) a 0 r files)
      as [[o|e] a']; simpl; [|discriminate].
    destruct (collect (map fst (map _ rules))) as [rest|] eqn:Hc; [|discriminate].
    intros [= <-]. rewrite (IH rest eq_refl). now destruct o.
Qed.

Lemma rowCalls_index_Ok (files : option (list FileData)) (r : Row) (i : nat)
    (rules : list ValidationRule) (x : list ValidationError) :
  collect (map fst (rowCalls r i files rules)) = Ok x ->
  exists x0, collect (map fst (rowCalls r 0 files rules)) = Ok x0.
Proof.
  unfold rowCalls. revert x.
  induction rules as [|a rules IH]; simpl; intros x; [eauto|].
  rewrite (validateField_index files _ a i r).
  destruct (validateField (getField r (Rule.field a)) a 0 r files)
    as [[o|e] a']; simpl.
  - destruct (collect (map fst (map
      (fun rule => validateField (getField r (Rule.field rule)) rule i r files)
      rules))) as [rest|] eqn:Hc.
    + destruct (IH rest eq_refl) as [x0 ->]. eauto.
    + destruct o; discriminate.
  - discriminate.
Qed.

(** With a registry without state, the errors of the calls for one row
    are a segment of the list: the errors with the index of the row. *)
Lemma calls_row (files : option (list FileData)) (rules : list ValidationRule) :
  stateless rules = true ->
  forall (rows : list Row) (i0 k : nat) (r : Row)
         (errs : list ValidationError),
    collect (calls rows i0 files rules) = Ok errs ->
    rows !! k = Some r ->
    exists x,
      collect (map fst (rowCalls r (i0 + k) files rules)) = Ok x
      /\ List.filter (fun e => row e =? i0 + k) errs = x.
Proof.
  intros Hst. induction rows as [|r0 rows IH]; intros i0 k r errs; simpl;
    [discriminate|].
  rewrite (rowCalls_stateless files r0 i0 rules Hst).
  intros (x & y & Hx & Hy & ->)%collect_app_Ok Hk.
  rewrite List.filter_app. destruct k as [|k]; simpl in Hk.
  - injection Hk as ->. rewrite Nat.add_0_r. exists x. split; [exact Hx|].
    apply rowCalls_errors in Hx. apply calls_errors in Hy as [_ Hy].
    rewrite (filter_none (fun e => row e =? i0) y).
    + rewrite app_nil_r. apply forallb_filter_id, forallb_forall.
      rewrite List.Forall_forall in Hx. intros e He.
      destruct (Hx e He) as [-> _]. apply Nat.eqb_refl.
    + eapply List.Forall_impl; [|exact Hy]. intros e [He _].
      apply Nat.eqb_neq. lia.
  - destruct (IH (S i0) k r y Hy Hk) as (x' & Hx' & Hf).
    replace (i0 + S k) with (S i0 + k) by lia.
    exists x'. split; [exact Hx'|].
    apply rowCalls_errors in Hx.
    rewrite (filter_none (fun e => row e =? S i0 + k) x); [exact Hf|].
    eapply List.Forall_impl; [|exact Hx]. intros e [He _].
    apply Nat.eqb_neq. lia.
Qed.

(** X18.  Under the built-in registry the errors of a row, the
    [duplicate-ids] errors apart, depend on the row alone: in the list
    that [validateData] returns for a table, the errors of the row [i]
    that are no [duplicate-ids] errors are, in the same order, the
    errors that [validateData] returns for the table of that single row,
    with [i] as row index. *)
Theorem X18_rows_are_validated_alone (data : list Row)
    (headers : list jsstring) (fileName : jsstring)
    (files : option (list FileData)) (errs : list ValidationError)
    (i : nat) (r : Row) :
  fst (validateData initialRules data headers fileName files) = Ok errs ->
  data !! i = Some r ->
  exists alone : list ValidationError,
    fst (validateData initialRules [r] headers fileName files) = Ok alone
    /\ List.filter (fun e => (row e =? i)
                             && negb (strEq (ruleId e) (js "duplicate-ids")))
         errs
       = map (atRow i) alone.
Proof.
  rewrite !validateData_structure, !tracked_initialRules.
  destruct (collect (calls data 0 files initialRules)) as [x|] eqn:Hc;
    [|discriminate].
  intros [= <-] Hr.
  destruct (calls_row files initialRules eq_refl data 0 i r x Hc Hr)
    as (xi & Hxi & Hf).
  cbn [Nat.add] in Hxi, Hf.
  destruct (rowCalls_index_Ok files r i initialRules xi Hxi) as [x0 Hx0].
  pose proof (rowCalls_index files r i initialRules x0 Hx0) as Hxi'.
  rewrite Hxi in Hxi'. injection Hxi' as ->.
  exists x0. split.
  - cbn [calls]. rewrite app_nil_r. rewrite Hx0.
    cbn [clientIds]. rewrite app_nil_r.
    destruct (truthy (getField r (js "ClientID"))); cbn [map fst distinct flat_map].
    + unfold rowsOf. cbn [List.filter fst]. rewrite primSame_refl.
      cbn. now rewrite app_nil_r.
    + cbn. now rewrite app_nil_r.
  - rewrite List.filter_app.
    rewrite (filter_none _ (flat_map _ _)).
    2:{ apply List.Forall_forall. intros e (v & _ & He)%in_flat_map.
        unfold duplicateGroup in He. destruct (2 <=? _)%nat; [|destruct He].
        apply in_map_iff in He as (j & <- & _). cbn [ruleId duplicateError].
        now rewrite strEq_refl, andb_false_r. }
    rewrite app_nil_r, <- Hf.
    apply calls_errors in Hc as [_ Hc].
    clear -Hc. induction Hc as [|e x (_ & t & Hin & Ht) _ IH]; simpl;
      [reflexivity|].
    rewrite (initialRules_duplicate_id e t Hin Ht). simpl. rewrite andb_true_r.
    destruct (row e =? i); now rewrite IH.
Qed.

Lemma X18_rows_are_validated_alone_witness :
  exists alone : list ValidationError,
    fst (validateData initialRules
           [rowOf [("Name"%string, str ""); ("Skills"%string, str "cooking")]]
           [] (js "clients.csv") None) = Ok alone
    /\ List.filter (fun e => (row e =? 2)
                             && negb (strEq (ruleId e) (js "duplicate-ids")))
         messyErrors
       = map (atRow 2) alone.
Proof.
  exact (X18_rows_are_validated_alone messy [] (js "clients.csv") None
           messyErrors 2 _ eq_refl eq_refl).
Defined.
